(** * ClaimAssist AI: assessment routing, cost recomputation and feedback metrics

    A shallow embedding of the decision logic of the claims workflow:
    - [MockEngine]  : [generateMockAssessment] of components/DamageAssessment.tsx
    - [Route]       : the [POST] handler of app/api/analyze/route.ts
    - [Assessment]  : the state and handlers of the [DamageAssessment] component
    - [Review]      : the [AgentReview] component
    - [FeedbackLoop]: lib/feedbackLoop.ts
    - [Workflow]    : the step from the assessment to the review in app/page.tsx
    - [Uploader]    : components/ImageUploader.tsx
    - [Marking]     : the [HumanFeedbackRequest] component
    - [Confirmation]: the [ClaimConfirmation] component
    - [Page]        : the workflow steps of app/page.tsx
    - [ClaimForm]   : the VIN lookup of the [ClaimForm] component

    JavaScript numbers are modelled as exact rationals ([Q]); equalities
    between computed numbers are stated up to [Qeq] ([==]).  Where the
    rounding of doubles matters ([Confirmation.timeSavingsPercent]) it is
    an explicit rounding function.  React state is
    an explicit record, every event handler is a function from state to
    state, and a [Record<number, T>] object is a [gmap nat T] whose missing
    keys play the role of [undefined]. *)

From Stdlib Require Import QArith Qround Qabs ZArith Lia Lqa Ascii String.
From Stdlib Require Import Permutation.
From stdpp Require Import gmap strings list pretty.

Open Scope Q_scope.

(** ** JavaScript number helpers *)

Definition Qltb (x y : Q) : bool := negb (Qle_bool y x).
Definition Qgtb (x y : Q) : bool := Qltb y x.
Definition Qgeb (x y : Q) : bool := Qle_bool y x.

(** [Math.floor], [Math.round] (ties towards plus infinity), [Math.min]. *)
Definition js_floor (x : Q) : Q := inject_Z (Qfloor x).
Definition js_round (x : Q) : Q := inject_Z (Qfloor (x + (1 # 2))).
Definition js_min (x y : Q) : Q := if Qle_bool x y then x else y.

(** [xs.reduce((sum, x) => sum + f(x), 0)] *)
Definition sum_by {A : Type} (f : A -> Q) (xs : list A) : Q :=
  foldl (fun sum x => sum + f x) 0 xs.

(** Truthiness of an optional boolean ([undefined] and [false] are falsy). *)
Definition truthy (b : option bool) : bool := default false b.

(** ** Data model (components/DamageAssessment.tsx) *)

Inductive Severity := Minor | Moderate | Severe.

(** ['None' | 'Minor' | 'Moderate' | 'Severe'] *)
Inductive OverallSeverity := ONone | OMinor | OModerate | OSevere.

Definition overall (s : Severity) : OverallSeverity :=
  match s with Minor => OMinor | Moderate => OModerate | Severe => OSevere end.

Definition Severity_eqb (a b : Severity) : bool :=
  match a, b with
  | Minor, Minor | Moderate, Moderate | Severe, Severe => true
  | _, _ => false
  end.

Definition OverallSeverity_eqb (a b : OverallSeverity) : bool :=
  match a, b with
  | ONone, ONone | OMinor, OMinor | OModerate, OModerate | OSevere, OSevere => true
  | _, _ => false
  end.

Record DamageItem := {
  area : string;
  type : string;
  severity : Severity;
  estimatedCost : Q;
  confidence : Q;
  partsCost : option Q;
  laborHours : option Q;
  laborRate : option Q;
}.

Inductive FlagType :=
  color_mismatch | model_mismatch | multiple_vehicles | vin_mismatch | other.
Inductive FlagSeverity := warning | critical.

Record InconsistencyFlag := {
  flagType : FlagType;
  description : string;
  flagSeverity : FlagSeverity;
  flagConfidence : Q;
}.

Record ManualOverride := {
  damageIndex : nat;
  originalCost : Q;
  adjustedCost : Q;
  reason : string;
}.

Record AssessmentResult := {
  claimId : string;
  overallSeverity : OverallSeverity;
  hasDamage : bool;
  damages : list DamageItem;
  totalEstimate : Q;
  totalLaborHours : Q;               (* field [laborHours] *)
  partsRequired : list string;
  aiConfidence : Q;
  recommendations : list string;
  processingTime : Q;
  summary : option string;
  humanAssisted : option bool;
  manualOverrides : option (list ManualOverride);
  overrideNotes : option string;
  hasInconsistencies : option bool;
  inconsistencies : option (list InconsistencyFlag);
}.

Definition LOW_CONFIDENCE_THRESHOLD : Q := 70.
Definition SENIOR_APPROVAL_THRESHOLD : Q := 5000.
Definition HIGH_CONFIDENCE_THRESHOLD : Q := 85.
Definition LABOR_RATE : Q := 115.

(** ** Specification-side aggregates (spec section 4.3) *)

(** Overall severity as the spec words it: Severe if any item is Severe,
    else Moderate if any item is Moderate, else Minor if any items exist,
    else None. *)
Definition spec_overallSeverity (ds : list DamageItem) : OverallSeverity :=
  if existsb (fun d => Severity_eqb (severity d) Severe) ds then OSevere
  else if existsb (fun d => Severity_eqb (severity d) Moderate) ds then OModerate
  else match ds with [] => ONone | _ :: _ => OMinor end.

(** The same thing as a maximum under Severe > Moderate > Minor > (None). *)
Definition rank (s : OverallSeverity) : nat :=
  match s with ONone => 0 | OMinor => 1 | OModerate => 2 | OSevere => 3 end.

Definition sev_max (a b : OverallSeverity) : OverallSeverity :=
  if (rank a <? rank b)%nat then b else a.

Definition max_severity (ds : list DamageItem) : OverallSeverity :=
  foldr (fun d acc => sev_max (overall (severity d)) acc) ONone ds.

(** Arithmetic mean of the per-item confidences. *)
Definition mean_confidence (ds : list DamageItem) : Q :=
  sum_by confidence ds / inject_Z (Z.of_nat (length ds)).

(** ** The simulated assessment engine: [generateMockAssessment] *)

Module MockEngine.

(** One row of the [damageTypes] table. *)
Record DamageTemplate := {
  t_area : string;
  t_type : string;
  t_severity : Severity;
  t_partsCost : Q;
  t_laborHours : Q;
}.

Definition damageTypes : list DamageTemplate := [
  {| t_area := "Front Bumper"; t_type := "Dent"; t_severity := Moderate;
     t_partsCost := 550; t_laborHours := 3.5 |};
  {| t_area := "Hood"; t_type := "Scratch"; t_severity := Minor;
     t_partsCost := 0; t_laborHours := 2.0 |};
  {| t_area := "Front Left Fender"; t_type := "Crumple damage"; t_severity := Severe;
     t_partsCost := 2800; t_laborHours := 6.5 |};
  {| t_area := "Headlight Assembly"; t_type := "Cracked lens"; t_severity := Moderate;
     t_partsCost := 450; t_laborHours := 1.5 |};
  {| t_area := "Grille"; t_type := "Broken"; t_severity := Minor;
     t_partsCost := 180; t_laborHours := 0.5 |};
  {| t_area := "Front Quarter Panel"; t_type := "Structural damage"; t_severity := Severe;
     t_partsCost := 3200; t_laborHours := 8.0 |};
  {| t_area := "Windshield"; t_type := "Minor chip"; t_severity := Minor;
     t_partsCost := 0; t_laborHours := 0.5 |};
  {| t_area := "Door Panel"; t_type := "Deep scratch"; t_severity := Moderate;
     t_partsCost := 950; t_laborHours := 4.0 |}
].

(** Everything the function obtains from [Math.random()] and [Date.now()].
    [shuffled] is the array left by [damageTypes.sort(() => Math.random() - 0.5)];
    the other fields are the draws made for the item at a given position. *)
Record Randomness := {
  stamp : string;               (* Date.now().toString(36).toUpperCase() *)
  shuffled : list DamageTemplate;
  costJitter : nat -> Q;
  confJitter : nat -> Q;
  partsDraw : nat -> Q;
  laborDraw : nat -> Q;
  timeDraw : Q;
}.

(** [Math.random()] returns a number in [0, 1); sorting permutes the table. *)
Definition unit_draw (r : Q) : Prop := 0 <= r /\ r < 1.

Record fair (rnd : Randomness) : Prop := {
  fair_shuffled : Permutation damageTypes (shuffled rnd);
  fair_costJitter : forall i, unit_draw (costJitter rnd i);
  fair_confJitter : forall i, unit_draw (confJitter rnd i);
  fair_partsDraw : forall i, unit_draw (partsDraw rnd i);
  fair_laborDraw : forall i, unit_draw (laborDraw rnd i);
  fair_timeDraw : unit_draw (timeDraw rnd);
}.

(** The object built by the first [.map((d) => ...)]. *)
Definition baseItem (overrideConfidence : option Q) (overrideSeverity : option Severity)
    (rnd : Randomness) (i : nat) (d : DamageTemplate) : DamageItem :=
  let laborCost := t_laborHours d * LABOR_RATE in
  let totalCost := t_partsCost d + laborCost in
  {| area := t_area d;
     type := t_type d;
     severity := default (t_severity d) overrideSeverity;
     estimatedCost := totalCost + js_floor (costJitter rnd i * 100);
     confidence := default (75 + js_floor (confJitter rnd i * 20)) overrideConfidence;
     partsCost := Some (t_partsCost d);
     laborHours := Some (t_laborHours d);
     laborRate := Some LABOR_RATE |}.

(** [{...d, severity, partsCost, laborHours: Math.round(laborHours * 2) / 2,
      laborRate, estimatedCost: partsCost + laborHours * LABOR_RATE}] *)
Definition repriced (s : Severity) (parts hours : Q) (d : DamageItem) : DamageItem :=
  {| area := area d;
     type := type d;
     severity := s;
     estimatedCost := parts + hours * LABOR_RATE;
     confidence := confidence d;
     partsCost := Some parts;
     laborHours := Some (js_round (hours * 2) / 2);
     laborRate := Some LABOR_RATE |}.

Definition applySeverityOverride (overrideSeverity : option Severity)
    (rnd : Randomness) (selectedDamages : list DamageItem) : list DamageItem :=
  match overrideSeverity with
  | None => selectedDamages
  | Some Severe =>
      imap (fun i d =>
              repriced Severe (2000 + js_floor (partsDraw rnd i * 1500))
                       (5.0 + laborDraw rnd i * 3.0) d) selectedDamages
  | Some Minor =>
      imap (fun i d =>
              repriced Minor (js_floor (partsDraw rnd i * 100))
                       (0.5 + laborDraw rnd i * 1.5) d)
           (take (Nat.min 2 (length selectedDamages)) selectedDamages)
  | Some Moderate =>
      imap (fun i d =>
              repriced Moderate (300 + js_floor (partsDraw rnd i * 500))
                       (2.0 + laborDraw rnd i * 2.5) d) selectedDamages
  end.

Definition mockFlags : list InconsistencyFlag := [
  {| flagType := color_mismatch;
     description := "Images show vehicles of different colors (white vs blue detected)";
     flagSeverity := critical; flagConfidence := 94 |};
  {| flagType := multiple_vehicles;
     description := "Photos appear to show 2 different vehicles based on body style and features";
     flagSeverity := critical; flagConfidence := 89 |}
].

Definition fraudWarning : string :=
  "CRITICAL: Vehicle inconsistencies detected - halt processing and investigate for potential fraud".

Definition generateMockAssessment (imageCount : nat)
    (overrideConfidence : option Q) (overrideSeverity : option Severity)
    (hasDamageOverride hasInconsistencyOverride : option bool)
    (rnd : Randomness) : AssessmentResult :=
  match hasDamageOverride with
  | Some false =>
      {| claimId := "CLM-" +:+ stamp rnd;
         hasDamage := false;
         overallSeverity := ONone;
         damages := [];
         totalEstimate := 0;
         totalLaborHours := 0;
         partsRequired := [];
         aiConfidence := default 85 overrideConfidence;
         recommendations :=
           ["No visible damage detected";
            "Consider requesting additional photos if damage was reported"];
         processingTime := 2.3;
         summary := Some "[Simulated] No damage detected in uploaded images";
         humanAssisted := None;
         manualOverrides := None;
         overrideNotes := None;
         hasInconsistencies := None;
         inconsistencies := None |}
  | _ =>
      let numDamages := Nat.min (Nat.max 2 imageCount) (length damageTypes) in
      let selectedDamages :=
        applySeverityOverride overrideSeverity rnd
          (imap (baseItem overrideConfidence overrideSeverity rnd)
                (take numDamages (shuffled rnd))) in
      let totalEstimate := sum_by estimatedCost selectedDamages in
      let totalLaborHours := sum_by (fun d => default 0 (laborHours d)) selectedDamages in
      let overallSeverity :=
        match overrideSeverity with
        | Some s => overall s
        | None =>
            if existsb (fun d => Severity_eqb (severity d) Severe) selectedDamages
            then OSevere
            else if existsb (fun d => Severity_eqb (severity d) Moderate) selectedDamages
            then OModerate else OMinor
        end in
      let partsRequired :=
        (fun d => area d +:+ " replacement/repair") <$>
        filter (fun d => Qgtb (default 0 (partsCost d)) 0 = true) selectedDamages in
      let avgConfidence :=
        default
          (js_floor (sum_by confidence selectedDamages
                     / inject_Z (Z.of_nat (length selectedDamages))))
          overrideConfidence in
      let recommendations :=
        [ (if Qltb avgConfidence LOW_CONFIDENCE_THRESHOLD
           then "Low confidence assessment - human review recommended"
           else if OverallSeverity_eqb overallSeverity OSevere
           then "Recommend in-person inspection before authorization"
           else "Damage consistent with reported incident");
          (if Qgtb totalEstimate SENIOR_APPROVAL_THRESHOLD
           then "Estimate exceeds $5,000 threshold - senior adjuster review required"
           else "Within standard authorization limits");
          "All repairs should be performed at certified body shop" ] in
      {| claimId := "CLM-" +:+ stamp rnd;
         hasDamage := true;
         overallSeverity := overallSeverity;
         damages := selectedDamages;
         totalEstimate := totalEstimate;
         totalLaborHours := totalLaborHours;
         partsRequired := partsRequired;
         aiConfidence := avgConfidence;
         recommendations :=
           (if truthy hasInconsistencyOverride
            then fraudWarning :: recommendations else recommendations);
         processingTime := 2.3 + timeDraw rnd * 1.5;
         summary :=
           Some (if truthy hasInconsistencyOverride
                 then "[Simulated] ALERT: Multiple vehicle inconsistencies detected in uploaded images"
                 else "[Simulated] Demo mode - using simulated assessment data");
         humanAssisted := None;
         manualOverrides := None;
         overrideNotes := None;
         hasInconsistencies := hasInconsistencyOverride;
         inconsistencies :=
           (if truthy hasInconsistencyOverride then Some mockFlags else None) |}
  end.

End MockEngine.

(** A sample source of randomness: the table in its original order. *)
Definition plainRandomness : MockEngine.Randomness :=
  {| MockEngine.stamp := "LX1";
     MockEngine.shuffled := MockEngine.damageTypes;
     MockEngine.costJitter := fun _ => 0.5;
     MockEngine.confJitter := fun i => if Nat.even i then 0.5 else 0.25;
     MockEngine.partsDraw := fun _ => 0.5;
     MockEngine.laborDraw := fun _ => 0.5;
     MockEngine.timeDraw := 0.5 |}.


(** ** The analysis endpoint: [POST] of app/api/analyze/route.ts *)

Module Route.

Record Image := { base64 : string; mediaType : string }.

Record VehicleInfo := { make : string; model : string; year : string }.

Record DamageMarker := {
  x : Q;
  y : Q;
  imageIndex : nat;
  markerDescription : option string;
}.

(** The JSON body sent by the client.  [humanMarkers] is present in the
    body when the client has markers; the handler destructures only
    [images] and [vehicleInfo]. *)
Record Request := {
  images : list Image;
  vehicleInfo : option VehicleInfo;
  humanMarkers : option (list DamageMarker);
}.

(** The value of [JSON.parse(textContent.text)].  [an_damages = None] is a
    reply without a [damages] array, on which [analysis.damages.reduce]
    throws a [TypeError]; [an_laborHours = None] is a reply without a
    [laborHours] number, for which [analysis.laborHours * 85] is [NaN]. *)
Record Analysis := {
  an_hasDamage : bool;
  an_damages : option (list DamageItem);
  an_overallSeverity : option OverallSeverity;
  an_laborHours : option Q;
  an_partsRequired : option (list string);
  an_recommendations : option (list string);
  an_summary : option string;
  an_hasInconsistencies : option bool;
  an_inconsistencies : option (list InconsistencyFlag);
}.

(** [{ ...analysis, totalEstimate, aiConfidence: avgConfidence }] as the
    client reads it from the JSON body; [None] is [null], which is how
    [NextResponse.json] writes [NaN]. *)
Record Payload := {
  analysis : Analysis;
  p_totalEstimate : option Q;
  p_aiConfidence : option Q;
}.

Inductive Response :=
| Json (body : Payload)                       (* status 200 *)
| ErrorJson (status : nat) (error : string).

(** What [anthropic.messages.create] does: it throws, or it resolves with
    a content list that has a text block or has none. *)
Inductive ModelReply :=
| ModelThrows (message : string)
| ModelContent (text : option string).

Definition userPrompt (v : option VehicleInfo) : string :=
  match v with
  | Some v =>
      "Analyze these images of a " +:+ year v +:+ " " +:+ make v +:+ " " +:+ model v
      +:+ " for vehicle damage. If there is no visible damage, clearly state that."
  | None =>
      "Analyze these vehicle images for damage. If there is no visible damage, clearly state that."
  end.

(** [avgConfidence] of the handler. *)
Definition avgConfidence (ds : list DamageItem) : Q :=
  if (0 <? length ds)%nat
  then js_round (sum_by confidence ds / inject_Z (Z.of_nat (length ds)))
  else 95.

Section Handler.
(** The collaborators of the handler: the configured key, the vision
    model, [JSON.parse], and the message of the engine's [TypeError]. *)
Variable apiKeyConfigured : bool.
Variable anthropic : list Image -> string -> ModelReply.
Variable parse : string -> option Analysis.
Variable typeErrorMessage : string.

Definition POST (req : Request) : Response :=
  if bool_decide (images req = []) then ErrorJson 400 "No images provided"
  else if negb apiKeyConfigured then ErrorJson 500 "API key not configured"
  else
    match anthropic (images req) (userPrompt (vehicleInfo req)) with
    | ModelThrows message => ErrorJson 500 message
    | ModelContent None => ErrorJson 500 "No text response from Claude"
    | ModelContent (Some text) =>
        match parse text with
        | None => ErrorJson 500 "Invalid response format from AI"
        | Some analysis =>
            match an_damages analysis with
            | None => ErrorJson 500 typeErrorMessage
            | Some ds =>
                let totalEstimate :=
                  (fun hours => sum_by estimatedCost ds + hours * 85)
                    <$> an_laborHours analysis in
                Json {| analysis := analysis;
                        p_totalEstimate := totalEstimate;
                        p_aiConfidence := Some (avgConfidence ds) |}
            end
        end
    end.
End Handler.

End Route.

(** ** The [DamageAssessment] component *)

Module Assessment.

Inductive Mode := live | simulated.

(** The props the logic reads.  [hasQuickApprove] says whether the optional
    [onQuickApprove] callback was supplied. *)
Record Props := {
  mode : Mode;
  imageCount : nat;                       (* images.length *)
  vehicle : Route.VehicleInfo;            (* claimData.vehicleMake / Model / Year *)
  hasQuickApprove : bool;
}.

(** The manual-override [useState] cells. *)
Record Overrides := {
  overrideEnabled : gmap nat bool;
  adjustedCosts : gmap nat Q;
  overrideReasons : gmap nat string;
  overrideNotesText : string;             (* state cell [overrideNotes] *)
  removedItems : gmap nat bool;
}.

(** The test-mode controls. *)
Record TestControls := {
  testConfidence : Q;
  testSeverity : Severity;
  testHasDamage : bool;
  testHasInconsistency : bool;
}.

(** The remaining cells that the workflow logic reads or writes.  The
    progress bar and the rejection dialog are left out. *)
Record State := {
  isAnalyzing : bool;
  statusMessage : string;
  quickApproveComplete : bool;
  assessment : option AssessmentResult;
  error : option string;
  needsHumanInput : bool;
  damageMarkers : list Route.DamageMarker;
  overrides : Overrides;
  isAutoApproving : bool;
  test : TestControls;
  hasStartedAnalysis : bool;
}.

Definition noOverrides : Overrides :=
  {| overrideEnabled := ∅; adjustedCosts := ∅; overrideReasons := ∅;
     overrideNotesText := ""; removedItems := ∅ |}.

Definition initialState : State :=
  {| isAnalyzing := false;
     statusMessage := "Preparing images...";
     quickApproveComplete := false;
     assessment := None;
     error := None;
     needsHumanInput := false;
     damageMarkers := [];
     overrides := noOverrides;
     isAutoApproving := false;
     test := {| testConfidence := 85; testSeverity := Moderate;
                testHasDamage := true; testHasInconsistency := false |};
     hasStartedAnalysis := false |}.

Definition isRemoved (o : Overrides) (index : nat) : bool :=
  truthy (removedItems o !! index).
Definition isOverridden (o : Overrides) (index : nat) : bool :=
  truthy (overrideEnabled o !! index).

(** *** Event handlers of the itemized table *)

(** The override checkbox: [onChange] with [e.target.checked = checked]. *)
Definition toggleOverride (index : nat) (damage : DamageItem) (checked : bool)
    (o : Overrides) : Overrides :=
  {| overrideEnabled := <[index := checked]> (overrideEnabled o);
     adjustedCosts :=
       match checked, adjustedCosts o !! index with
       | true, None => <[index := estimatedCost damage]> (adjustedCosts o)
       | _, _ => adjustedCosts o
       end;
     overrideReasons := overrideReasons o;
     overrideNotesText := overrideNotesText o;
     removedItems := removedItems o |}.

(** The cost input: [parseInt(e.target.value) || 0]; [parsed = None] is NaN. *)
Definition editCost (index : nat) (parsed : option Z) (o : Overrides) : Overrides :=
  {| overrideEnabled := overrideEnabled o;
     adjustedCosts := <[index := inject_Z (default 0%Z parsed)]> (adjustedCosts o);
     overrideReasons := overrideReasons o;
     overrideNotesText := overrideNotesText o;
     removedItems := removedItems o |}.

Definition editReason (index : nat) (value : string) (o : Overrides) : Overrides :=
  {| overrideEnabled := overrideEnabled o;
     adjustedCosts := adjustedCosts o;
     overrideReasons := <[index := value]> (overrideReasons o);
     overrideNotesText := overrideNotesText o;
     removedItems := removedItems o |}.

Definition editNotes (value : string) (o : Overrides) : Overrides :=
  {| overrideEnabled := overrideEnabled o;
     adjustedCosts := adjustedCosts o;
     overrideReasons := overrideReasons o;
     overrideNotesText := value;
     removedItems := removedItems o |}.

(** The remove / restore button. *)
Definition toggleRemove (index : nat) (o : Overrides) : Overrides :=
  {| overrideEnabled :=
       if negb (isRemoved o index)
       then <[index := false]> (overrideEnabled o)
       else overrideEnabled o;
     adjustedCosts := adjustedCosts o;
     overrideReasons := overrideReasons o;
     overrideNotesText := overrideNotesText o;
     removedItems := <[index := negb (isRemoved o index)]> (removedItems o) |}.

(** What the agent can do on the itemized table. *)
Inductive Action :=
| ToggleOverride (index : nat) (checked : bool)
| EditCost (index : nat) (parsed : option Z)
| EditReason (index : nat) (value : string)
| ToggleRemove (index : nat)
| EditNotes (value : string).

(** One event.  The table has a row for every damage item; the override
    checkbox is rendered only for a row that is not removed, and the cost
    and reason inputs only for a row whose override is enabled.  An event
    on a control that is not rendered cannot happen and leaves the state. *)
Definition step (ds : list DamageItem) (o : Overrides) (a : Action) : Overrides :=
  match a with
  | ToggleOverride index checked =>
      match ds !! index with
      | Some damage =>
          if isRemoved o index then o else toggleOverride index damage checked o
      | None => o
      end
  | EditCost index parsed =>
      match ds !! index with
      | Some _ =>
          if negb (isRemoved o index) && isOverridden o index
          then editCost index parsed o else o
      | None => o
      end
  | EditReason index value =>
      match ds !! index with
      | Some _ =>
          if negb (isRemoved o index) && isOverridden o index
          then editReason index value o else o
      | None => o
      end
  | ToggleRemove index =>
      match ds !! index with
      | Some _ => toggleRemove index o
      | None => o
      end
  | EditNotes value => editNotes value o
  end.

Definition run (ds : list DamageItem) (actions : list Action) : Overrides :=
  foldl (step ds) noOverrides actions.

(** The row an action works on. *)
Definition target (act : Action) : option nat :=
  match act with
  | ToggleOverride index _ | EditCost index _ | EditReason index _
  | ToggleRemove index => Some index
  | EditNotes _ => None
  end.

(** *** [getAdjustedTotal] *)

(** The body of [assessment.damages.forEach((damage, index) => ...)],
    started at position [index] with the running [total]. *)
Fixpoint adjustedFrom (o : Overrides) (index : nat) (ds : list DamageItem)
    (total : Q) : Q :=
  match ds with
  | [] => total
  | damage :: rest =>
      adjustedFrom o (S index) rest
        (if isRemoved o index then total
         else match isOverridden o index, adjustedCosts o !! index with
              | true, Some c => total + c
              | _, _ => total + estimatedCost damage
              end)
  end.

Definition getAdjustedTotal (assessment : option AssessmentResult)
    (o : Overrides) : Q :=
  match assessment with
  | None => 0
  | Some a => adjustedFrom o 0 (damages a) 0
  end.

(** [Object.values(m).some(v => v)] *)
Definition anyTrue (m : gmap nat bool) : bool :=
  existsb (fun kv => kv.2) (map_to_list m).

Definition hasActiveOverrides (o : Overrides) : bool := anyTrue (overrideEnabled o).
Definition hasRemovedItems (o : Overrides) : bool := anyTrue (removedItems o).
Definition hasModifications (o : Overrides) : bool :=
  hasActiveOverrides o || hasRemovedItems o.

(** *** Specification-side total (spec section 4.2) *)

(** The value shown in the cost input of a row:
    [adjustedCosts[index] ?? damage.estimatedCost]. *)
Definition overrideValue (o : Overrides) (index : nat) (damage : DamageItem) : Q :=
  default (estimatedCost damage) (adjustedCosts o !! index).

(** The contribution of a row as the spec words it: the override value
    when an override is enabled, else the original estimated cost. *)
Definition contribution (o : Overrides) (row : nat * DamageItem) : Q :=
  if isOverridden o row.1 then overrideValue o row.1 row.2
  else estimatedCost row.2.

(** The items paired with their positions, counting from [index]. *)
Fixpoint rowsFrom (index : nat) (ds : list DamageItem) : list (nat * DamageItem) :=
  match ds with
  | [] => []
  | damage :: rest => (index, damage) :: rowsFrom (S index) rest
  end.

Definition rows (ds : list DamageItem) : list (nat * DamageItem) := rowsFrom 0 ds.

Definition activeRows (o : Overrides) (ds : list DamageItem) : list (nat * DamageItem) :=
  filter (fun row => isRemoved o row.1 = false) (rows ds).

(** Sum over the non-removed items of their contributions. *)
Definition spec_total (o : Overrides) (ds : list DamageItem) : Q :=
  sum_by (contribution o) (activeRows o ds).

(** What one row adds to the total: nothing when removed. *)
Definition rowTerm (o : Overrides) (row : nat * DamageItem) : Q :=
  if isRemoved o row.1 then 0 else contribution o row.

(** An enabled override always has a stored value, and a removed row has
    no enabled override. *)
Definition consistent (o : Overrides) : Prop :=
  forall index,
    (isOverridden o index = true -> is_Some (adjustedCosts o !! index))
    /\ (isRemoved o index = true -> isOverridden o index = false).

(** *** Leaving the screen *)

(** What the component does to the outside: the request to the analysis
    endpoint and the calls of the [onContinue] / [onQuickApprove] props. *)
Inductive Effect :=
| CallApi (req : Route.Request)
| OnContinue (a : AssessmentResult)
| OnQuickApprove (a : AssessmentResult).

Definition isSpace (c : ascii) : bool :=
  (c =? " ")%char || (c =? "009")%char || (c =? "010")%char || (c =? "011")%char
  || (c =? "012")%char || (c =? "013")%char.

Fixpoint trimStart (s : string) : string :=
  match s with
  | EmptyString => EmptyString
  | String c rest => if isSpace c then trimStart rest else s
  end.

Fixpoint trimEnd (s : string) : string :=
  match s with
  | EmptyString => EmptyString
  | String c rest =>
      match trimEnd rest with
      | EmptyString => if isSpace c then EmptyString else String c EmptyString
      | rest' => String c rest'
      end
  end.

(** [s.trim()] on the white space of ASCII: space, tab, line feed,
    vertical tab, form feed and carriage return. *)
Definition js_trim (s : string) : string := trimEnd (trimStart s).

(** [s || fallback] on strings: the empty string is falsy. *)
Definition orElse (s : option string) (fallback : string) : string :=
  match s with
  | Some (String c rest) => String c rest
  | _ => fallback
  end.

(** The [manualOverrides] collected by the second [forEach]. *)
Fixpoint overridesFrom (o : Overrides) (index : nat) (ds : list DamageItem)
    : list ManualOverride :=
  match ds with
  | [] => []
  | damage :: rest =>
      (if isRemoved o index then []
       else match isOverridden o index, adjustedCosts o !! index with
            | true, Some c =>
                [ {| damageIndex := index;
                     originalCost := estimatedCost damage;
                     adjustedCost := c;
                     reason := orElse (overrideReasons o !! index) "Manual adjustment" |} ]
            | _, _ => []
            end)
      ++ overridesFrom o (S index) rest
  end.

Definition updatedAssessment (a : AssessmentResult) (o : Overrides) : AssessmentResult :=
  let manualOverrides := overridesFrom o 0 (damages a) in
  let filteredDamages := (activeRows o (damages a)).*2 in
  {| claimId := claimId a;
     overallSeverity := overallSeverity a;
     hasDamage := hasDamage a;
     damages := filteredDamages;
     totalEstimate := getAdjustedTotal (Some a) o;
     totalLaborHours := totalLaborHours a;
     partsRequired := partsRequired a;
     aiConfidence := aiConfidence a;
     recommendations := recommendations a;
     processingTime := processingTime a;
     summary := summary a;
     humanAssisted := humanAssisted a;
     manualOverrides :=
       (if (0 <? length manualOverrides)%nat then Some manualOverrides else None);
     overrideNotes :=
       (match js_trim (overrideNotesText o) with
        | EmptyString => None
        | notes => Some notes
        end);
     hasInconsistencies := hasInconsistencies a;
     inconsistencies := inconsistencies a |}.

(** [handleContinueWithOverrides]: the "Review & Approve" button. *)
Definition handleContinueWithOverrides (st : State) : list Effect :=
  match assessment st with
  | None => []
  | Some a => [OnContinue (updatedAssessment a (overrides st))]
  end.

(** The assessment passed on by the "Proceed to Review" button of the
    no-damage view: [onContinue(assessment)]. *)
Definition proceedToReview (st : State) : list Effect :=
  match assessment st with
  | None => []
  | Some a => [OnContinue a]
  end.

Definition autoApprovedAssessment (a : AssessmentResult) (o : Overrides) : AssessmentResult :=
  {| claimId := claimId a;
     overallSeverity := overallSeverity a;
     hasDamage := hasDamage a;
     damages := damages a;
     totalEstimate := getAdjustedTotal (Some a) o;
     totalLaborHours := totalLaborHours a;
     partsRequired := partsRequired a;
     aiConfidence := aiConfidence a;
     recommendations := recommendations a;
     processingTime := processingTime a;
     summary := summary a;
     humanAssisted := humanAssisted a;
     manualOverrides := manualOverrides a;
     overrideNotes :=
       Some "Auto-approved: High confidence assessment within standard limits";
     hasInconsistencies := hasInconsistencies a;
     inconsistencies := inconsistencies a |}.

(** The cells written while an analysis or an approval runs; the other
    cells keep their value. *)
Definition settle (st : State) (analyzing : bool) (message : string)
    (approved : bool) (result : option AssessmentResult) (err : option string)
    (needsHuman : bool) : State :=
  {| isAnalyzing := analyzing;
     statusMessage := message;
     quickApproveComplete := approved;
     assessment := result;
     error := err;
     needsHumanInput := needsHuman;
     damageMarkers := damageMarkers st;
     overrides := overrides st;
     isAutoApproving := false;
     test := test st;
     hasStartedAnalysis := hasStartedAnalysis st |}.

(** [handleAutoApprove]: the "Quick Approve" button, after its timers. *)
Definition handleAutoApprove (props : Props) (st : State) : State * list Effect :=
  match assessment st with
  | None => (st, [])
  | Some a =>
      (settle st (isAnalyzing st) (statusMessage st) true (assessment st)
              (error st) (needsHumanInput st),
       if hasQuickApprove props
       then [OnQuickApprove (autoApprovedAssessment a (overrides st))] else [])
  end.

(** *** [analyzeImages] *)

(** A value caught by [catch (err)]: an [Error] with its message, or
    something that is not an [Error]. *)
Inductive Thrown := ErrorObject (message : string) | OtherValue.

(** [Promise.all(images.map((img) => fileToBase64(img.file)))] *)
Inductive Conversion :=
| Converted (imageData : list Route.Image)
| ConversionRejects (e : Thrown).

(** The reply to [fetch('/api/analyze', ...)]: a rejected promise, a reply
    of the handler ([response.ok] exactly for [Route.Json]), or a reply whose
    body is not JSON, on which [response.json()] rejects. *)
Inductive FetchResult :=
| FetchRejects (e : Thrown)
| Replies (r : Route.Response)
| NotJson (ok : bool) (syntaxError : string).

(** The surroundings of one call of [analyzeImages]. *)
Record Run := {
  elapsed : Q;                            (* (Date.now() - startTime) / 1000 *)
  rnd : MockEngine.Randomness;
  liveStamp : string;                     (* Date.now().toString(36).toUpperCase() *)
  conversion : Conversion;
  fetch : Route.Request -> FetchResult;
}.

Definition hasMarkers (humanMarkers : option (list Route.DamageMarker)) : bool :=
  match humanMarkers with
  | Some ms => (0 <? length ms)%nat
  | None => false
  end.

(** [mockResult.processingTime = ...] followed by the human-marker block. *)
Definition simulatedResult (props : Props) (tc : TestControls)
    (humanMarkers : option (list Route.DamageMarker)) (w : Run) : AssessmentResult :=
  let mockResult :=
    MockEngine.generateMockAssessment (imageCount props)
      (Some (testConfidence tc)) (Some (testSeverity tc))
      (Some (testHasDamage tc)) (Some (testHasInconsistency tc)) (rnd w) in
  let boosted := hasMarkers humanMarkers in
  {| claimId := claimId mockResult;
     overallSeverity := overallSeverity mockResult;
     hasDamage := hasDamage mockResult;
     damages := damages mockResult;
     totalEstimate := totalEstimate mockResult;
     totalLaborHours := totalLaborHours mockResult;
     partsRequired := partsRequired mockResult;
     aiConfidence :=
       (if boosted then js_min 95 (aiConfidence mockResult + 15)
        else aiConfidence mockResult);
     recommendations := recommendations mockResult;
     processingTime := elapsed w;
     summary :=
       (if boosted
        then Some ("[Simulated] Human-assisted assessment with "
                   +:+ pretty (length (default [] humanMarkers))
                   +:+ " marked location(s)")
        else summary mockResult);
     humanAssisted := (if boosted then Some true else humanAssisted mockResult);
     manualOverrides := manualOverrides mockResult;
     overrideNotes := overrideNotes mockResult;
     hasInconsistencies := hasInconsistencies mockResult;
     inconsistencies := inconsistencies mockResult |}.

(** The request for human markers: low confidence, no [humanMarkers]
    argument, damage detected. *)
Definition requestsHumanInput (a : AssessmentResult)
    (humanMarkers : option (list Route.DamageMarker)) : bool :=
  Qltb (aiConfidence a) LOW_CONFIDENCE_THRESHOLD
  && negb (bool_decide (is_Some humanMarkers))
  && hasDamage a.

(** The automatic approval of test mode. *)
Definition autoApproves (props : Props) (a : AssessmentResult) : bool :=
  let isHighConf := Qgeb (aiConfidence a) HIGH_CONFIDENCE_THRESHOLD in
  let isLowVal := Qle_bool (totalEstimate a) SENIOR_APPROVAL_THRESHOLD in
  let noFraud := negb (truthy (hasInconsistencies a)) in
  hasDamage a && isHighConf && isLowVal && noFraud && hasQuickApprove props.

Definition analyzeSimulated (props : Props)
    (humanMarkers : option (list Route.DamageMarker)) (w : Run) (st : State)
    : State * list Effect :=
  let mockResult := simulatedResult props (test st) humanMarkers w in
  let message := "Running simulated analysis..." in
  if requestsHumanInput mockResult humanMarkers
  then (settle st false message (quickApproveComplete st) (Some mockResult)
               (error st) true, [])
  else if autoApproves props mockResult
  then (settle st false message true (Some mockResult) (error st) false,
        [OnQuickApprove mockResult])
  else (settle st false message (quickApproveComplete st) (Some mockResult)
               (error st) false, []).

(** The request body of live mode. *)
Definition requestBody (props : Props) (imageData : list Route.Image)
    (humanMarkers : option (list Route.DamageMarker)) : Route.Request :=
  {| Route.images := imageData;
     Route.vehicleInfo := Some (vehicle props);
     Route.humanMarkers := (if hasMarkers humanMarkers then humanMarkers else None) |}.

(** [x || 0] on a number of the reply: [null] or a missing field gives 0
    (and 0 stays 0). *)
Definition orZero (x : option Q) : Q := default 0 x.

(** The [AssessmentResult] built from a successful reply. *)
Definition liveResult (humanMarkers : option (list Route.DamageMarker)) (w : Run)
    (result : Route.Payload) : AssessmentResult :=
  let an := Route.analysis result in
  {| claimId := "CLM-" +:+ liveStamp w;
     hasDamage := Route.an_hasDamage an;
     overallSeverity := default ONone (Route.an_overallSeverity an);
     damages := default [] (Route.an_damages an);
     totalEstimate := orZero (Route.p_totalEstimate result);
     totalLaborHours := orZero (Route.an_laborHours an);
     partsRequired := default [] (Route.an_partsRequired an);
     aiConfidence := orZero (Route.p_aiConfidence result);
     recommendations := default [] (Route.an_recommendations an);
     processingTime := elapsed w;
     summary := Route.an_summary an;
     humanAssisted := (fun ms : list Route.DamageMarker => (0 <? length ms)%nat) <$> humanMarkers;
     manualOverrides := None;
     overrideNotes := None;
     hasInconsistencies := Some (truthy (Route.an_hasInconsistencies an));
     inconsistencies := Some (default [] (Route.an_inconsistencies an)) |}.

(** What the [try] block ends with: a reply to use, or a caught value. *)
Definition attempt (props : Props) (humanMarkers : option (list Route.DamageMarker))
    (w : Run) : (Route.Payload + Thrown) * list Effect :=
  match conversion w with
  | ConversionRejects e => (inr e, [])
  | Converted imageData =>
      let req := requestBody props imageData humanMarkers in
      (match fetch w req with
       | FetchRejects e => inr e
       | NotJson _ syntaxError => inr (ErrorObject syntaxError)
       | Replies (Route.ErrorJson _ err) =>
           inr (ErrorObject (orElse (Some err) "Analysis failed"))
       | Replies (Route.Json result) => inl result
       end, [CallApi req])
  end.

(** The assessment installed by the [catch] block. *)
Definition fallbackResult (props : Props) (w : Run) (e : Thrown) : AssessmentResult :=
  let mockResult :=
    MockEngine.generateMockAssessment (imageCount props) None None None None (rnd w) in
  {| claimId := claimId mockResult;
     overallSeverity := overallSeverity mockResult;
     hasDamage := hasDamage mockResult;
     damages := damages mockResult;
     totalEstimate := totalEstimate mockResult;
     totalLaborHours := totalLaborHours mockResult;
     partsRequired := partsRequired mockResult;
     aiConfidence := aiConfidence mockResult;
     recommendations := recommendations mockResult;
     processingTime := processingTime mockResult;
     summary :=
       Some ("[API Error] "
             +:+ (match e with ErrorObject message => message | OtherValue => "Unknown error" end)
             +:+ " - using simulated data");
     humanAssisted := humanAssisted mockResult;
     manualOverrides := manualOverrides mockResult;
     overrideNotes := overrideNotes mockResult;
     hasInconsistencies := hasInconsistencies mockResult;
     inconsistencies := inconsistencies mockResult |}.

Definition analyzeLive (props : Props)
    (humanMarkers : option (list Route.DamageMarker)) (w : Run) (st : State)
    : State * list Effect :=
  match attempt props humanMarkers w with
  | (inl result, effects) =>
      let assessmentResult := liveResult humanMarkers w result in
      (settle st false "Processing AI response..." (quickApproveComplete st)
              (Some assessmentResult) (error st)
              (requestsHumanInput assessmentResult humanMarkers),
       effects)
  | (inr e, effects) =>
      (settle st false "Falling back to simulated assessment..."
              (quickApproveComplete st)
              (Some (fallbackResult props w e))
              (Some (match e with
                     | ErrorObject message => message
                     | OtherValue => "Analysis failed"
                     end))
              false,
       effects)
  end.

(** [analyzeImages(humanMarkers)], from the call to the last state update. *)
Definition analyzeImages (props : Props)
    (humanMarkers : option (list Route.DamageMarker)) (w : Run) (st : State)
    : State * list Effect :=
  match mode props with
  | simulated => analyzeSimulated props humanMarkers w st
  | live => analyzeLive props humanMarkers w st
  end.

Definition started (st : State) : State :=
  {| isAnalyzing := isAnalyzing st;
     statusMessage := statusMessage st;
     quickApproveComplete := quickApproveComplete st;
     assessment := assessment st;
     error := error st;
     needsHumanInput := needsHumanInput st;
     damageMarkers := damageMarkers st;
     overrides := overrides st;
     isAutoApproving := isAutoApproving st;
     test := test st;
     hasStartedAnalysis := true |}.

Definition handleStartAnalysis (props : Props) (w : Run) (st : State) :=
  analyzeImages props None w (started st).

Definition handleHumanFeedbackSubmit (props : Props) (w : Run) (st : State) :=
  analyzeImages props (Some (damageMarkers st)) w st.

Definition handleSkipHumanFeedback (st : State) : State :=
  settle st (isAnalyzing st) (statusMessage st) (quickApproveComplete st)
         (assessment st) (error st) false.

(** *** What the component renders *)

Inductive View :=
| StartView
| AnalyzingView
| HumanFeedbackView
| Blank
| NoDamageView (a : AssessmentResult)
| DamageView (total : Q) (canAutoApprove quickApproveButton : bool).
(** The third field of [DamageView] says that the quick-approve block is
    rendered ([canAutoApprove && !hasModifications]); the block holds the
    button until [quickApproveComplete] is set and the confirmation text
    afterwards. *)

Definition canAutoApprove (a : AssessmentResult) (o : Overrides) : bool :=
  let isHighConfidence := Qgeb (aiConfidence a) 85 in
  let isLowValue := Qle_bool (getAdjustedTotal (Some a) o) SENIOR_APPROVAL_THRESHOLD in
  isHighConfidence && isLowValue && negb (truthy (hasInconsistencies a)).

Definition render (st : State) : View :=
  if negb (hasStartedAnalysis st) && negb (isAnalyzing st)
     && negb (bool_decide (is_Some (assessment st)))
  then StartView
  else if isAnalyzing st then AnalyzingView
  else
    match assessment st with
    | None => Blank
    | Some a =>
        if needsHumanInput st then HumanFeedbackView
        else if negb (hasDamage a) || (length (damages a) =? 0)%nat
        then NoDamageView a
        else DamageView (getAdjustedTotal (Some a) (overrides st))
                        (canAutoApprove a (overrides st))
                        (canAutoApprove a (overrides st)
                         && negb (hasModifications (overrides st)))
    end.

End Assessment.

(** ** The [AgentReview] component *)

Module Review.

Inductive ApprovalLevel := agent | senior.

Record DamageAdjustment := {
  damageIndex : nat;
  originalCost : Q;
  adjustedCost : Q;
  reason : string;
}.

Record FinalAssessment := {
  assessment : AssessmentResult;
  agentNotes : string;
  adjustedTotal : Q;
  adjustments : list DamageAdjustment;
  approvedBy : string;
  approvalLevel : ApprovalLevel;
  approvedAt : string;
}.

(** The cells [adjustedDamages] and [agentNotes] of the component. *)
Record State := {
  adjustedDamages : list DamageItem;
  notes : string;
}.

(** [useState(assessment.damages)], [useState('')] *)
Definition init (a : AssessmentResult) : State :=
  {| adjustedDamages := damages a; notes := "" |}.

Definition withCost (newCost : Q) (d : DamageItem) : DamageItem :=
  {| area := area d; type := type d; severity := severity d;
     estimatedCost := newCost; confidence := confidence d;
     partsCost := partsCost d; laborHours := laborHours d;
     laborRate := laborRate d |}.

(** [handleCostAdjust(index, parseInt(e.target.value) || 0)]; the table has
    one cost input per element of [adjustedDamages], so [index] is in range. *)
Definition handleCostAdjust (index : nat) (parsed : option Z) (st : State) : State :=
  {| adjustedDamages :=
       alter (withCost (inject_Z (default 0%Z parsed))) index (adjustedDamages st);
     notes := notes st |}.

Definition setAgentNotes (value : string) (st : State) : State :=
  {| adjustedDamages := adjustedDamages st; notes := value |}.

(** [const adjustedTotal = adjustedDamages.reduce(...)] *)
Definition currentTotal (st : State) : Q := sum_by estimatedCost (adjustedDamages st).

Definition requiresSeniorApproval (a : AssessmentResult) (st : State) : bool :=
  Qgtb (currentTotal st) 5000 || OverallSeverity_eqb (overallSeverity a) OSevere.

(** The [adjustments] collected by [adjustedDamages.forEach]; [None] stands
    for the [TypeError] of reading [assessment.damages[index].estimatedCost]
    at an index that [assessment.damages] does not have. *)
Fixpoint adjustmentsFrom (original : list DamageItem) (index : nat)
    (adjusted : list DamageItem) : option (list DamageAdjustment) :=
  match adjusted with
  | [] => Some []
  | damage :: rest =>
      match original !! index with
      | None => None
      | Some was =>
          match adjustmentsFrom original (S index) rest with
          | None => None
          | Some more =>
              Some (if Qeq_bool (estimatedCost damage) (estimatedCost was)
                    then more
                    else {| damageIndex := index;
                            originalCost := estimatedCost was;
                            adjustedCost := estimatedCost damage;
                            reason := "Manual adjustment by claims agent" |} :: more)
          end
      end
  end.

(** [handleApprove]: the value passed to [onApprove]. *)
Definition handleApprove (a : AssessmentResult) (now : string) (st : State)
    : option FinalAssessment :=
  match adjustmentsFrom (damages a) 0 (adjustedDamages st) with
  | None => None
  | Some adjustments =>
      Some {| assessment :=
                {| claimId := claimId a;
                   overallSeverity := overallSeverity a;
                   hasDamage := hasDamage a;
                   damages := adjustedDamages st;
                   totalEstimate := currentTotal st;
                   totalLaborHours := totalLaborHours a;
                   partsRequired := partsRequired a;
                   aiConfidence := aiConfidence a;
                   recommendations := recommendations a;
                   processingTime := processingTime a;
                   summary := summary a;
                   humanAssisted := humanAssisted a;
                   manualOverrides := manualOverrides a;
                   overrideNotes := overrideNotes a;
                   hasInconsistencies := hasInconsistencies a;
                   inconsistencies := inconsistencies a |};
              agentNotes := notes st;
              adjustedTotal := currentTotal st;
              adjustments := adjustments;
              approvedBy := "Agent Smith";
              approvalLevel := (if requiresSeniorApproval a st then senior else agent);
              approvedAt := now |}
  end.

(** A review session: the cost edits made before approving. *)
Definition edit (st : State) (e : nat * option Z) : State :=
  handleCostAdjust e.1 e.2 st.

Definition session (a : AssessmentResult) (edits : list (nat * option Z)) : State :=
  foldl edit (init a) edits.

End Review.

(** ** The feedback log: lib/feedbackLoop.ts *)

Module FeedbackLoop.

Inductive InteractionType := auto_approved | quick_approved | agent_reviewed | rejected.
Inductive OverrideDirection := increased | decreased | none.

Record AiDamage := {
  area : string;
  type : string;
  severity : string;
  estimatedCost : Q;
  confidence : Q;
}.

Record AiAssessment := {
  damages : list AiDamage;
  totalEstimate : Q;
  aiConfidence : Q;
  overallSeverity : string;
}.

Record CostAdjustment := {
  damageIndex : nat;
  originalCost : Q;
  adjustedCost : Q;
  reason : string;
}.

Record AgentModifications := {
  costAdjustments : list CostAdjustment;
  removedItems : list nat;
  addedNotes : string;
  finalTotal : Q;
}.

Record Metrics := {
  estimateAccuracyDelta : Q;
  wasOverridden : bool;
  overrideDirection : OverrideDirection;
  confidenceWasAccurate : bool;
}.

(** [Omit<FeedbackEntry, 'id' | 'timestamp' | 'metrics'>] *)
Record Entry := {
  claimId : string;
  aiAssessment : AiAssessment;
  agentModifications : AgentModifications;
  interactionType : InteractionType;
  reviewTimeSeconds : Q;
  agentId : string;
}.

Record FeedbackEntry := {
  id : string;
  timestamp : string;
  entry : Entry;
  metrics : Metrics;
}.

#[global] Instance InteractionType_eq_dec : EqDecision InteractionType.
Proof. solve_decision. Defined.

(** The key under which an interaction type is counted in [byType]. *)
Definition typeKey (t : InteractionType) : string :=
  match t with
  | auto_approved => "auto_approved"
  | quick_approved => "quick_approved"
  | agent_reviewed => "agent_reviewed"
  | rejected => "rejected"
  end.

Definition isFastApproved (t : InteractionType) : bool :=
  match t with auto_approved | quick_approved => true | _ => false end.

Definition calculateMetrics (e : Entry) : Metrics :=
  let originalTotal := totalEstimate (aiAssessment e) in
  let finalTotal := finalTotal (agentModifications e) in
  let delta :=
    if Qgtb originalTotal 0
    then ((finalTotal - originalTotal) / originalTotal) * 100
    else 0 in
  let wasOverridden :=
    (0 <? length (costAdjustments (agentModifications e)))%nat
    || (0 <? length (removedItems (agentModifications e)))%nat in
  let overrideDirection :=
    if negb wasOverridden then none
    else if Qgtb finalTotal originalTotal then increased else decreased in
  let significantChange := Qgtb (Qabs delta) 15 in
  let confidenceWasAccurate :=
    if Qgeb (aiConfidence (aiAssessment e)) 85
    then negb significantChange
    else significantChange in
  {| estimateAccuracyDelta := delta;
     wasOverridden := wasOverridden;
     overrideDirection := overrideDirection;
     confidenceWasAccurate := confidenceWasAccurate |}.

(** [feedbackStore]: the module-level array, oldest entry first. *)
Abbreviation Store := (list FeedbackEntry).

(** [recordFeedback(entry)]: the entry returned and the store after the
    push.  [stamp] and [now] come from the clock. *)
Definition recordFeedback (stamp now : string) (e : Entry) (feedbackStore : Store)
    : FeedbackEntry * Store :=
  let fullEntry :=
    {| id := "FB-" +:+ stamp;
       timestamp := now;
       entry := e;
       metrics := calculateMetrics e |} in
  (fullEntry, feedbackStore ++ [fullEntry]).

Record Stats := {
  totalAssessments : nat;
  autoApprovedRate : Q;
  overrideRate : Q;
  averageAccuracyDelta : Q;
  confidenceCalibration : Q;
  byInteractionType : gmap string nat;
  recentFeedback : list FeedbackEntry;
}.

Definition ofNat (n : nat) : Q := inject_Z (Z.of_nat n).

(** [byType[k] = (byType[k] || 0) + 1] for every entry in order. *)
Definition tally (byType : gmap string nat) (f : FeedbackEntry) : gmap string nat :=
  let k := typeKey (interactionType (entry f)) in
  <[k := (default 0 (byType !! k) + 1)%nat]> byType.

Definition getFeedbackStats (feedbackStore : Store) : Stats :=
  if (length feedbackStore =? 0)%nat
  then {| totalAssessments := 0;
          autoApprovedRate := 0;
          overrideRate := 0;
          averageAccuracyDelta := 0;
          confidenceCalibration := 0;
          byInteractionType := ∅;
          recentFeedback := [] |}
  else
    let autoApproved :=
      length (filter (fun f => isFastApproved (interactionType (entry f)) = true)
                     feedbackStore) in
    let overridden :=
      length (filter (fun f => wasOverridden (metrics f) = true) feedbackStore) in
    let avgDelta :=
      sum_by (fun f => Qabs (estimateAccuracyDelta (metrics f))) feedbackStore
      / ofNat (length feedbackStore) in
    let calibrationAccurate :=
      length (filter (fun f => confidenceWasAccurate (metrics f) = true)
                     feedbackStore) in
    let byType := foldl tally ∅ feedbackStore in
    {| totalAssessments := length feedbackStore;
       autoApprovedRate := (ofNat autoApproved / ofNat (length feedbackStore)) * 100;
       overrideRate := (ofNat overridden / ofNat (length feedbackStore)) * 100;
       averageAccuracyDelta := avgDelta;
       confidenceCalibration :=
         (ofNat calibrationAccurate / ofNat (length feedbackStore)) * 100;
       byInteractionType := byType;
       recentFeedback := reverse (drop (length feedbackStore - 10) feedbackStore) |}.


Definition clearFeedback (feedbackStore : Store) : Store := [].

(** Specification side: the number of logged entries of one interaction type. *)
Definition countType (t : InteractionType) (feedbackStore : Store) : nat :=
  length (filter (fun f => interactionType (entry f) = t) feedbackStore).

(** The result documented for an empty log. *)
Definition emptyStats : Stats :=
  {| totalAssessments := 0;
     autoApprovedRate := 0;
     overrideRate := 0;
     averageAccuracyDelta := 0;
     confidenceCalibration := 0;
     byInteractionType := ∅;
     recentFeedback := [] |}.

(** The log after a sequence of [recordFeedback] calls on an empty store. *)
Definition recordAll (calls : list (string * string * Entry)) : Store :=
  foldl (fun store c => (recordFeedback c.1.1 c.1.2 c.2 store).2) [] calls.

End FeedbackLoop.

(** ** The page: from the assessment screen to the review screen *)

Module Workflow.

(** app/page.tsx: [handleAssessmentComplete] stores the assessment passed
    to [onContinue] and shows [AgentReview] for it. *)
Definition reviewScreen (effects : list Assessment.Effect)
    : option (AssessmentResult * Review.State) :=
  match effects with
  | [Assessment.OnContinue a] => Some (a, Review.init a)
  | _ => None
  end.

(** The assessment screen showing [a] with the override cells [o]. *)
Definition assessmentScreen (a : AssessmentResult) (o : Assessment.Overrides)
    : Assessment.State :=
  {| Assessment.isAnalyzing := false;
     Assessment.statusMessage := "Running simulated analysis...";
     Assessment.quickApproveComplete := false;
     Assessment.assessment := Some a;
     Assessment.error := None;
     Assessment.needsHumanInput := false;
     Assessment.damageMarkers := [];
     Assessment.overrides := o;
     Assessment.isAutoApproving := false;
     Assessment.test := Assessment.test Assessment.initialState;
     Assessment.hasStartedAnalysis := true |}.

End Workflow.

(** ** The [ImageUploader] component *)

Module Uploader.

Record File := {
  name : string;                          (* file.name *)
  fileType : string;                      (* file.type *)
}.

Record UploadedImage := {
  file : File;
  preview : string;
  label : string;
}.

(** [file.type.startsWith('image/')] *)
Definition isImage (f : File) : bool := String.prefix "image/" (fileType f).

Definition labelOf (n : nat) : string := "Damage photo " +:+ pretty n.

(** The body of [Array.from(files).forEach]: one file, with the images
    of the state cell and the [newImages] pushed so far.
    [createObjectURL] is the browser's [URL.createObjectURL]. *)
Definition pushFile (createObjectURL : File -> string) (images : list UploadedImage)
    (newImages : list UploadedImage) (f : File) : list UploadedImage :=
  if isImage f
  then newImages ++ [ {| file := f;
                         preview := createObjectURL f;
                         label := labelOf (length images + length newImages + 1) |} ]
  else newImages.

Definition handleFiles (createObjectURL : File -> string) (files : list File)
    (images : list UploadedImage) : list UploadedImage :=
  images ++ foldl (pushFile createObjectURL images) [] files.

(** [newImages.splice(index, 1)]; the button is rendered once per image,
    so [index] is in range. *)
Definition removeImage (index : nat) (images : list UploadedImage)
    : list UploadedImage :=
  take index images ++ drop (S index) images.

(** [handleSubmit]: the calls of [onImagesUploaded]. *)
Definition handleSubmit (images : list UploadedImage) : list (list UploadedImage) :=
  if (0 <? length images)%nat then [images] else [].

Inductive Event :=
| AddFiles (files : list File)            (* drop or file input *)
| Remove (index : nat).

Definition step (createObjectURL : File -> string) (images : list UploadedImage)
    (e : Event) : list UploadedImage :=
  match e with
  | AddFiles files => handleFiles createObjectURL files images
  | Remove index =>
      if (index <? length images)%nat then removeImage index images else images
  end.

(** The state cell [images] after the events, from [useState([])]. *)
Definition run (createObjectURL : File -> string) (events : list Event)
    : list UploadedImage :=
  foldl (step createObjectURL) [] events.

End Uploader.

(** ** Marking damage: the [HumanFeedbackRequest] component *)

Module Marking.

(** [imageContainerRef.current.getBoundingClientRect()] *)
Record Rect := { left : Q; top : Q; width : Q; height : Q }.

(** [handleImageClick]; [rect = None] when the ref is not attached. *)
Definition handleImageClick (rect : option Rect) (clientX clientY : Q)
    (selectedImageIndex : nat) (markers : list Route.DamageMarker)
    : list Route.DamageMarker :=
  match rect with
  | None => markers
  | Some rect =>
      markers ++ [ {| Route.x := ((clientX - left rect) / width rect) * 100;
                      Route.y := ((clientY - top rect) / height rect) * 100;
                      Route.imageIndex := selectedImageIndex;
                      Route.markerDescription := None |} ]
  end.

(** [markers.filter((_, i) => i !== index)], counting from [i]. *)
Fixpoint dropIndexFrom (i index : nat) (markers : list Route.DamageMarker)
    : list Route.DamageMarker :=
  match markers with
  | [] => []
  | m :: rest =>
      if (i =? index)%nat then dropIndexFrom (S i) index rest
      else m :: dropIndexFrom (S i) index rest
  end.

Definition removeMarker (index : nat) (markers : list Route.DamageMarker)
    : list Route.DamageMarker :=
  dropIndexFrom 0 index markers.

(** [markers.filter((m) => m.imageIndex === selectedImageIndex)] *)
Definition currentImageMarkers (selectedImageIndex : nat)
    (markers : list Route.DamageMarker) : list Route.DamageMarker :=
  filter (fun m => Route.imageIndex m = selectedImageIndex) markers.

(** The submit button is [disabled={markers.length === 0}]. *)
Definition submitEnabled (markers : list Route.DamageMarker) : bool :=
  negb (length markers =? 0)%nat.

End Marking.

(** ** The [ClaimConfirmation] component *)

Module Confirmation.

(** [x % m] on numbers: the remainder takes the sign of [x]. *)
Definition js_rem (x m : Q) : Q :=
  let q := x / m in
  x - m * inject_Z (if Qle_bool 0 q then Qfloor q else Qceiling q).

(** [assessment.processingTime || processingTime || 0]; zero is falsy. *)
Definition aiProcessingTime (fa : Review.FinalAssessment)
    (processingTimeProp : option Q) : Q :=
  if Qeq_bool (processingTime (Review.assessment fa)) 0
  then match processingTimeProp with
       | Some t => if Qeq_bool t 0 then 0 else t
       | None => 0
       end
  else processingTime (Review.assessment fa).

Definition manualTimeEstimate : Q := 15 * 60.

Section Doubles.
(** [fl x] is the double nearest to the real number [x]: what an
    arithmetic operation on numbers returns for the exact result [x].
    [Math.round] is exact on a double. *)
Variable fl : Q -> Q.

Definition timeSavingsPercent (aiTime : Q) : Q :=
  if Qgtb manualTimeEstimate 0
  then js_round (fl (fl (1 - fl (aiTime / manualTimeEstimate)) * 100))
  else 0.
End Doubles.

(** The two shapes of the text returned by [formatTime]:
    [`${mins}m ${secs}s`] and [`${secs.toFixed(1)}s`]. *)
Inductive TimeText :=
| MinSec (mins secs : Q)
| Sec (secs : Q).

Definition formatTime (seconds : Q) : TimeText :=
  let mins := js_floor (seconds / 60) in
  let secs := js_round (js_rem seconds 60) in
  if Qgtb mins 0 then MinSec mins secs else Sec secs.

(** The cost cell of a row of the exported summary: the item's cost, or
    the original cost struck through beside the adjusted one. *)
Inductive CostCell :=
| Plain (cost : Q)
| Struck (original adjusted : Q).

(** [adjustments.find(a => a.damageIndex === index)] and the cell built
    from it. *)
Definition costCell (adjustments : list Review.DamageAdjustment) (index : nat)
    (damage : DamageItem) : CostCell :=
  match List.find (fun adj => (Review.damageIndex adj =? index)%nat) adjustments with
  | Some adj => Struck (Review.originalCost adj) (Review.adjustedCost adj)
  | None => Plain (estimatedCost damage)
  end.

(** [assessment.damages.map((damage, index) => ...)] of [generatePDFContent]. *)
Definition damageRows (fa : Review.FinalAssessment) : list CostCell :=
  imap (costCell (Review.adjustments fa)) (damages (Review.assessment fa)).

End Confirmation.

(** ** The page: app/page.tsx *)

Module Page.

Inductive WorkflowStep := claim_form | upload | assessment_step | review | confirmation.

(** [ClaimData] of components/ClaimForm. *)
Record ClaimData := {
  policyNumber : string;
  vehicleMake : string;
  vehicleModel : string;
  vehicleYear : string;
  vehicleTrim : option string;
  vehicleValue : option Q;
  vin : option string;
  accidentDate : string;
  accidentDescription : string;
}.

Record State := {
  currentStep : WorkflowStep;
  claimData : option ClaimData;
  images : list Uploader.UploadedImage;
  assessment : option AssessmentResult;
  finalAssessment : option Review.FinalAssessment;
  aiMode : Assessment.Mode;
}.

Definition initialState : State :=
  {| currentStep := claim_form; claimData := None; images := [];
     assessment := None; finalAssessment := None; aiMode := Assessment.live |}.

Definition setCurrentStep (s : WorkflowStep) (st : State) : State :=
  {| currentStep := s; claimData := claimData st; images := images st;
     assessment := assessment st; finalAssessment := finalAssessment st;
     aiMode := aiMode st |}.

Definition handleClaimSubmit (data : ClaimData) (st : State) : State :=
  {| currentStep := upload; claimData := Some data; images := images st;
     assessment := assessment st; finalAssessment := finalAssessment st;
     aiMode := aiMode st |}.

Definition handleImagesUploaded (uploadedImages : list Uploader.UploadedImage)
    (st : State) : State :=
  {| currentStep := assessment_step; claimData := claimData st;
     images := uploadedImages;
     assessment := assessment st; finalAssessment := finalAssessment st;
     aiMode := aiMode st |}.

Definition handleAssessmentComplete (result : AssessmentResult) (st : State) : State :=
  {| currentStep := review; claimData := claimData st; images := images st;
     assessment := Some result; finalAssessment := finalAssessment st;
     aiMode := aiMode st |}.

Definition handleApproval (final : Review.FinalAssessment) (st : State) : State :=
  {| currentStep := confirmation; claimData := claimData st; images := images st;
     assessment := assessment st; finalAssessment := Some final;
     aiMode := aiMode st |}.

Definition handleNewClaim (st : State) : State :=
  {| currentStep := claim_form; claimData := None; images := [];
     assessment := None; finalAssessment := None; aiMode := aiMode st |}.

(** The header switch: [setAIMode(aiMode === 'live' ? 'simulated' : 'live')]. *)
Definition toggleMode (st : State) : State :=
  {| currentStep := currentStep st; claimData := claimData st; images := images st;
     assessment := assessment st; finalAssessment := finalAssessment st;
     aiMode := match aiMode st with
               | Assessment.live => Assessment.simulated
               | Assessment.simulated => Assessment.live
               end |}.

(** What the main area shows: one of the five components with the props
    read by the models above, or nothing. *)
Inductive Content :=
| ShowClaimForm
| ShowUploader
| ShowAssessment (props : Assessment.Props)
| ShowReview (a : AssessmentResult)
| ShowConfirmation (final : Review.FinalAssessment)
| Nothing.

Definition render (st : State) : Content :=
  match currentStep st with
  | claim_form => ShowClaimForm
  | upload => ShowUploader
  | assessment_step =>
      match claimData st with
      | Some data =>
          ShowAssessment
            {| Assessment.mode := aiMode st;
               Assessment.imageCount := length (images st);
               Assessment.vehicle :=
                 {| Route.make := vehicleMake data;
                    Route.model := vehicleModel data;
                    Route.year := vehicleYear data |};
               Assessment.hasQuickApprove := false |}
      | None => Nothing
      end
  | review =>
      match claimData st, assessment st with
      | Some _, Some a => ShowReview a
      | _, _ => Nothing
      end
  | confirmation =>
      match claimData st, finalAssessment st with
      | Some _, Some final => ShowConfirmation final
      | _, _ => Nothing
      end
  end.

(** The callbacks the rendered component can call, and the header switch. *)
Inductive Event :=
| ClaimSubmit (data : ClaimData)
| ImagesUploaded (uploadedImages : list Uploader.UploadedImage)
| AssessmentComplete (result : AssessmentResult)
| Approval (final : Review.FinalAssessment)
| Back
| NewClaim
| ToggleMode.

(** One event.  A callback of a component that is not rendered cannot be
    called and leaves the state. *)
Definition step (st : State) (e : Event) : State :=
  match render st, e with
  | _, ToggleMode => toggleMode st
  | ShowClaimForm, ClaimSubmit data => handleClaimSubmit data st
  | ShowUploader, ImagesUploaded uploadedImages =>
      handleImagesUploaded uploadedImages st
  | ShowUploader, Back => setCurrentStep claim_form st
  | ShowAssessment _, AssessmentComplete result => handleAssessmentComplete result st
  | ShowAssessment _, Back => setCurrentStep upload st
  | ShowReview _, Approval final => handleApproval final st
  | ShowReview _, Back => setCurrentStep assessment_step st
  | ShowConfirmation _, NewClaim => handleNewClaim st
  | _, _ => st
  end.

Definition run (events : list Event) : State := foldl step initialState events.

(** The events that the components can produce: [ImageUploader] calls
    [onImagesUploaded] with a list it would submit, the assessment screen
    calls [onContinue], the review calls [onApprove] on its approval. *)
Definition produced (e : Event) : Prop :=
  match e with
  | ImagesUploaded uploadedImages => Uploader.handleSubmit uploadedImages = [uploadedImages]
  | _ => True
  end.

End Page.

(** ** The [ClaimForm] component: VIN lookup *)

Module ClaimForm.

Record VehicleInfo := {
  year : nat;
  make : string;
  model : string;
  trim : string;
  value : Q;
}.

Record DemoVIN := { demoVin : string; demoLabel : string; info : VehicleInfo }.

Definition vehicle (y : nat) (mk md tr : string) (v : Q) : VehicleInfo :=
  {| year := y; make := mk; model := md; trim := tr; value := v |}.

Definition demoVINs : list DemoVIN :=
  [ {| demoVin := "5YJ3E1ET5RF847523"; demoLabel := "2024 Tesla Model 3 Performance";
       info := vehicle 2024 "Tesla" "Model 3" "Performance" 52990 |};
    {| demoVin := "1HGBH41JXMN109186"; demoLabel := "2021 Honda Accord EX-L";
       info := vehicle 2021 "Honda" "Accord" "EX-L" 28000 |};
    {| demoVin := "5YJSA1E14HF123456"; demoLabel := "2017 Tesla Model S 75D";
       info := vehicle 2017 "Tesla" "Model S" "75D" 42000 |};
    {| demoVin := "1FTFW1ET5DFC12345"; demoLabel := "2013 Ford F-150 XLT";
       info := vehicle 2013 "Ford" "F-150" "XLT" 18500 |};
    {| demoVin := "WVWZZZ3CZWE123456"; demoLabel := "2023 Volkswagen ID.4 Pro S";
       info := vehicle 2023 "Volkswagen" "ID.4" "Pro S" 48000 |};
    {| demoVin := "1G1YY22G965109876"; demoLabel := "2022 Chevrolet Corvette Stingray";
       info := vehicle 2022 "Chevrolet" "Corvette" "Stingray" 65000 |};
    {| demoVin := "WBA8E9C55GK123456"; demoLabel := "2021 BMW 3 Series 330i";
       info := vehicle 2021 "BMW" "3 Series" "330i" 41000 |};
    {| demoVin := "5TDKZ3DC8LS123456"; demoLabel := "2020 Toyota Highlander XLE";
       info := vehicle 2020 "Toyota" "Highlander" "XLE" 35000 |} ].

(** [s.toUpperCase()] on the letters a to z; the other characters of a
    typed VIN (digits, capitals, spaces, punctuation) are left as they are. *)
Definition upperChar (c : ascii) : ascii :=
  if (("a" <=? c) && (c <=? "z"))%char
  then ascii_of_nat (nat_of_ascii c - 32) else c.

Fixpoint toUpperCase (s : string) : string :=
  match s with
  | EmptyString => EmptyString
  | String c rest => String (upperChar c) (toUpperCase rest)
  end.

(** The characters of a single-line text input that this model of
    [trim] and [toUpperCase] is exact for: printable ASCII. *)
Definition typed (s : string) : Prop :=
  Forall (fun c => (32 <= nat_of_ascii c < 127)%nat) (list_ascii_of_string s).

(** [demoVINs.forEach(d => { mockVehicles[d.vin] = d.info; })] *)
Definition mockVehicles : gmap string VehicleInfo :=
  foldl (fun m d => <[demoVin d := info d]> m) ∅ demoVINs.

Definition unknownVehicle : VehicleInfo := vehicle 2022 "Unknown" "Vehicle" "Base" 25000.

Definition decodeVIN (vin : string) : option VehicleInfo :=
  match mockVehicles !! toUpperCase vin with
  | Some found => Some found
  | None => if (String.length vin =? 17)%nat then Some unknownVehicle else None
  end.

(** The cells [formData], [vinLookupResult] and [vinError]. *)
Record State := {
  formData : Page.ClaimData;
  vinLookupResult : option VehicleInfo;
  vinError : option string;
}.

(** [{ ...formData, vin, vehicleMake: result.make, ... }] *)
Definition filled (data : Page.ClaimData) (vin : string) (result : VehicleInfo)
    : Page.ClaimData :=
  {| Page.policyNumber := Page.policyNumber data;
     Page.vehicleMake := make result;
     Page.vehicleModel := model result;
     Page.vehicleYear := pretty (year result);
     Page.vehicleTrim := Some (trim result);
     Page.vehicleValue := Some (value result);
     Page.vin := Some vin;
     Page.accidentDate := Page.accidentDate data;
     Page.accidentDescription := Page.accidentDescription data |}.

(** [formData.vin?.trim().toUpperCase() || ''] *)
Definition normalizedVIN (data : Page.ClaimData) : string :=
  match Page.vin data with
  | Some v => toUpperCase (Assessment.js_trim v)
  | None => ""
  end.

Definition handleVINLookup (st : State) : State :=
  let vin := normalizedVIN (formData st) in
  if (String.length vin <? 17)%nat
  then {| formData := formData st;
          vinLookupResult := vinLookupResult st;
          vinError := Some "VIN must be 17 characters" |}
  else match decodeVIN vin with
       | Some result =>
           {| formData := filled (formData st) vin result;
              vinLookupResult := Some result;
              vinError := None |}
       | None =>
           {| formData := formData st;
              vinLookupResult := None;
              vinError :=
                Some "Unable to decode VIN. Please enter vehicle details manually." |}
       end.

(** The demo drop-down: [onChange] with the value of one of its options,
    the empty first option included. *)
Definition selectDemo (chosen : string) (st : State) : State :=
  match chosen with
  | EmptyString => st
  | _ =>
      match List.find (fun d => String.eqb (demoVin d) chosen) demoVINs with
      | Some selected =>
          {| formData := filled (formData st) (demoVin selected) (info selected);
             vinLookupResult := Some (info selected);
             vinError := None |}
      | None => st
      end
  end.

(** The VIN input: [onChange], the browser keeping at most [maxLength]
    characters. *)
Definition typeVIN (entered : string) (st : State) : State :=
  {| formData :=
       {| Page.policyNumber := Page.policyNumber (formData st);
          Page.vehicleMake := Page.vehicleMake (formData st);
          Page.vehicleModel := Page.vehicleModel (formData st);
          Page.vehicleYear := Page.vehicleYear (formData st);
          Page.vehicleTrim := Page.vehicleTrim (formData st);
          Page.vehicleValue := Page.vehicleValue (formData st);
          Page.vin := Some (toUpperCase entered);
          Page.accidentDate := Page.accidentDate (formData st);
          Page.accidentDescription := Page.accidentDescription (formData st) |};
     vinLookupResult := vinLookupResult st;
     vinError := None |}.

(** The Lookup button is [disabled={(formData.vin?.length || 0) < 10}]. *)
Definition lookupEnabled (st : State) : bool :=
  negb (String.length (default "" (Page.vin (formData st))) <? 10)%nat.

End ClaimForm.

(** ** Sample data *)

Definition sampleItem (name kind : string) (s : Severity) (cost conf : Q) : DamageItem :=
  {| area := name; type := kind; severity := s; estimatedCost := cost;
     confidence := conf; partsCost := None; laborHours := None; laborRate := None |}.

Definition sampleBumper : DamageItem := sampleItem "Front Bumper" "Dent" Moderate 1000 80.
Definition sampleHood : DamageItem := sampleItem "Hood" "Scratch" Minor 500 80.

(** Two items, $1,500 in total, confidence 80, no flags. *)
Definition sampleAssessment : AssessmentResult :=
  {| claimId := "CLM-LX1";
     overallSeverity := OModerate;
     hasDamage := true;
     damages := [sampleBumper; sampleHood];
     totalEstimate := 1500;
     totalLaborHours := 0;
     partsRequired := [];
     aiConfidence := 80;
     recommendations := [];
     processingTime := 2.3;
     summary := None;
     humanAssisted := None;
     manualOverrides := None;
     overrideNotes := None;
     hasInconsistencies := None;
     inconsistencies := None |}.

Definition sampleVehicle : Route.VehicleInfo :=
  {| Route.make := "Honda"; Route.model := "Accord"; Route.year := "2021" |}.

Definition sampleImages : list Route.Image :=
  [ {| Route.base64 := "AAAA"; Route.mediaType := "image/jpeg" |};
    {| Route.base64 := "BBBB"; Route.mediaType := "image/png" |} ].

Definition sampleMarker : Route.DamageMarker :=
  {| Route.x := 40; Route.y := 55; Route.imageIndex := 0;
     Route.markerDescription := None |}.

Definition simulatedProps : Assessment.Props :=
  {| Assessment.mode := Assessment.simulated;
     Assessment.imageCount := 2;
     Assessment.vehicle := sampleVehicle;
     Assessment.hasQuickApprove := true |}.

Definition liveProps : Assessment.Props :=
  {| Assessment.mode := Assessment.live;
     Assessment.imageCount := 2;
     Assessment.vehicle := sampleVehicle;
     Assessment.hasQuickApprove := true |}.

(** The start screen after the test controls were set to [tc]. *)
Definition startWith (tc : Assessment.TestControls) : Assessment.State :=
  {| Assessment.isAnalyzing := false;
     Assessment.statusMessage := "Preparing images...";
     Assessment.quickApproveComplete := false;
     Assessment.assessment := None;
     Assessment.error := None;
     Assessment.needsHumanInput := false;
     Assessment.damageMarkers := [];
     Assessment.overrides := Assessment.noOverrides;
     Assessment.isAutoApproving := false;
     Assessment.test := tc;
     Assessment.hasStartedAnalysis := false |}.

(** A run in which the endpoint is never reached (simulated mode). *)
Definition offlineRun : Assessment.Run :=
  {| Assessment.elapsed := 2.3;
     Assessment.rnd := plainRandomness;
     Assessment.liveStamp := "LX2";
     Assessment.conversion := Assessment.Converted sampleImages;
     Assessment.fetch := fun _ => Assessment.FetchRejects Assessment.OtherValue |}.

(** [setDamageMarkers(ms)] on the marking screen. *)
Definition withMarkers (ms : list Route.DamageMarker) (st : Assessment.State)
    : Assessment.State :=
  {| Assessment.isAnalyzing := Assessment.isAnalyzing st;
     Assessment.statusMessage := Assessment.statusMessage st;
     Assessment.quickApproveComplete := Assessment.quickApproveComplete st;
     Assessment.assessment := Assessment.assessment st;
     Assessment.error := Assessment.error st;
     Assessment.needsHumanInput := Assessment.needsHumanInput st;
     Assessment.damageMarkers := ms;
     Assessment.overrides := Assessment.overrides st;
     Assessment.isAutoApproving := Assessment.isAutoApproving st;
     Assessment.test := Assessment.test st;
     Assessment.hasStartedAnalysis := Assessment.hasStartedAnalysis st |}.

(** The endpoint behind [fetch]: the handler with its key configured. *)
Definition endpoint (anthropic : list Route.Image -> string -> Route.ModelReply)
    (parse : string -> option Route.Analysis) (req : Route.Request)
    : Assessment.FetchResult :=
  Assessment.Replies
    (Route.POST true anthropic parse
       "Cannot read properties of undefined (reading 'reduce')" req).

Definition liveRun (fetch : Route.Request -> Assessment.FetchResult) : Assessment.Run :=
  {| Assessment.elapsed := 4.1;
     Assessment.rnd := plainRandomness;
     Assessment.liveStamp := "LX3";
     Assessment.conversion := Assessment.Converted sampleImages;
     Assessment.fetch := fetch |}.

(** A reply of the vision model: two damaged parts, each with confidence 60. *)
Definition unsureAnalysis : Route.Analysis :=
  {| Route.an_hasDamage := true;
     Route.an_damages :=
       Some [sampleItem "Front Bumper" "Dent" Moderate 700 60;
             sampleItem "Hood" "Scratch" Minor 300 60];
     Route.an_overallSeverity := Some OModerate;
     Route.an_laborHours := Some 4;
     Route.an_partsRequired := Some ["Front Bumper"];
     Route.an_recommendations := Some ["Request clearer photos"];
     Route.an_summary := Some "Possible dent on the front bumper";
     Route.an_hasInconsistencies := Some false;
     Route.an_inconsistencies := Some [] |}.

Definition unsureModel (imgs : list Route.Image) (prompt : string) : Route.ModelReply :=
  Route.ModelContent (Some "unsure").

Definition sampleParse (text : string) : option Route.Analysis :=
  if String.eqb text "unsure" then Some unsureAnalysis else None.

(** Further replies of the vision model, by the text they arrive as:
    ["bare"] has no labour hours; ["mislabelled"] calls a Severe item
    Minor overall; ["hidden-flag"] lists a critical flag and leaves
    [hasInconsistencies] false. *)
Definition bareAnalysis : Route.Analysis :=
  {| Route.an_hasDamage := true;
     Route.an_damages :=
       Some [sampleItem "Front Bumper" "Dent" Moderate 700 60;
             sampleItem "Hood" "Scratch" Minor 300 60];
     Route.an_overallSeverity := Some OModerate;
     Route.an_laborHours := None;
     Route.an_partsRequired := None;
     Route.an_recommendations := None;
     Route.an_summary := None;
     Route.an_hasInconsistencies := None;
     Route.an_inconsistencies := None |}.

Definition mislabelledAnalysis : Route.Analysis :=
  {| Route.an_hasDamage := true;
     Route.an_damages := Some [sampleItem "Frame" "Structural" Severe 6000 90];
     Route.an_overallSeverity := Some OMinor;
     Route.an_laborHours := Some 10;
     Route.an_partsRequired := Some ["Frame"];
     Route.an_recommendations := Some [];
     Route.an_summary := Some "Bent frame rail";
     Route.an_hasInconsistencies := Some false;
     Route.an_inconsistencies := Some [] |}.

Definition hiddenFlagAnalysis : Route.Analysis :=
  {| Route.an_hasDamage := true;
     Route.an_damages := Some [sampleItem "Hood" "Scratch" Minor 3000 90];
     Route.an_overallSeverity := Some OMinor;
     Route.an_laborHours := Some 0;
     Route.an_partsRequired := Some [];
     Route.an_recommendations := Some [];
     Route.an_summary := Some "Scratched hood";
     Route.an_hasInconsistencies := Some false;
     Route.an_inconsistencies :=
       Some [ {| flagType := multiple_vehicles;
                 description := "Photos appear to show 2 different vehicles";
                 flagSeverity := critical;
                 flagConfidence := 89 |} ] |}.

Definition sampleModel (text : string) (imgs : list Route.Image) (prompt : string)
    : Route.ModelReply :=
  Route.ModelContent (Some text).

Definition sampleReplies (text : string) : option Route.Analysis :=
  if String.eqb text "bare" then Some bareAnalysis
  else if String.eqb text "mislabelled" then Some mislabelledAnalysis
  else if String.eqb text "hidden-flag" then Some hiddenFlagAnalysis
  else None.

(** A feedback entry with the given totals, confidence, adjustments,
    removed items and interaction type. *)
Definition sampleEntry (original final conf : Q)
    (adjs : list FeedbackLoop.CostAdjustment) (removed : list nat)
    (kind : FeedbackLoop.InteractionType) : FeedbackLoop.Entry :=
  {| FeedbackLoop.claimId := "CLM-LX1";
     FeedbackLoop.aiAssessment :=
       {| FeedbackLoop.damages := [];
          FeedbackLoop.totalEstimate := original;
          FeedbackLoop.aiConfidence := conf;
          FeedbackLoop.overallSeverity := "Moderate" |};
     FeedbackLoop.agentModifications :=
       {| FeedbackLoop.costAdjustments := adjs;
          FeedbackLoop.removedItems := removed;
          FeedbackLoop.addedNotes := "";
          FeedbackLoop.finalTotal := final |};
     FeedbackLoop.interactionType := kind;
     FeedbackLoop.reviewTimeSeconds := 42;
     FeedbackLoop.agentId := "agent-1" |}.

Definition sampleAdjustment (was now : Q) : FeedbackLoop.CostAdjustment :=
  {| FeedbackLoop.damageIndex := 0;
     FeedbackLoop.originalCost := was;
     FeedbackLoop.adjustedCost := now;
     FeedbackLoop.reason := "Shop quote" |}.

(** A vision model whose reply is not JSON. *)
Definition garbledModel (imgs : list Route.Image) (prompt : string) : Route.ModelReply :=
  Route.ModelContent (Some "Sorry, I cannot help with that.").

(** Three logged interactions, oldest first. *)
Definition sampleLog : list FeedbackLoop.FeedbackEntry :=
  FeedbackLoop.recordAll
    [ ("A1", "09:00", sampleEntry 1000 1000 90 [] [] FeedbackLoop.quick_approved);
      ("A2", "09:10",
       sampleEntry 1000 1200 90 [sampleAdjustment 500 700] [] FeedbackLoop.agent_reviewed);
      ("A3", "09:20", sampleEntry 2000 2000 95 [] [] FeedbackLoop.quick_approved) ].

(** A rounding to a grid, the multiples of 2^-20, nearest with ties
    upwards: monotone, and exact on the whole numbers. *)
Definition roundToGrid (x : Q) : Q :=
  inject_Z (Qfloor (x * inject_Z (2 ^ 20) + (1 # 2))) / inject_Z (2 ^ 20).

(** ** Further specification-side definitions *)

(** The range in which the cost of every simulated item lies under a
    severity control: parts plus labour hours at the labour rate. *)
Definition costRange (s : Severity) : Q * Q :=
  match s with
  | Minor => (0 + 0.5 * LABOR_RATE, 100 + 2 * LABOR_RATE)
  | Moderate => (300 + 2 * LABOR_RATE, 800 + 4.5 * LABOR_RATE)
  | Severe => (2000 + 5 * LABOR_RATE, 3500 + 8 * LABOR_RATE)
  end.

(** "Has inconsistency flags", read off the flag list of an assessment. *)
Definition hasFlags (a : AssessmentResult) : bool :=
  match inconsistencies a with
  | Some (_ :: _) => true
  | _ => false
  end.

(** The [hasInconsistencies] boolean says what the flag list holds. *)
Definition flagsRecorded (a : AssessmentResult) : Prop :=
  truthy (hasInconsistencies a) = hasFlags a.

(** The cost of the item at [index] after the cost edits of a review
    session: the last edit of that row wins, an unparsable entry counts as
    zero, and a row never edited keeps its cost. *)
Definition editedCost (edits : list (nat * option Z)) (index : nat) (original : Q) : Q :=
  foldl (fun cost e => if decide (e.1 = index) then inject_Z (default 0%Z e.2) else cost)
        original edits.

(** The amount a row of the exported summary counts for. *)
Definition shownCost (c : Confirmation.CostCell) : Q :=
  match c with
  | Confirmation.Plain cost => cost
  | Confirmation.Struck _ adjusted => adjusted
  end.

(** * Properties *)

(** ** Numbers and lists *)

Lemma Qltb_lt x y : Qltb x y = true <-> x < y.
Proof.
  unfold Qltb. rewrite negb_true_iff, <- not_true_iff_false, Qle_bool_iff.
  split; [apply Qnot_le_lt | apply Qlt_not_le].
Qed.

Lemma Qltb_ge x y : Qltb x y = false <-> y <= x.
Proof.
  unfold Qltb. rewrite negb_false_iff. apply Qle_bool_iff.
Qed.

Lemma Qgtb_gt x y : Qgtb x y = true <-> y < x.
Proof. apply Qltb_lt. Qed.

Lemma Qgtb_le x y : Qgtb x y = false <-> x <= y.
Proof. apply Qltb_ge. Qed.

Lemma Qgeb_ge x y : Qgeb x y = true <-> y <= x.
Proof. apply Qle_bool_iff. Qed.

Lemma Qgeb_lt x y : Qgeb x y = false <-> x < y.
Proof.
  unfold Qgeb. rewrite <- not_true_iff_false, Qle_bool_iff.
  split; [apply Qnot_le_lt | apply Qlt_not_le].
Qed.

Lemma sum_by_acc {A} (f : A -> Q) (xs : list A) (a : Q) :
  foldl (fun sum x => sum + f x) a xs == a + sum_by f xs.
Proof.
  unfold sum_by. revert a.
  induction xs as [|x xs IH]; intros a; simpl.
  - ring.
  - rewrite (IH (a + f x)), (IH (0 + f x)). ring.
Qed.

Lemma sum_by_cons {A} (f : A -> Q) (x : A) (xs : list A) :
  sum_by f (x :: xs) == f x + sum_by f xs.
Proof.
  unfold sum_by at 1. simpl. rewrite sum_by_acc. ring.
Qed.

Lemma Forall_imap_all {A B} (P : B -> Prop) (f : nat -> A -> B) (l : list A) :
  (forall i x, P (f i x)) -> Forall P (imap f l).
Proof.
  intros HP. apply Forall_lookup. intros i y Hy.
  rewrite list_lookup_imap in Hy.
  destruct (l !! i); simplify_eq/=. apply HP.
Qed.

(** ** Severity aggregation *)

Lemma Severity_eqb_eq a b : Severity_eqb a b = true <-> a = b.
Proof. destruct a, b; simpl; split; congruence. Qed.

Lemma OverallSeverity_eqb_eq a b : OverallSeverity_eqb a b = true <-> a = b.
Proof. destruct a, b; simpl; split; congruence. Qed.

(** The two readings of the spec agree: the if-chain is the maximum. *)
Lemma spec_overallSeverity_max (ds : list DamageItem) :
  spec_overallSeverity ds = max_severity ds.
Proof.
  unfold spec_overallSeverity.
  induction ds as [|d ds IH]; [reflexivity|].
  cbn [existsb max_severity foldr].
  fold (max_severity ds). rewrite <- IH. clear IH.
  destruct (severity d); simpl;
    destruct (existsb (fun d => Severity_eqb (severity d) Severe) ds); simpl;
    try reflexivity;
    destruct (existsb (fun d => Severity_eqb (severity d) Moderate) ds); simpl;
    try reflexivity;
    destruct ds; reflexivity.
Qed.

Lemma existsb_severity_uniform (s s' : Severity) (ds : list DamageItem) :
  Forall (fun d => severity d = s) ds -> ds <> [] ->
  existsb (fun d => Severity_eqb (severity d) s') ds = Severity_eqb s s'.
Proof.
  intros Hall Hne. induction Hall as [|d ds Hd Hall IH]; [congruence|].
  simpl. rewrite Hd.
  destruct ds as [|d' ds'].
  - simpl. apply orb_false_r.
  - rewrite IH by congruence. apply orb_diag.
Qed.

Lemma spec_overallSeverity_uniform (s : Severity) (ds : list DamageItem) :
  Forall (fun d => severity d = s) ds -> ds <> [] ->
  spec_overallSeverity ds = overall s.
Proof.
  intros Hall Hne. unfold spec_overallSeverity.
  rewrite !(existsb_severity_uniform s) by assumption.
  destruct s; simpl; try reflexivity.
  destruct ds; [congruence | reflexivity].
Qed.

Section MockEngineFacts.
Import MockEngine.
Variables (imageCount : nat) (overrideConfidence : option Q).
Variable rnd : Randomness.
Hypothesis Hshuffled : Permutation damageTypes (shuffled rnd).

Lemma numDamages_bounds :
  (2 <= Nat.min (Nat.max 2 imageCount) (length damageTypes))%nat.
Proof. simpl. lia. Qed.

Lemma base_nonempty (overrideSeverity : option Severity) :
  (2 <= length (imap (baseItem overrideConfidence overrideSeverity rnd)
                     (take (Nat.min (Nat.max 2 imageCount) (length damageTypes))
                           (shuffled rnd))))%nat.
Proof.
  rewrite length_imap, length_take.
  rewrite <- (Permutation_length Hshuffled).
  pose proof numDamages_bounds. simpl in *. lia.
Qed.

Lemma selected_nonempty (overrideSeverity : option Severity) :
  (2 <= length (applySeverityOverride overrideSeverity rnd
                  (imap (baseItem overrideConfidence overrideSeverity rnd)
                     (take (Nat.min (Nat.max 2 imageCount) (length damageTypes))
                           (shuffled rnd)))))%nat.
Proof.
  pose proof (base_nonempty overrideSeverity) as Hb.
  destruct overrideSeverity as [[]|]; cbn [applySeverityOverride];
    repeat first [rewrite length_imap in * | rewrite length_take in *]; lia.
Qed.

Lemma selected_uniform (s : Severity) (ds : list DamageItem) :
  Forall (fun d => severity d = s) (applySeverityOverride (Some s) rnd ds).
Proof.
  destruct s; simpl; apply Forall_imap_all; reflexivity.
Qed.

(** The overall severity of every synthesized assessment is Severe if
    any of its items is Severe, else Moderate if any item is Moderate,
    else Minor if it has items, else None. *)
Lemma mock_severity_is_max
    (overrideSeverity : option Severity)
    (hasDamageOverride hasInconsistencyOverride : option bool) :
  let r := generateMockAssessment imageCount overrideConfidence overrideSeverity
             hasDamageOverride hasInconsistencyOverride rnd in
  overallSeverity r = spec_overallSeverity (damages r)
  /\ overallSeverity r = max_severity (damages r).
Proof.
  intros r. rewrite <- spec_overallSeverity_max.
  enough (overallSeverity r = spec_overallSeverity (damages r)) by tauto.
  subst r. unfold generateMockAssessment.
  destruct hasDamageOverride as [[]|]; cbn [overallSeverity damages];
    try reflexivity.
  all: pose proof (selected_nonempty overrideSeverity) as Hlen.
  all: destruct overrideSeverity as [s|].
  all: try (symmetry; apply spec_overallSeverity_uniform;
            [apply selected_uniform | intros Hnil; rewrite Hnil in Hlen; simpl in Hlen; lia]).
  all: unfold spec_overallSeverity.
  all: match goal with
       | |- context [existsb ?f ?l] => destruct (existsb f l); [reflexivity|]
       end.
  all: match goal with
       | |- context [existsb ?f ?l] => destruct (existsb f l); [reflexivity|]
       end.
  all: match goal with
       | |- context [match ?l with [] => _ | _ :: _ => _ end] =>
           destruct l; [simpl in Hlen; lia | reflexivity]
       end.
Qed.
End MockEngineFacts.

(** C3 (as amended).  For every assessment the engine synthesizes
    itself (simulated mode, and the fallback after a failed live call)
    the overall severity is Severe if any item is Severe, else Moderate if
    any item is Moderate, else Minor if there are items, else None: the
    maximum severity present, or None for the empty list.  For a
    successful live call the overall severity is the one the reply
    states, None when it states none, and the items are those of the
    reply: it is not derived from them. *)
Theorem engine_overallSeverity (props : Assessment.Props)
    (humanMarkers : option (list Route.DamageMarker)) (w : Assessment.Run)
    (st : Assessment.State) :
  Permutation MockEngine.damageTypes (MockEngine.shuffled (Assessment.rnd w)) ->
  exists a,
    Assessment.assessment (Assessment.analyzeImages props humanMarkers w st).1 = Some a
    /\ match Assessment.mode props, (Assessment.attempt props humanMarkers w).1 with
       | Assessment.live, inl reply =>
           overallSeverity a
           = default ONone (Route.an_overallSeverity (Route.analysis reply))
           /\ damages a = default [] (Route.an_damages (Route.analysis reply))
       | _, _ =>
           overallSeverity a = spec_overallSeverity (damages a)
           /\ overallSeverity a = max_severity (damages a)
       end.
Proof.
  intros Hshuffled. unfold Assessment.analyzeImages.
  destruct (Assessment.mode props).
  - unfold Assessment.analyzeLive.
    destruct (Assessment.attempt props humanMarkers w) as [[reply|e] effects];
      cbn [fst Assessment.settle Assessment.assessment].
    + eexists. split; [reflexivity|]. split; reflexivity.
    + eexists. split; [reflexivity|].
      exact (mock_severity_is_max (Assessment.imageCount props) None
               (Assessment.rnd w) Hshuffled None None None).
  - unfold Assessment.analyzeSimulated.
    set (a := Assessment.simulatedResult props (Assessment.test st) humanMarkers w).
    assert (Ha : overallSeverity a = spec_overallSeverity (damages a)
                 /\ overallSeverity a = max_severity (damages a)).
    { exact (mock_severity_is_max (Assessment.imageCount props)
               (Some (Assessment.testConfidence (Assessment.test st)))
               (Assessment.rnd w) Hshuffled
               (Some (Assessment.testSeverity (Assessment.test st)))
               (Some (Assessment.testHasDamage (Assessment.test st)))
               (Some (Assessment.testHasInconsistency (Assessment.test st)))). }
    exists a.
    destruct (Assessment.requestsHumanInput a humanMarkers);
      [|destruct (Assessment.autoApproves props a)];
      cbn [fst Assessment.settle Assessment.assessment];
      (split; [reflexivity|]);
      destruct ((Assessment.attempt props humanMarkers w).1); exact Ha.
Qed.

(** Witness of C3: a simulated run on three images without override of
    the severity: the items are Severe, Moderate and Minor. *)
Lemma engine_overallSeverity_witness :
  Permutation MockEngine.damageTypes (MockEngine.shuffled (Assessment.rnd offlineRun))
  /\ exists a,
       Assessment.assessment
         (Assessment.analyzeImages simulatedProps None offlineRun
            (startWith (Assessment.test Assessment.initialState))).1 = Some a
       /\ overallSeverity a = max_severity (damages a).
Proof.
  assert (Hperm : Permutation MockEngine.damageTypes
                    (MockEngine.shuffled (Assessment.rnd offlineRun)))
    by apply Permutation_refl.
  split; [exact Hperm|].
  destruct (engine_overallSeverity simulatedProps None offlineRun
              (startWith (Assessment.test Assessment.initialState)) Hperm)
    as (a & Ha & Hsev).
  exists a. split; [exact Ha|]. exact (proj2 Hsev).
Defined.

(** C3, counterexample to the claim as stated: a live reply that calls a
    Severe item Minor overall.  The assessment installed carries Minor,
    while the maximum severity of its items is Severe. *)
Lemma live_overallSeverity_is_copied :
  let w := liveRun (endpoint (sampleModel "mislabelled") sampleReplies) in
  let result :=
    Assessment.handleStartAnalysis liveProps w
      (startWith (Assessment.test Assessment.initialState)) in
  exists a d,
    Assessment.assessment result.1 = Some a
    /\ Assessment.error result.1 = None
    /\ damages a = [d] /\ severity d = Severe
    /\ overallSeverity a = OMinor
    /\ spec_overallSeverity (damages a) = OSevere
    /\ max_severity (damages a) = OSevere
    /\ overallSeverity a <> spec_overallSeverity (damages a).
Proof.
  do 2 eexists. split; [vm_compute; reflexivity|].
  split; [reflexivity|]. split; [reflexivity|]. split; [reflexivity|].
  split; [reflexivity|]. split; [reflexivity|]. split; [reflexivity|]. discriminate.
Qed.

(** ** Agent review: approval level *)

Section ReviewFacts.
Import Review.

Lemma session_length (a : AssessmentResult) (edits : list (nat * option Z)) :
  length (adjustedDamages (session a edits)) = length (damages a).
Proof.
  unfold session.
  induction edits as [|e edits IH] using rev_ind; [reflexivity|].
  rewrite foldl_app. simpl. unfold edit at 1, handleCostAdjust. simpl.
  rewrite length_alter. exact IH.
Qed.

Lemma adjustmentsFrom_total (original adjusted : list DamageItem) (index : nat) :
  (index + length adjusted <= length original)%nat ->
  is_Some (adjustmentsFrom original index adjusted).
Proof.
  revert index. induction adjusted as [|d rest IH]; intros index Hlen; simpl.
  - eauto.
  - simpl in Hlen.
    destruct (lookup_lt_is_Some_2 original index) as [was Hwas]; [lia|].
    rewrite Hwas.
    destruct (IH (S index)) as [more Hmore]; [lia|].
    rewrite Hmore. eauto.
Qed.

(** C6. Every approval made in the agent review yields a FinalAssessment;
    its approval level is 'senior' exactly when the adjusted total exceeds
    $5,000 or the overall severity is Severe, and 'agent' otherwise. *)
Theorem handleApprove_approvalLevel
    (a : AssessmentResult) (now : string) (edits : list (nat * option Z)) :
  exists fa,
    handleApprove a now (session a edits) = Some fa
    /\ adjustedTotal fa = currentTotal (session a edits)
    /\ (approvalLevel fa = senior <->
          SENIOR_APPROVAL_THRESHOLD < adjustedTotal fa \/ overallSeverity a = OSevere)
    /\ (approvalLevel fa = agent <->
          ~ (SENIOR_APPROVAL_THRESHOLD < adjustedTotal fa \/ overallSeverity a = OSevere)).
Proof.
  unfold handleApprove.
  destruct (adjustmentsFrom_total (damages a) (adjustedDamages (session a edits)) 0)
    as [adjs Hadjs].
  { rewrite session_length. lia. }
  rewrite Hadjs. eexists. split; [reflexivity|]. cbn [adjustedTotal approvalLevel].
  split; [reflexivity|].
  unfold requiresSeniorApproval, SENIOR_APPROVAL_THRESHOLD.
  destruct (Qgtb (currentTotal (session a edits)) 5000) eqn:Hgt;
    destruct (OverallSeverity_eqb (overallSeverity a) OSevere) eqn:Hsev; simpl.
  all: try apply Qgtb_gt in Hgt.
  all: try apply Qgtb_le in Hgt.
  all: try apply OverallSeverity_eqb_eq in Hsev.
  all: split; split; try congruence; try tauto.
  all: try (intros _ [Hlt | Heq];
            [ apply Qlt_not_le in Hlt; contradiction
            | apply OverallSeverity_eqb_eq in Heq; congruence ]).
  all: try (intros [Hlt | Heq];
            [ apply Qlt_not_le in Hlt; contradiction
            | apply OverallSeverity_eqb_eq in Heq; congruence ]).
  all: try (intros Hn; exfalso; apply Hn; tauto).
Qed.
End ReviewFacts.

(** ** Cost and total recomputation on the assessment screen *)

Section OverrideFacts.
Import Assessment.

Lemma sum_active_rowTerm (o : Overrides) (rs : list (nat * DamageItem)) :
  sum_by (contribution o) (filter (fun row => isRemoved o row.1 = false) rs)
  == sum_by (rowTerm o) rs.
Proof.
  induction rs as [|row rs IH]; [reflexivity|].
  rewrite filter_cons, (sum_by_cons (rowTerm o)).
  unfold rowTerm at 1.
  destruct (decide (isRemoved o row.1 = false)) as [Hr|Hr].
  - rewrite Hr, sum_by_cons, IH. reflexivity.
  - apply not_false_is_true in Hr. rewrite Hr, IH. ring.
Qed.

Lemma adjustedFrom_rowTerm (o : Overrides) (ds : list DamageItem) :
  forall (index : nat) (total : Q),
    adjustedFrom o index ds total == total + sum_by (rowTerm o) (rowsFrom index ds).
Proof.
  induction ds as [|damage rest IH]; intros index total.
  - unfold sum_by. simpl. ring.
  - cbn [adjustedFrom rowsFrom]. rewrite IH, sum_by_cons.
    unfold rowTerm at 2, contribution, overrideValue. simpl.
    destruct (isRemoved o index); [ring|].
    destruct (isOverridden o index); [|ring].
    destruct (adjustedCosts o !! index); simpl; ring.
Qed.

(** On the assessment screen [getAdjustedTotal] is the sum, over the
    items that are not removed, of the override value when the override
    is enabled and of the original estimated cost otherwise. *)
Lemma getAdjustedTotal_spec (a : AssessmentResult) (o : Overrides) :
  getAdjustedTotal (Some a) o == spec_total o (damages a).
Proof.
  unfold getAdjustedTotal, spec_total, activeRows, rows.
  rewrite adjustedFrom_rowTerm, sum_active_rowTerm. ring.
Qed.

(** The total that "Review & Approve" hands over is that same sum. *)
Lemma handleContinueWithOverrides_total (st : State) (a : AssessmentResult) :
  assessment st = Some a ->
  exists a',
    handleContinueWithOverrides st = [OnContinue a']
    /\ totalEstimate a' == spec_total (overrides st) (damages a)
    /\ damages a' = (activeRows (overrides st) (damages a)).*2.
Proof.
  intros Ha. unfold handleContinueWithOverrides. rewrite Ha.
  eexists. split; [reflexivity|]. split; [|reflexivity].
  cbn [totalEstimate updatedAssessment]. apply getAdjustedTotal_spec.
Qed.

Lemma isOverridden_insert (o : gmap nat bool) (i j : nat) (b : bool) :
  truthy (<[i := b]> o !! j) = if decide (i = j) then b else truthy (o !! j).
Proof.
  rewrite lookup_insert. destruct (decide (i = j)); reflexivity.
Qed.

Lemma consistent_step (ds : list DamageItem) (o : Overrides) (act : Action) :
  consistent o -> consistent (step ds o act).
Proof.
  intros Hc. destruct act as [i checked|i parsed|i value|i|value]; simpl.
  - destruct (ds !! i) as [damage|]; [|exact Hc].
    destruct (isRemoved o i) eqn:Hrem; [exact Hc|].
    intros j. destruct (Hc j) as [H1 H2].
    unfold isOverridden, isRemoved, toggleOverride in *. simpl.
    rewrite isOverridden_insert.
    destruct (decide (i = j)) as [->|Hne].
    + split.
      * intros ->. destruct (adjustedCosts o !! j) eqn:Hadj.
        -- rewrite Hadj. eauto.
        -- rewrite lookup_insert_eq. eauto.
      * intros Hj. congruence.
    + split; [|exact H2].
      intros Hj. destruct checked; [|auto].
      destruct (adjustedCosts o !! i); [auto|].
      rewrite lookup_insert_ne by exact Hne. auto.
  - destruct (ds !! i); [|exact Hc].
    destruct (negb (isRemoved o i) && isOverridden o i); [|exact Hc].
    intros j. destruct (Hc j) as [H1 H2].
    unfold isOverridden, isRemoved, editCost in *. simpl.
    split; [|exact H2]. intros Hj.
    rewrite lookup_insert. destruct (decide (i = j)); eauto.
  - destruct (ds !! i); [|exact Hc].
    destruct (negb (isRemoved o i) && isOverridden o i); exact Hc.
  - destruct (ds !! i); [|exact Hc].
    intros j. destruct (Hc j) as [H1 H2].
    unfold toggleRemove.
    destruct (isRemoved o i) eqn:Hrem;
      unfold isOverridden, isRemoved in *; simpl;
      rewrite !isOverridden_insert.
    + split; [exact H1|].
      destruct (decide (i = j)) as [->|Hne]; [congruence | exact H2].
    + destruct (decide (i = j)) as [->|Hne]; [split; congruence|].
      split; [exact H1 | exact H2].
  - exact Hc.
Qed.

Lemma consistent_run (ds : list DamageItem) (actions : list Action) :
  consistent (run ds actions).
Proof.
  unfold run.
  induction actions as [|act actions IH] using rev_ind.
  - intros index. unfold isOverridden, isRemoved. simpl.
    rewrite !lookup_empty. simpl. split; congruence.
  - rewrite foldl_app. simpl. apply consistent_step, IH.
Qed.
(** In a state reached by the agent's actions the contribution of an
    overridden row is the value stored for it. *)
Lemma enabled_override_has_value (ds : list DamageItem) (actions : list Action)
    (index : nat) (damage : DamageItem) :
  isOverridden (run ds actions) index = true ->
  exists c,
    adjustedCosts (run ds actions) !! index = Some c
    /\ contribution (run ds actions) (index, damage) = c.
Proof.
  intros Hon.
  destruct (consistent_run ds actions index) as [Hvalue _].
  destruct (Hvalue Hon) as [c Hc]. exists c. split; [exact Hc|].
  unfold contribution, overrideValue. simpl. rewrite Hon, Hc. reflexivity.
Qed.
End OverrideFacts.

Section OverrideEffects.
Import Assessment.

Lemma sum_by_ext_in {A} (f g : A -> Q) (xs : list A) :
  (forall x, x ∈ xs -> f x == g x) -> sum_by f xs == sum_by g xs.
Proof.
  induction xs as [|x xs IH]; intros Hfg; [reflexivity|].
  rewrite !sum_by_cons, IH.
  - rewrite (Hfg x) by (left; reflexivity). reflexivity.
  - intros y Hy. apply Hfg. right. exact Hy.
Qed.

Lemma rowsFrom_index_ge (ds : list DamageItem) :
  forall (k : nat) (row : nat * DamageItem),
    row ∈ rowsFrom k ds -> (k <= row.1)%nat.
Proof.
  induction ds as [|d rest IH]; intros k row Hin; simpl in Hin.
  - inversion Hin.
  - apply elem_of_cons in Hin as [->|Hin]; [simpl; lia|].
    apply IH in Hin. lia.
Qed.

(** Changing what one row adds changes the sum by that difference. *)
Lemma sum_rows_update (f g : nat * DamageItem -> Q) (i : nat) (d : DamageItem)
    (ds : list DamageItem) :
  (forall row, row.1 <> i -> f row == g row) ->
  forall k,
    (k <= i)%nat -> ds !! (i - k)%nat = Some d ->
    sum_by g (rowsFrom k ds) == sum_by f (rowsFrom k ds) - f (i, d) + g (i, d).
Proof.
  intros Hfg. induction ds as [|d0 rest IH]; intros k Hk Hd.
  - rewrite lookup_nil in Hd. discriminate.
  - cbn [rowsFrom]. rewrite !sum_by_cons.
    destruct (decide (k = i)) as [->|Hne].
    + replace (i - i)%nat with 0%nat in Hd by lia. simpl in Hd.
      injection Hd as ->.
      rewrite (sum_by_ext_in f g).
      * ring.
      * intros row Hrow. apply Hfg.
        apply rowsFrom_index_ge in Hrow. lia.
    + rewrite (IH (S k)).
      * rewrite (Hfg (k, d0)) by (simpl; lia). ring.
      * lia.
      * replace (i - k)%nat with (S (i - S k)) in Hd by lia. exact Hd.
Qed.

Lemma step_frame (ds : list DamageItem) (o : Overrides) (act : Action) (i j : nat) :
  target act = Some i -> j <> i ->
  isRemoved (step ds o act) j = isRemoved o j
  /\ isOverridden (step ds o act) j = isOverridden o j
  /\ adjustedCosts (step ds o act) !! j = adjustedCosts o !! j.
Proof.
  intros Ht Hne.
  destruct act as [i' checked|i' parsed|i' value|i'|value];
    simpl in Ht; simplify_eq; simpl.
  - destruct (ds !! i); [|tauto].
    destruct (isRemoved o i); [tauto|].
    unfold isRemoved, isOverridden, toggleOverride. simpl.
    rewrite lookup_insert_ne by congruence.
    repeat split.
    destruct checked; [|reflexivity].
    destruct (adjustedCosts o !! i); [reflexivity|].
    rewrite lookup_insert_ne by congruence. reflexivity.
  - destruct (ds !! i); [|tauto].
    destruct (negb (isRemoved o i) && isOverridden o i); [|tauto].
    unfold isRemoved, isOverridden, editCost. simpl.
    rewrite lookup_insert_ne by congruence. tauto.
  - destruct (ds !! i); [|tauto].
    destruct (negb (isRemoved o i) && isOverridden o i); tauto.
  - destruct (ds !! i); [|tauto].
    unfold toggleRemove.
    destruct (isRemoved o i) eqn:Hrem;
      unfold isRemoved, isOverridden in *; simpl;
      rewrite ?lookup_insert_ne by congruence; tauto.
Qed.

Lemma rowTerm_frame (ds : list DamageItem) (o : Overrides) (act : Action) (i : nat)
    (row : nat * DamageItem) :
  target act = Some i -> row.1 <> i ->
  rowTerm o row == rowTerm (step ds o act) row.
Proof.
  intros Ht Hne.
  destruct (step_frame ds o act i row.1 Ht Hne) as (Hr & Ho & Hc).
  unfold rowTerm, contribution, overrideValue. rewrite Hr, Ho, Hc. reflexivity.
Qed.

(** The total after an action on row [index], from the total before. *)
Lemma total_after_step (a : AssessmentResult) (o : Overrides) (act : Action)
    (index : nat) (damage : DamageItem) :
  target act = Some index -> damages a !! index = Some damage ->
  getAdjustedTotal (Some a) (step (damages a) o act)
  == getAdjustedTotal (Some a) o
     - rowTerm o (index, damage) + rowTerm (step (damages a) o act) (index, damage).
Proof.
  intros Ht Hd. unfold getAdjustedTotal.
  rewrite !adjustedFrom_rowTerm.
  rewrite (sum_rows_update (rowTerm o) (rowTerm (step (damages a) o act))
             index damage (damages a)).
  - ring.
  - intros row Hrow. apply (rowTerm_frame (damages a) o act index); assumption.
  - lia.
  - replace (index - 0)%nat with index by lia. exact Hd.
Qed.

(** C7 (as amended).  For a damage item that is shown (not removed), in
    any state reached by the agent's actions:
    - enabling the override enables it and seeds the adjustable value with
      the item's original estimated cost when no adjusted value is stored
      for the item, and keeps the stored value otherwise;
    - disabling the override makes the item contribute its original cost;
    - removing the item takes its contribution out of the total, marks it
      removed and clears its override. *)
Theorem override_toggle_and_removal
    (a : AssessmentResult) (actions : list Action) (index : nat) (damage : DamageItem) :
  damages a !! index = Some damage ->
  let ds := damages a in
  let o := run ds actions in
  isRemoved o index = false ->
  (let o' := step ds o (ToggleOverride index true) in
   isOverridden o' index = true
   /\ (adjustedCosts o !! index = None ->
       adjustedCosts o' !! index = Some (estimatedCost damage)
       /\ contribution o' (index, damage) = estimatedCost damage)
   /\ (forall c, adjustedCosts o !! index = Some c ->
       adjustedCosts o' !! index = Some c))
  /\ (let o' := step ds o (ToggleOverride index false) in
      isOverridden o' index = false
      /\ contribution o' (index, damage) = estimatedCost damage
      /\ getAdjustedTotal (Some a) o'
         == getAdjustedTotal (Some a) o
            - contribution o (index, damage) + estimatedCost damage)
  /\ (let o' := step ds o (ToggleRemove index) in
      isRemoved o' index = true
      /\ isOverridden o' index = false
      /\ ((index, damage) ∉ activeRows o' ds)
      /\ getAdjustedTotal (Some a) o'
         == getAdjustedTotal (Some a) o - contribution o (index, damage)).
Proof.
  intros Hd ds o Hshown. subst ds.
  assert (Hterm : rowTerm o (index, damage) = contribution o (index, damage)).
  { unfold rowTerm. simpl. rewrite Hshown. reflexivity. }
  split; [|split].
  - simpl. rewrite Hd, Hshown.
    unfold isOverridden, toggleOverride, contribution, overrideValue. simpl.
    rewrite lookup_insert_eq. split; [reflexivity|]. split.
    + intros Hnone. rewrite Hnone, !lookup_insert_eq. simpl.
      split; [reflexivity|]. match goal with |- (if ?b then _ else _) = _ => destruct b end; reflexivity.
    + intros c Hc. rewrite Hc. exact Hc.
  - pose proof (total_after_step a o (ToggleOverride index false) index damage
                  eq_refl Hd) as Htot.
    simpl in Htot |- *. rewrite Hd, Hshown in Htot |- *.
    assert (Hoff : isOverridden (toggleOverride index damage false o) index = false).
    { unfold isOverridden, toggleOverride. simpl. rewrite lookup_insert_eq. reflexivity. }
    assert (Hc : contribution (toggleOverride index damage false o) (index, damage)
                 = estimatedCost damage).
    { unfold contribution. simpl. rewrite Hoff. reflexivity. }
    split; [exact Hoff|]. split; [exact Hc|].
    rewrite Htot, Hterm. unfold rowTerm. simpl.
    assert (Hrem : isRemoved (toggleOverride index damage false o) index = false)
      by exact Hshown.
    rewrite Hrem, Hc. reflexivity.
  - pose proof (total_after_step a o (ToggleRemove index) index damage
                  eq_refl Hd) as Htot.
    simpl in Htot |- *. rewrite Hd in Htot |- *.
    assert (Hrem : isRemoved (toggleRemove index o) index = true).
    { unfold toggleRemove, isRemoved at 1. simpl.
      rewrite lookup_insert_eq, Hshown. reflexivity. }
    assert (Hoff : isOverridden (toggleRemove index o) index = false).
    { unfold toggleRemove, isOverridden. simpl. rewrite Hshown. simpl.
      rewrite lookup_insert_eq. reflexivity. }
    split; [exact Hrem|]. split; [exact Hoff|]. split.
    + unfold activeRows. intros Hin.
      apply list_elem_of_filter in Hin as [Hin _]. simpl in Hin. congruence.
    + rewrite Htot, Hterm. unfold rowTerm. simpl. rewrite Hrem. ring.
Qed.
End OverrideEffects.

Section OverrideExamples.
Import Assessment.

Example total_after_override :
  getAdjustedTotal (Some sampleAssessment)
    (run (damages sampleAssessment) [ToggleOverride 0 true; EditCost 0 (Some 400%Z)])
  == 900.
Proof. vm_compute. reflexivity. Qed.

Example total_after_removal :
  getAdjustedTotal (Some sampleAssessment)
    (run (damages sampleAssessment) [ToggleRemove 1]) == 1000.
Proof. vm_compute. reflexivity. Qed.

Example total_after_restore :
  getAdjustedTotal (Some sampleAssessment)
    (run (damages sampleAssessment) [ToggleRemove 1; ToggleRemove 1]) == 1500.
Proof. vm_compute. reflexivity. Qed.

(** Witness of C7: the bumper, overridden to $400, is then removed. *)
Lemma override_toggle_and_removal_witness :
  let ds := damages sampleAssessment in
  let o := run ds [ToggleOverride 0 true; EditCost 0 (Some 400%Z)] in
  ds !! 0%nat = Some sampleBumper
  /\ isRemoved o 0 = false
  /\ getAdjustedTotal (Some sampleAssessment) (step ds o (ToggleRemove 0)) == 500.
Proof.
  intros ds o.
  assert (H1 : ds !! 0%nat = Some sampleBumper) by reflexivity.
  assert (H2 : isRemoved o 0 = false) by (vm_compute; reflexivity).
  split; [exact H1|]. split; [exact H2|].
  destruct (override_toggle_and_removal sampleAssessment
              [ToggleOverride 0 true; EditCost 0 (Some 400%Z)] 0 sampleBumper H1 H2)
    as (_ & _ & _ & _ & _ & Htotal).
  etransitivity; [exact Htotal|]. vm_compute. reflexivity.
Defined.

(** C7, counterexample to the claim as stated: an override that is
    enabled again after an edit shows the edited value, not the item's
    original estimated cost. *)
Lemma reenabled_override_keeps_edited_value :
  let ds := damages sampleAssessment in
  let o := run ds [ToggleOverride 0 true; EditCost 0 (Some 400%Z);
                   ToggleOverride 0 false] in
  let o' := step ds o (ToggleOverride 0 true) in
  isRemoved o 0 = false
  /\ isOverridden o 0 = false
  /\ isOverridden o' 0 = true
  /\ estimatedCost sampleBumper == 1000
  /\ overrideValue o' 0 sampleBumper == 400
  /\ ~ overrideValue o' 0 sampleBumper == estimatedCost sampleBumper.
Proof.
  vm_compute. repeat split; try reflexivity. discriminate.
Qed.

(** C1, at the failing input: the bumper ($1,000) is overridden to $400
    on the assessment screen, which shows and hands over $900; the review
    screen then shows $1,500 and approves $1,500, the sum of the original
    costs. *)
Theorem review_total_ignores_overrides :
  let o := run (damages sampleAssessment)
             [ToggleOverride 0 true; EditCost 0 (Some 400%Z)] in
  let st := Workflow.assessmentScreen sampleAssessment o in
  spec_total o (damages sampleAssessment) == 900
  /\ (exists c q, render st = DamageView 900 c q)
  /\ exists a' fa,
       Workflow.reviewScreen (handleContinueWithOverrides st)
         = Some (a', Review.init a')
       /\ totalEstimate a' == 900
       /\ manualOverrides a'
          = Some [ {| damageIndex := 0; originalCost := 1000; adjustedCost := 400;
                      reason := "Manual adjustment" |} ]
       /\ Review.currentTotal (Review.init a') == 1500
       /\ Review.handleApprove a' "now" (Review.init a') = Some fa
       /\ Review.adjustedTotal fa == 1500
       /\ totalEstimate (Review.assessment fa) == 1500.
Proof.
  intros o st. split; [vm_compute; reflexivity|].
  split; [eexists _, _; vm_compute; reflexivity|].
  eexists _, _. split; [reflexivity|].
  repeat split; vm_compute; reflexivity.
Qed.
End OverrideExamples.

(** ** Routing: the fast path *)

Section RoutingFacts.
Import Assessment.

Lemma canAutoApprove_iff (a : AssessmentResult) (o : Overrides) :
  canAutoApprove a o = true <->
  HIGH_CONFIDENCE_THRESHOLD <= aiConfidence a
  /\ getAdjustedTotal (Some a) o <= SENIOR_APPROVAL_THRESHOLD
  /\ truthy (hasInconsistencies a) = false.
Proof.
  unfold canAutoApprove, HIGH_CONFIDENCE_THRESHOLD.
  rewrite !andb_true_iff, negb_true_iff, Qgeb_ge, Qle_bool_iff. tauto.
Qed.

Lemma autoApproves_iff (props : Props) (a : AssessmentResult) :
  autoApproves props a = true <->
  hasQuickApprove props = true
  /\ hasDamage a = true
  /\ HIGH_CONFIDENCE_THRESHOLD <= aiConfidence a
  /\ totalEstimate a <= SENIOR_APPROVAL_THRESHOLD
  /\ truthy (hasInconsistencies a) = false.
Proof.
  unfold autoApproves.
  rewrite !andb_true_iff, negb_true_iff, Qgeb_ge, Qle_bool_iff. tauto.
Qed.

Lemma simulated_flags_recorded (props : Props) (tc : TestControls)
    (humanMarkers : option (list Route.DamageMarker)) (w : Run) :
  flagsRecorded (simulatedResult props tc humanMarkers w).
Proof.
  unfold flagsRecorded, hasFlags, simulatedResult, MockEngine.generateMockAssessment.
  destruct (testHasDamage tc), (testHasInconsistency tc); reflexivity.
Qed.

Lemma fallback_flags_recorded (props : Props) (w : Run) (e : Thrown) :
  flagsRecorded (fallbackResult props w e).
Proof. reflexivity. Qed.

Lemma live_flags_recorded (humanMarkers : option (list Route.DamageMarker))
    (w : Run) (reply : Route.Payload) :
  flagsRecorded (liveResult humanMarkers w reply) <->
  truthy (Route.an_hasInconsistencies (Route.analysis reply))
  = match Route.an_inconsistencies (Route.analysis reply) with
    | Some (_ :: _) => true
    | _ => false
    end.
Proof.
  unfold flagsRecorded, hasFlags, liveResult. cbn [hasInconsistencies inconsistencies truthy].
  destruct (Route.an_inconsistencies (Route.analysis reply)) as [[|f fs]|];
    cbn [default]; reflexivity.
Qed.

(** C2 (as amended).  For an assessment whose [hasInconsistencies]
    boolean records whether it has flags (every simulated and fallback
    assessment, and a live one whose reply is consistent in this): the
    screen marks it as an approval candidate exactly when damage was
    detected (the damage list is not empty), its confidence is at least
    85, its adjusted total is at most $5,000 and it has no inconsistency
    flag; the automatic approval of test mode fires exactly under the
    same conditions on the estimate of the result, given the
    quick-approve callback; an assessment without damage or with any
    inconsistency flag is never on the fast path. *)
Theorem fast_path_eligibility (props : Props) (st : State) (a : AssessmentResult) :
  isAnalyzing st = false -> needsHumanInput st = false -> assessment st = Some a ->
  flagsRecorded a ->
  ((exists total button, render st = DamageView total true button) <->
     hasDamage a = true
     /\ damages a <> []
     /\ HIGH_CONFIDENCE_THRESHOLD <= aiConfidence a
     /\ getAdjustedTotal (Some a) (overrides st) <= SENIOR_APPROVAL_THRESHOLD
     /\ hasFlags a = false)
  /\ (autoApproves props a = true <->
        hasQuickApprove props = true
        /\ hasDamage a = true
        /\ HIGH_CONFIDENCE_THRESHOLD <= aiConfidence a
        /\ totalEstimate a <= SENIOR_APPROVAL_THRESHOLD
        /\ hasFlags a = false)
  /\ (hasFlags a = true ->
        autoApproves props a = false
        /\ forall total c button, render st = DamageView total c button ->
             c = false /\ button = false)
  /\ (hasDamage a = false \/ damages a = [] -> render st = NoDamageView a).
Proof.
  intros Hrun Hneeds Ha Hflags. unfold flagsRecorded in Hflags. rewrite <- Hflags.
  assert (Hrender :
    render st =
      if negb (hasDamage a) || (length (damages a) =? 0)%nat
      then NoDamageView a
      else DamageView (getAdjustedTotal (Some a) (overrides st))
                      (canAutoApprove a (overrides st))
                      (canAutoApprove a (overrides st)
                       && negb (hasModifications (overrides st)))).
  { unfold render. rewrite Hrun, Hneeds, Ha. simpl.
    rewrite andb_false_r. reflexivity. }
  assert (Hempty : (length (damages a) =? 0)%nat = true <-> damages a = []).
  { rewrite Nat.eqb_eq. apply length_zero_iff_nil. }
  split; [|split; [apply autoApproves_iff|split]].
  - rewrite Hrender. split.
    + intros (total & button & Hview).
      destruct (hasDamage a) eqn:Hdmg; simpl in Hview; [|discriminate].
      destruct (length (damages a) =? 0)%nat eqn:Hlen; [discriminate|].
      injection Hview as _ Hcan _.
      apply canAutoApprove_iff in Hcan.
      split; [reflexivity|]. split; [|tauto].
      intros Hnil. apply Hempty in Hnil. congruence.
    + intros (Hdmg & Hds & Hconf & Htot & Hflag).
      rewrite Hdmg.
      destruct (length (damages a) =? 0)%nat eqn:Hlen.
      * exfalso. apply Hds, Hempty. reflexivity.
      * simpl.
        assert (Hcan : canAutoApprove a (overrides st) = true)
          by (apply canAutoApprove_iff; tauto).
        rewrite Hcan. eauto.
  - intros Hflag. split.
    + apply not_true_is_false. intros Hauto.
      apply autoApproves_iff in Hauto. intuition congruence.
    + intros total c button Hview. rewrite Hrender in Hview.
      destruct (negb (hasDamage a) || (length (damages a) =? 0)%nat);
        [discriminate|].
      injection Hview as _ Hc Hb.
      assert (Hcan : canAutoApprove a (overrides st) = false).
      { apply not_true_is_false. intros Hcan.
        apply canAutoApprove_iff in Hcan. intuition congruence. }
      rewrite Hcan in Hc, Hb. simpl in Hb. split; congruence.
  - intros Hno. rewrite Hrender.
    destruct Hno as [-> | Hnil]; [reflexivity|].
    apply Hempty in Hnil. rewrite Hnil, orb_true_r. reflexivity.
Qed.

(** Witness of C2: the sample assessment (confidence 80) on its screen. *)
Lemma fast_path_eligibility_witness :
  let st := Workflow.assessmentScreen sampleAssessment noOverrides in
  isAnalyzing st = false /\ needsHumanInput st = false
  /\ assessment st = Some sampleAssessment
  /\ flagsRecorded sampleAssessment
  /\ ~ (exists total button, render st = DamageView total true button)
  /\ autoApproves simulatedProps sampleAssessment <> true.
Proof.
  intros st.
  destruct (fast_path_eligibility simulatedProps st sampleAssessment
              eq_refl eq_refl eq_refl eq_refl) as (Hview & Hauto & _).
  split; [reflexivity|]. split; [reflexivity|]. split; [reflexivity|].
  split; [reflexivity|]. split.
  - intros H. apply Hview in H. destruct H as (_ & _ & Hconf & _).
    vm_compute in Hconf. apply Hconf. reflexivity.
  - intros H. apply Hauto in H. destruct H as (_ & _ & Hconf & _).
    vm_compute in Hconf. apply Hconf. reflexivity.
Defined.

(** C2, counterexample to the claim as stated: a simulated run that finds
    no damage has confidence 90, a total of $0 and no flag, and is shown
    on the no-damage view, whose only way forward is the standard review;
    no approval is triggered. *)
Lemma no_damage_is_not_fast_path :
  let tc := {| testConfidence := 90; testSeverity := Moderate;
               testHasDamage := false; testHasInconsistency := false |} in
  let result := handleStartAnalysis simulatedProps offlineRun (startWith tc) in
  exists a,
    assessment result.1 = Some a
    /\ HIGH_CONFIDENCE_THRESHOLD <= aiConfidence a
    /\ totalEstimate a <= SENIOR_APPROVAL_THRESHOLD
    /\ truthy (hasInconsistencies a) = false
    /\ inconsistencies a = None
    /\ result.2 = []
    /\ autoApproves simulatedProps a = false
    /\ render result.1 = NoDamageView a
    /\ proceedToReview result.1 = [OnContinue a].
Proof.
  eexists. split; [vm_compute; reflexivity|].
  repeat split; try (vm_compute; reflexivity); vm_compute; discriminate.
Qed.

(** Outside the amended claim: the fast path reads the boolean, not the
    flag list.  A live reply that lists a critical flag and leaves
    [hasInconsistencies] false is shown as an approval candidate with the
    Quick Approve button. *)
Example unrecorded_flag_is_not_read :
  let w := liveRun (endpoint (sampleModel "hidden-flag") sampleReplies) in
  let result := handleStartAnalysis liveProps w (startWith (test initialState)) in
  exists a,
    assessment result.1 = Some a
    /\ hasFlags a = true
    /\ truthy (hasInconsistencies a) = false
    /\ ~ flagsRecorded a
    /\ render result.1
       = DamageView (getAdjustedTotal (Some a) (overrides result.1)) true true.
Proof.
  eexists. split; [vm_compute; reflexivity|].
  split; [reflexivity|]. split; [reflexivity|]. split; [discriminate|].
  vm_compute. reflexivity.
Qed.
End RoutingFacts.

(** ** Routing: the request for human markers *)

Section HumanInputFacts.
Import Assessment.

Lemma requestsHumanInput_iff (a : AssessmentResult)
    (humanMarkers : option (list Route.DamageMarker)) :
  requestsHumanInput a humanMarkers = true <->
  aiConfidence a < LOW_CONFIDENCE_THRESHOLD
  /\ humanMarkers = None
  /\ hasDamage a = true.
Proof.
  unfold requestsHumanInput.
  rewrite !andb_true_iff, negb_true_iff, Qltb_lt, bool_decide_eq_false.
  rewrite <- eq_None_not_Some. tauto.
Qed.

(** In both modes a first analysis (no markers) whose result has
    confidence below 70 and damage stops at the marking screen. *)
Lemma low_confidence_requests_markers (props : Props) (w : Run) (st : State)
    (result : Route.Payload) :
  let a :=
    match mode props with
    | simulated => simulatedResult props (test st) None w
    | live => liveResult None w result
    end in
  (mode props = live -> (attempt props None w).1 = inl result) ->
  aiConfidence a < LOW_CONFIDENCE_THRESHOLD -> hasDamage a = true ->
  let st' := (analyzeImages props None w st).1 in
  assessment st' = Some a
  /\ needsHumanInput st' = true
  /\ render st' = HumanFeedbackView
  /\ Forall (fun e => exists req, e = CallApi req) (analyzeImages props None w st).2.
Proof.
  intros a Hlive Hlow Hdmg.
  assert (Hreq : requestsHumanInput a None = true)
    by (apply requestsHumanInput_iff; tauto).
  unfold analyzeImages. subst a. destruct (mode props).
  - specialize (Hlive eq_refl). unfold analyzeLive.
    destruct (attempt props None w) as [[p|e] effects] eqn:Hatt;
      simpl in Hlive; [|discriminate].
    injection Hlive as ->. simpl. rewrite Hreq.
    repeat split.
    + unfold render. simpl. rewrite andb_false_r. reflexivity.
    + unfold attempt in Hatt. destruct (conversion w); [|discriminate].
      injection Hatt as _ <-. repeat constructor. eauto.
  - unfold analyzeSimulated. rewrite Hreq. simpl.
    repeat split.
    + unfold render. simpl. rewrite andb_false_r. reflexivity.
    + constructor.
Qed.

(** In simulated mode a re-run with at least one marker adds 15 to the
    confidence of the simulated result, capped at 95, marks the result
    human-assisted and does not ask for markers again. *)
Lemma simulated_rerun_boost (props : Props) (w : Run) (st : State)
    (m : Route.DamageMarker) (ms : list Route.DamageMarker) :
  let before := simulatedResult props (test st) None w in
  let after := simulatedResult props (test st) (Some (m :: ms)) w in
  aiConfidence after = js_min 95 (aiConfidence before + 15)
  /\ humanAssisted after = Some true
  /\ needsHumanInput (analyzeSimulated props (Some (m :: ms)) w st).1 = false.
Proof.
  intros before after. split; [reflexivity|]. split; [reflexivity|].
  unfold analyzeSimulated.
  assert (Hreq : requestsHumanInput after (Some (m :: ms)) = false).
  { unfold requestsHumanInput. rewrite bool_decide_eq_true_2 by eauto.
    cbn [negb]. rewrite andb_false_r. reflexivity. }
  fold after. rewrite Hreq.
  destruct (autoApproves props after); reflexivity.
Qed.

(** The handler never reads the markers sent to it. *)
Lemma POST_ignores_markers (key : bool)
    (anthropic : list Route.Image -> string -> Route.ModelReply)
    (parse : string -> option Route.Analysis) (typeError : string)
    (imgs : list Route.Image) (v : option Route.VehicleInfo)
    (ms ms' : option (list Route.DamageMarker)) :
  Route.POST key anthropic parse typeError
    {| Route.images := imgs; Route.vehicleInfo := v; Route.humanMarkers := ms |}
  = Route.POST key anthropic parse typeError
    {| Route.images := imgs; Route.vehicleInfo := v; Route.humanMarkers := ms' |}.
Proof. reflexivity. Qed.

(** C5, at the failing input (live mode): the endpoint reports damage
    with confidence 60, so markers are requested; after the agent marks
    one point and submits, the re-run carries the marker in its request,
    the result is marked human-assisted and accepted, but its confidence
    is still 60, not 75.  The same steps in simulated mode give 75. *)
Theorem live_rerun_has_no_confidence_boost :
  let w := liveRun (endpoint unsureModel sampleParse) in
  let first := handleStartAnalysis liveProps w (startWith (test initialState)) in
  let second :=
    handleHumanFeedbackSubmit liveProps w (withMarkers [sampleMarker] first.1) in
  (exists a1,
      assessment first.1 = Some a1
      /\ aiConfidence a1 == 60
      /\ hasDamage a1 = true
      /\ render first.1 = HumanFeedbackView)
  /\ (exists a2 req,
        assessment second.1 = Some a2
        /\ second.2 = [CallApi req]
        /\ Route.humanMarkers req = Some [sampleMarker]
        /\ humanAssisted a2 = Some true
        /\ needsHumanInput second.1 = false
        /\ aiConfidence a2 == 60
        /\ ~ aiConfidence a2 == js_min 95 (60 + 15))
  /\ (let tc := {| testConfidence := 60; testSeverity := Moderate;
                   testHasDamage := true; testHasInconsistency := false |} in
      let sim1 := handleStartAnalysis simulatedProps offlineRun (startWith tc) in
      let sim2 := handleHumanFeedbackSubmit simulatedProps offlineRun
                    (withMarkers [sampleMarker] sim1.1) in
      render sim1.1 = HumanFeedbackView
      /\ exists a, assessment sim2.1 = Some a
                   /\ aiConfidence a == 75 /\ humanAssisted a = Some true).
Proof.
  split; [|split].
  - eexists. split; [vm_compute; reflexivity|].
    repeat split; vm_compute; reflexivity.
  - eexists _, _. split; [vm_compute; reflexivity|].
    split; [vm_compute; reflexivity|].
    repeat split; try (vm_compute; reflexivity).
    vm_compute. discriminate.
  - split; [vm_compute; reflexivity|].
    eexists. split; [vm_compute; reflexivity|].
    split; vm_compute; reflexivity.
Qed.
End HumanInputFacts.

(** ** Confidence aggregation *)

Section ConfidenceFacts.

Lemma ofNat_S (n : nat) :
  inject_Z (Z.of_nat (S n)) == inject_Z (Z.of_nat n) + 1.
Proof. rewrite Nat2Z.inj_succ. unfold Z.succ. rewrite inject_Z_plus. reflexivity. Qed.

Lemma ofNat_pos (n : nat) : (0 < n)%nat -> 0 < inject_Z (Z.of_nat n).
Proof. intros Hn. change 0 with (inject_Z 0). rewrite <- Zlt_Qlt. lia. Qed.

Lemma sum_by_bounds {A} (f : A -> Q) (lo hi : Q) (xs : list A) :
  Forall (fun x => lo <= f x <= hi) xs ->
  lo * inject_Z (Z.of_nat (length xs)) <= sum_by f xs
  /\ sum_by f xs <= hi * inject_Z (Z.of_nat (length xs)).
Proof.
  induction 1 as [|x xs [Hlo Hhi] _ [IHlo IHhi]].
  - unfold sum_by. simpl. split; ring_simplify; apply Qle_refl.
  - cbn [length]. rewrite sum_by_cons, ofNat_S. split.
    + setoid_replace (lo * (inject_Z (Z.of_nat (length xs)) + 1))
        with (lo + lo * inject_Z (Z.of_nat (length xs))) using relation Qeq by ring.
      apply Qplus_le_compat; assumption.
    + setoid_replace (hi * (inject_Z (Z.of_nat (length xs)) + 1))
        with (hi + hi * inject_Z (Z.of_nat (length xs))) using relation Qeq by ring.
      apply Qplus_le_compat; assumption.
Qed.

Lemma mean_confidence_bounds (lo hi : Q) (ds : list DamageItem) :
  ds <> [] -> Forall (fun d => lo <= confidence d <= hi) ds ->
  lo <= mean_confidence ds <= hi.
Proof.
  intros Hne Hall. unfold mean_confidence.
  destruct (sum_by_bounds confidence lo hi ds Hall) as [Hlo Hhi].
  assert (Hpos : 0 < inject_Z (Z.of_nat (length ds))).
  { apply ofNat_pos. destruct ds; [congruence | simpl; lia]. }
  split.
  - apply Qle_shift_div_l; assumption.
  - apply Qle_shift_div_r; assumption.
Qed.

(** Items that all carry the confidence [c] have mean [c]. *)
Lemma mean_confidence_uniform (c : Q) (ds : list DamageItem) :
  ds <> [] -> Forall (fun d => confidence d = c) ds -> mean_confidence ds == c.
Proof.
  intros Hne Hall. unfold mean_confidence.
  assert (Hsum : sum_by confidence ds == c * inject_Z (Z.of_nat (length ds))).
  { clear Hne. induction Hall as [|d ds Hd _ IH].
    - unfold sum_by. simpl. ring.
    - cbn [length]. rewrite sum_by_cons, ofNat_S, IH, Hd. ring. }
  rewrite Hsum. field.
  intros Hzero.
  assert (Hpos : 0 < inject_Z (Z.of_nat (length ds))).
  { apply ofNat_pos. destruct ds; [congruence | simpl; lia]. }
  rewrite Hzero in Hpos. discriminate.
Qed.

Lemma js_floor_bounds (x : Q) : 0 <= x <= 100 -> 0 <= js_floor x <= 100.
Proof.
  intros [H0 H100]. unfold js_floor. split.
  - change 0 with (inject_Z 0). rewrite <- Zle_Qle.
    apply (Qfloor_resp_le 0 x H0).
  - eapply Qle_trans; [apply Qfloor_le | exact H100].
Qed.

Lemma js_round_bounds (x : Q) : 0 <= x <= 100 -> 0 <= js_round x <= 100.
Proof.
  intros [H0 H100]. unfold js_round. split.
  - change 0 with (inject_Z 0). rewrite <- Zle_Qle.
    apply (Qfloor_resp_le 0 (x + (1 # 2))).
    setoid_replace 0 with (0 + 0) using relation Qeq by ring.
    apply Qplus_le_compat; [exact H0 | discriminate].
  - change 100 with (inject_Z 100). rewrite <- Zle_Qle.
    change 100%Z with (Qfloor (100 + (1 # 2))).
    apply Qfloor_resp_le. apply Qplus_le_compat; [exact H100 | apply Qle_refl].
Qed.

Lemma Forall_imap_from {A B} (P : A -> Prop) (R : B -> Prop)
    (f : nat -> A -> B) (l : list A) :
  (forall i x, P x -> R (f i x)) -> Forall P l -> Forall R (imap f l).
Proof.
  intros Hf Hl. apply Forall_lookup. intros i y Hy.
  rewrite list_lookup_imap in Hy.
  destruct (l !! i) as [x|] eqn:Hx; simplify_eq/=.
  apply Hf. eapply Forall_lookup_1; eassumption.
Qed.

Lemma applySeverityOverride_confidence (P : Q -> Prop)
    (os : option Severity) (rnd : MockEngine.Randomness) (ds : list DamageItem) :
  Forall (fun d => P (confidence d)) ds ->
  Forall (fun d => P (confidence d)) (MockEngine.applySeverityOverride os rnd ds).
Proof.
  intros Hds. destruct os as [[]|]; cbn [MockEngine.applySeverityOverride];
    try assumption.
  all: apply (Forall_imap_from (fun d => P (confidence d)));
    [intros i x Hx; exact Hx | try apply Forall_take; exact Hds].
Qed.

Lemma unit_draw_scaled (r : Q) (k : Z) :
  (0 <= k)%Z -> MockEngine.unit_draw r ->
  0 <= js_floor (r * inject_Z k) /\ js_floor (r * inject_Z k) <= inject_Z k.
Proof.
  intros Hk [H0 H1]. unfold js_floor.
  assert (Hk' : 0 <= inject_Z k) by (change 0 with (inject_Z 0); rewrite <- Zle_Qle; exact Hk).
  split.
  - change 0 with (inject_Z 0). rewrite <- Zle_Qle.
    apply (Qfloor_resp_le 0). apply Qmult_le_0_compat; assumption.
  - eapply Qle_trans; [apply Qfloor_le|].
    setoid_replace (inject_Z k) with (1 * inject_Z k) using relation Qeq at 2 by ring.
    apply Qmult_le_compat_r; [apply Qlt_le_weak; exact H1 | exact Hk'].
Qed.

Lemma mock_item_confidence (P : Q -> Prop) (imageCount : nat)
    (overrideConfidence : option Q) (overrideSeverity : option Severity)
    (hasDamageOverride hasInconsistencyOverride : option bool)
    (rnd : MockEngine.Randomness) :
  (forall i, P (default (75 + js_floor (MockEngine.confJitter rnd i * 20))
                        overrideConfidence)) ->
  Forall (fun d => P (confidence d))
    (damages (MockEngine.generateMockAssessment imageCount overrideConfidence
                overrideSeverity hasDamageOverride hasInconsistencyOverride rnd)).
Proof.
  intros HP. unfold MockEngine.generateMockAssessment.
  destruct hasDamageOverride as [[]|]; cbn [damages]; try constructor.
  all: apply applySeverityOverride_confidence, Forall_imap_all; intros i x; apply HP.
Qed.

Lemma mock_damages_empty_iff (imageCount : nat)
    (overrideConfidence : option Q) (overrideSeverity : option Severity)
    (hasDamageOverride hasInconsistencyOverride : option bool)
    (rnd : MockEngine.Randomness) :
  MockEngine.fair rnd ->
  damages (MockEngine.generateMockAssessment imageCount overrideConfidence
             overrideSeverity hasDamageOverride hasInconsistencyOverride rnd) = []
  <-> hasDamageOverride = Some false.
Proof.
  intros Hfair.
  pose proof (selected_nonempty imageCount overrideConfidence rnd
                (MockEngine.fair_shuffled rnd Hfair) overrideSeverity) as Hlen.
  unfold MockEngine.generateMockAssessment.
  destruct hasDamageOverride as [[]|]; cbn [damages]; split; try congruence.
  all: intros Hnil; rewrite Hnil in Hlen; simpl in Hlen; lia.
Qed.

(** C4 (as amended).  In the simulated engine the aggregate confidence is
    the configured test confidence when one is supplied (every item then
    carries it, and it replaces the no-damage default); otherwise it is
    the mean of the item confidences rounded down when damage is generated
    and 85 for a no-damage result.  The live endpoint returns the mean
    rounded to the nearest integer when items exist and 95 when there are
    none.  The aggregate lies between 0 and 100 whenever the item
    confidences and the configured test confidence do. *)
Theorem aggregate_confidence (imageCount : nat)
    (overrideConfidence : option Q) (overrideSeverity : option Severity)
    (hasDamageOverride hasInconsistencyOverride : option bool)
    (rnd : MockEngine.Randomness) (ds : list DamageItem) :
  MockEngine.fair rnd ->
  (forall c, overrideConfidence = Some c -> 0 <= c <= 100) ->
  Forall (fun d => 0 <= confidence d <= 100) ds ->
  let r := MockEngine.generateMockAssessment imageCount overrideConfidence
             overrideSeverity hasDamageOverride hasInconsistencyOverride rnd in
  (forall c, overrideConfidence = Some c ->
     aiConfidence r = c /\ Forall (fun d => confidence d = c) (damages r))
  /\ (overrideConfidence = None ->
      if bool_decide (hasDamageOverride = Some false)
      then damages r = [] /\ aiConfidence r = 85
      else damages r <> []
           /\ aiConfidence r = js_floor (mean_confidence (damages r)))
  /\ 0 <= aiConfidence r <= 100
  /\ Route.avgConfidence ds
     = match ds with [] => 95 | _ :: _ => js_round (mean_confidence ds) end
  /\ 0 <= Route.avgConfidence ds <= 100.
Proof.
  intros Hfair Hoverride Hds r.
  assert (Hgiven : forall c, overrideConfidence = Some c -> aiConfidence r = c).
  { intros c Hc. subst r. unfold MockEngine.generateMockAssessment. rewrite Hc.
    destruct hasDamageOverride as [[]|]; reflexivity. }
  assert (Hmock : overrideConfidence = None ->
            if bool_decide (hasDamageOverride = Some false)
            then damages r = [] /\ aiConfidence r = 85
            else damages r <> []
                 /\ aiConfidence r = js_floor (mean_confidence (damages r))).
  { intros Hnone.
    pose proof (mock_damages_empty_iff imageCount overrideConfidence overrideSeverity
                  hasDamageOverride hasInconsistencyOverride rnd Hfair) as Hempty.
    fold r in Hempty. case_bool_decide as Hhd.
    - split; [apply Hempty; exact Hhd|].
      subst r. rewrite Hhd, Hnone. reflexivity.
    - split; [intros Hnil; apply Hhd, Hempty, Hnil|].
      subst r. unfold MockEngine.generateMockAssessment.
      rewrite Hnone.
      destruct hasDamageOverride as [[]|]; try congruence; reflexivity. }
  assert (Hroute : Route.avgConfidence ds
            = match ds with [] => 95 | _ :: _ => js_round (mean_confidence ds) end).
  { destruct ds; reflexivity. }
  split; [|split; [exact Hmock|split; [|split; [exact Hroute|]]]].
  - intros c Hc. split; [apply Hgiven, Hc|].
    apply (mock_item_confidence (fun q => q = c)). intros i.
    rewrite Hc. reflexivity.
  - destruct overrideConfidence as [c|] eqn:Hoc.
    + rewrite (Hgiven c eq_refl). apply Hoverride. reflexivity.
    + specialize (Hmock eq_refl). case_bool_decide.
      * destruct Hmock as [_ ->]. split; discriminate.
      * destruct Hmock as [Hne ->]. apply js_floor_bounds.
        apply mean_confidence_bounds; [exact Hne|].
        apply (mock_item_confidence (fun q => 0 <= q <= 100)). intros i. simpl.
        destruct (unit_draw_scaled (MockEngine.confJitter rnd i) 20 ltac:(lia)
                    (MockEngine.fair_confJitter rnd Hfair i)) as [Hlo Hhi].
        split.
        -- setoid_replace 0 with (0 + 0) using relation Qeq by ring.
           apply Qplus_le_compat; [discriminate | exact Hlo].
        -- setoid_replace 100 with (75 + 25) using relation Qeq by ring.
           apply Qplus_le_compat; [apply Qle_refl|].
           eapply Qle_trans; [exact Hhi | discriminate].
  - rewrite Hroute. destruct ds as [|d ds']; [split; discriminate|].
    apply js_round_bounds, mean_confidence_bounds; [congruence | exact Hds].
Qed.
Lemma plainRandomness_fair : MockEngine.fair plainRandomness.
Proof.
  constructor; simpl; try intros i; unfold MockEngine.unit_draw;
    try (destruct (Nat.even i));
    try (split; [discriminate | reflexivity]).
  apply Permutation_refl.
Qed.

(** Witness of C4: three images, no test controls; the items carry the
    confidences 85, 80 and 85, whose mean 250/3 is rounded down to 83. *)
Lemma aggregate_confidence_witness :
  let r := MockEngine.generateMockAssessment 3 None None None None plainRandomness in
  MockEngine.fair plainRandomness
  /\ (forall c : Q, @None Q = Some c -> 0 <= c <= 100)
  /\ Forall (fun d => 0 <= confidence d <= 100) [sampleBumper; sampleHood]
  /\ aiConfidence r = js_floor (mean_confidence (damages r))
  /\ confidence <$> damages r = [85; 80; 85]
  /\ aiConfidence r = 83
  /\ Route.avgConfidence [sampleBumper; sampleHood] = js_round (mean_confidence [sampleBumper; sampleHood]).
Proof.
  intros r.
  assert (H1 : forall c : Q, @None Q = Some c -> 0 <= c <= 100) by discriminate.
  assert (H2 : Forall (fun d => 0 <= confidence d <= 100) [sampleBumper; sampleHood]).
  { repeat constructor; discriminate. }
  destruct (aggregate_confidence 3 None None None None plainRandomness
              [sampleBumper; sampleHood] plainRandomness_fair H1 H2)
    as (_ & Hmock & _ & Hroute & _).
  specialize (Hmock eq_refl). simpl in Hmock. destruct Hmock as [_ Hmock].
  split; [exact plainRandomness_fair|]. split; [exact H1|]. split; [exact H2|].
  split; [exact Hmock|]. split; [vm_compute; reflexivity|].
  split; [vm_compute; reflexivity | exact Hroute].
Defined.

(** C4, counterexample to the claim as stated: for the confidences 90 and
    91 the live endpoint returns 91 although the mean 90.5 rounded down is
    90; a simulated no-damage result carries the configured confidence (40
    here) instead of a fixed default; and the two no-damage defaults
    differ (85 in the simulated engine, 95 at the endpoint). *)
Lemma aggregate_confidence_counterexample :
  let ds := [sampleItem "Hood" "Scratch" Minor 300 90;
             sampleItem "Grille" "Broken" Minor 200 91] in
  let r := MockEngine.generateMockAssessment 2 (Some 40) (Some Moderate)
             (Some false) (Some false) plainRandomness in
  mean_confidence ds == 181 # 2
  /\ js_floor (mean_confidence ds) == 90
  /\ Route.avgConfidence ds == 91
  /\ ~ Route.avgConfidence ds == js_floor (mean_confidence ds)
  /\ damages r = []
  /\ aiConfidence r == 40
  /\ aiConfidence (MockEngine.generateMockAssessment 2 None None (Some false) None
                     plainRandomness) == 85
  /\ Route.avgConfidence [] == 95.
Proof.
  vm_compute. repeat split; try reflexivity; discriminate.
Qed.
End ConfidenceFacts.

(** ** Feedback metrics *)

Section MetricsFacts.
Import FeedbackLoop.

Lemma delta_as_product (f o : Q) :
  ((f - o) / o) * 100 == (f - o) * (/ o * 100).
Proof. unfold Qdiv. ring. Qed.

Lemma scale_pos (o : Q) : 0 < o -> 0 < / o * 100.
Proof.
  intros Ho. apply Qmult_lt_0_compat; [apply Qinv_lt_0_compat; exact Ho | reflexivity].
Qed.

Lemma delta_pos_iff (f o : Q) : 0 < o -> (0 < ((f - o) / o) * 100 <-> o < f).
Proof.
  intros Ho. rewrite delta_as_product. pose proof (scale_pos o Ho) as Hk. split.
  - intros Hd. apply Qnot_le_lt. intros Hle.
    apply (Qlt_not_le _ _ Hd).
    setoid_replace 0 with (0 * (/ o * 100)) using relation Qeq by ring.
    apply Qmult_le_compat_r; [|apply Qlt_le_weak; exact Hk].
    apply (Qplus_le_l _ _ o). ring_simplify. exact Hle.
  - intros Hlt. apply Qmult_lt_0_compat; [|exact Hk].
    apply (Qplus_lt_l _ _ o). ring_simplify. exact Hlt.
Qed.

Lemma delta_neg_iff (f o : Q) : 0 < o -> (((f - o) / o) * 100 < 0 <-> f < o).
Proof.
  intros Ho. rewrite delta_as_product. pose proof (scale_pos o Ho) as Hk. split.
  - intros Hd. apply Qnot_le_lt. intros Hle.
    apply (Qlt_not_le _ _ Hd).
    apply Qmult_le_0_compat; [|apply Qlt_le_weak; exact Hk].
    apply (Qplus_le_l _ _ o). ring_simplify. exact Hle.
  - intros Hlt.
    setoid_replace 0 with (0 * (/ o * 100)) using relation Qeq by ring.
    apply Qmult_lt_compat_r; [exact Hk|].
    apply (Qplus_lt_l _ _ o). ring_simplify. exact Hlt.
Qed.

Lemma length_pos_iff {A} (l : list A) : (0 <? length l)%nat = true <-> l <> [].
Proof.
  destruct l as [|x l]; simpl; split; intros H; try reflexivity; try discriminate.
  exfalso. apply H. reflexivity.
Qed.

(** C8 (as amended).  [recordFeedback] appends the entry with metrics
    computed at that moment:
    - the delta is (finalTotal - originalTotal) / originalTotal * 100 when
      originalTotal is positive and 0 otherwise;
    - wasOverridden holds exactly when there is a cost adjustment or a
      removed item;
    - the direction is 'none' whenever no override occurred; with an
      override it is 'increased' when the final total is above the original
      one, in particular for a positive delta, and 'decreased' when it is
      below, in particular for a negative delta;
    - confidenceWasAccurate holds exactly when (aiConfidence >= 85 and
      |delta| <= 15) or (aiConfidence < 85 and |delta| > 15). *)
Theorem recordFeedback_metrics (stamp now : string) (e : Entry) (store : Store) :
  let full := (recordFeedback stamp now e store).1 in
  let m := metrics full in
  let originalTotal := totalEstimate (aiAssessment e) in
  let final := finalTotal (agentModifications e) in
  let delta := estimateAccuracyDelta m in
  (recordFeedback stamp now e store).2 = store ++ [full]
  /\ entry full = e
  /\ m = calculateMetrics e
  /\ (0 < originalTotal -> delta == ((final - originalTotal) / originalTotal) * 100)
  /\ (originalTotal <= 0 -> delta == 0)
  /\ (wasOverridden m = true <->
        costAdjustments (agentModifications e) <> []
        \/ removedItems (agentModifications e) <> [])
  /\ (wasOverridden m = false -> overrideDirection m = none)
  /\ (wasOverridden m = true ->
        (originalTotal < final -> overrideDirection m = increased)
        /\ (final < originalTotal -> overrideDirection m = decreased)
        /\ (0 < delta -> overrideDirection m = increased)
        /\ (delta < 0 -> overrideDirection m = decreased))
  /\ (confidenceWasAccurate m = true <->
        (85 <= aiConfidence (aiAssessment e) /\ Qabs delta <= 15)
        \/ (aiConfidence (aiAssessment e) < 85 /\ 15 < Qabs delta)).
Proof.
  intros full m originalTotal final delta.
  split; [reflexivity|]. split; [reflexivity|]. split; [reflexivity|].
  assert (Hpos : 0 < originalTotal ->
                 delta == ((final - originalTotal) / originalTotal) * 100).
  { intros Ho. subst delta m full. simpl.
    fold originalTotal final.
    apply Qgtb_gt in Ho. rewrite Ho. reflexivity. }
  assert (Hzero : originalTotal <= 0 -> delta == 0).
  { intros Ho. subst delta m full. simpl.
    fold originalTotal final.
    apply Qgtb_le in Ho. rewrite Ho. reflexivity. }
  assert (Hover : wasOverridden m = true <->
            costAdjustments (agentModifications e) <> []
            \/ removedItems (agentModifications e) <> []).
  { subst m full. simpl. rewrite orb_true_iff, !length_pos_iff. tauto. }
  assert (Hdir : overrideDirection m
                 = if negb (wasOverridden m) then none
                   else if Qgtb final originalTotal then increased else decreased)
    by reflexivity.
  assert (Hup : 0 < delta -> originalTotal < final).
  { intros Hd. destruct (Qlt_le_dec 0 originalTotal) as [Ho|Ho].
    - rewrite (Hpos Ho) in Hd.
      exact (proj1 (delta_pos_iff final originalTotal Ho) Hd).
    - rewrite (Hzero Ho) in Hd. discriminate. }
  assert (Hdown : delta < 0 -> final < originalTotal).
  { intros Hd. destruct (Qlt_le_dec 0 originalTotal) as [Ho|Ho].
    - rewrite (Hpos Ho) in Hd.
      exact (proj1 (delta_neg_iff final originalTotal Ho) Hd).
    - rewrite (Hzero Ho) in Hd. discriminate. }
  split; [exact Hpos|]. split; [exact Hzero|]. split; [exact Hover|].
  split; [|split].
  - intros Hno. rewrite Hdir, Hno. reflexivity.
  - intros Hyes. rewrite Hdir, Hyes. cbn [negb].
    assert (Hinc : originalTotal < final ->
                   (if Qgtb final originalTotal then increased else decreased) = increased).
    { intros Hlt. apply Qgtb_gt in Hlt. rewrite Hlt. reflexivity. }
    assert (Hdec : final < originalTotal ->
                   (if Qgtb final originalTotal then increased else decreased) = decreased).
    { intros Hlt. apply Qlt_le_weak, Qgtb_le in Hlt. rewrite Hlt. reflexivity. }
    repeat split; auto.
  - change (confidenceWasAccurate m)
      with (if Qgeb (aiConfidence (aiAssessment e)) 85
            then negb (Qgtb (Qabs delta) 15) else Qgtb (Qabs delta) 15).
    destruct (Qgeb (aiConfidence (aiAssessment e)) 85) eqn:Hconf;
      [apply Qgeb_ge in Hconf | apply Qgeb_lt in Hconf].
    + rewrite negb_true_iff, Qgtb_le. split; [tauto|].
      intros [[_ H]|[H _]]; [exact H|].
      exfalso. apply (Qlt_not_le _ _ H). exact Hconf.
    + rewrite Qgtb_gt. split; [tauto|].
      intros [[H _]|[_ H]]; [|exact H].
      exfalso. apply (Qlt_not_le _ _ Hconf). exact H.
Qed.
End MetricsFacts.

Section MetricsExamples.
Import FeedbackLoop.

(** Witness of C8: a $1,000 estimate adjusted to $1,200. *)
Lemma recordFeedback_metrics_witness :
  let e := sampleEntry 1000 1200 90 [sampleAdjustment 500 700] [] agent_reviewed in
  let m := metrics (recordFeedback "A1" "now" e []).1 in
  0 < totalEstimate (aiAssessment e)
  /\ wasOverridden m = true
  /\ totalEstimate (aiAssessment e) < finalTotal (agentModifications e)
  /\ estimateAccuracyDelta m == 20
  /\ overrideDirection m = increased
  /\ confidenceWasAccurate m <> true.
Proof.
  intros e m.
  destruct (recordFeedback_metrics "A1" "now" e [])
    as (_ & _ & _ & Hpos & _ & _ & _ & Hdir & Hacc).
  assert (H0 : 0 < totalEstimate (aiAssessment e)) by reflexivity.
  assert (H1 : wasOverridden m = true) by reflexivity.
  assert (H2 : totalEstimate (aiAssessment e) < finalTotal (agentModifications e))
    by reflexivity.
  split; [exact H0|]. split; [exact H1|]. split; [exact H2|]. split; [|split].
  - etransitivity; [exact (Hpos H0)|]. vm_compute. reflexivity.
  - exact (proj1 (Hdir H1) H2).
  - intros Hyes. apply Hacc in Hyes.
    destruct Hyes as [[_ Hsmall]|[Hlow _]].
    + vm_compute in Hsmall. apply Hsmall. reflexivity.
    + vm_compute in Hlow. discriminate.
Defined.

(** Without a recorded adjustment or removal the direction is 'none'
    even though the totals differ. *)
Example unrecorded_change_has_no_direction :
  let m := calculateMetrics (sampleEntry 1000 1200 90 [] [] quick_approved) in
  estimateAccuracyDelta m == 20 /\ wasOverridden m = false
  /\ overrideDirection m = none.
Proof. vm_compute. repeat split; reflexivity. Qed.

(** C8, counterexample to the claim as stated: with an original total of
    0 the delta is 0, yet an override that ends at $200 is reported as
    'increased', not as the direction of a zero delta. *)
Lemma direction_is_not_the_sign_of_delta :
  let m := calculateMetrics
             (sampleEntry 0 200 90 [sampleAdjustment 0 200] [] agent_reviewed) in
  wasOverridden m = true
  /\ estimateAccuracyDelta m == 0
  /\ overrideDirection m = increased
  /\ overrideDirection m <> none.
Proof. vm_compute. repeat split; try reflexivity; discriminate. Qed.

(** An override that leaves the total unchanged is reported as 'decreased'. *)
Example unchanged_total_reported_decreased :
  let m := calculateMetrics
             (sampleEntry 1000 1000 90 [sampleAdjustment 500 500] [] agent_reviewed) in
  wasOverridden m = true
  /\ estimateAccuracyDelta m == 0
  /\ overrideDirection m = decreased.
Proof. vm_compute. repeat split; reflexivity. Qed.
End MetricsExamples.

(** ** Feedback statistics *)

Section StatsFacts.
Import FeedbackLoop.

Lemma typeKey_inj (t t' : InteractionType) : typeKey t = typeKey t' -> t = t'.
Proof. destruct t, t'; simpl; intros H; try reflexivity; discriminate. Qed.

Lemma countType_cons (t : InteractionType) (f : FeedbackEntry) (store : Store) :
  countType t (f :: store)
  = ((if decide (interactionType (entry f) = t) then 1 else 0) + countType t store)%nat.
Proof.
  unfold countType. rewrite filter_cons.
  destruct (decide (interactionType (entry f) = t)); reflexivity.
Qed.

Lemma foldl_tally (store : Store) :
  forall (m : gmap string nat) (t : InteractionType),
    foldl tally m store !! typeKey t
    = match countType t store with
      | O => m !! typeKey t
      | S c => Some (default 0 (m !! typeKey t) + S c)%nat
      end.
Proof.
  induction store as [|f rest IH]; intros m t; [reflexivity|].
  cbn [foldl]. rewrite IH, countType_cons. unfold tally.
  destruct (decide (interactionType (entry f) = t)) as [->|Hne].
  - rewrite lookup_insert_eq. simpl.
    destruct (countType t rest); f_equal; lia.
  - rewrite lookup_insert_ne; [reflexivity|].
    intros Heq. apply typeKey_inj in Heq. contradiction.
Qed.

Lemma fast_count (store : Store) :
  length (filter (fun f => isFastApproved (interactionType (entry f)) = true) store)
  = (countType auto_approved store + countType quick_approved store)%nat.
Proof.
  induction store as [|f rest IH]; [reflexivity|].
  rewrite !countType_cons, filter_cons.
  destruct (interactionType (entry f)) eqn:Ht; simpl;
    repeat case_decide; try congruence; simpl; rewrite ?IH; lia.
Qed.

Lemma rate_bounds (c n : nat) :
  (c <= n)%nat -> (0 < n)%nat -> 0 <= (ofNat c / ofNat n) * 100 <= 100.
Proof.
  intros Hc Hn. unfold ofNat.
  pose proof (ofNat_pos n Hn) as Hpos.
  assert (H0 : 0 <= inject_Z (Z.of_nat c))
    by (change 0 with (inject_Z 0); rewrite <- Zle_Qle; lia).
  assert (Hle : inject_Z (Z.of_nat c) <= inject_Z (Z.of_nat n))
    by (rewrite <- Zle_Qle; lia).
  split.
  - apply Qmult_le_0_compat; [|discriminate].
    apply Qle_shift_div_l; [exact Hpos|]. ring_simplify. exact H0.
  - setoid_replace 100 with (1 * 100) using relation Qeq at 2 by ring.
    apply Qmult_le_compat_r; [|discriminate].
    apply Qle_shift_div_r; [exact Hpos|]. ring_simplify. exact Hle.
Qed.

Lemma sum_by_nonneg {A} (f : A -> Q) (xs : list A) :
  (forall x, 0 <= f x) -> 0 <= sum_by f xs.
Proof.
  intros Hf. induction xs as [|x xs IH]; [discriminate|].
  rewrite sum_by_cons.
  setoid_replace 0 with (0 + 0) using relation Qeq by ring.
  apply Qplus_le_compat; [apply Hf | exact IH].
Qed.

(** The recent list holds the last entries of the log in reverse order. *)
Lemma recent_lookup (store : Store) (i : nat) :
  (i < Nat.min 10 (length store))%nat ->
  reverse (drop (length store - 10) store) !! i = store !! (length store - S i)%nat.
Proof.
  intros Hi. rewrite reverse_lookup by (rewrite length_drop; lia).
  rewrite lookup_drop, length_drop. f_equal. lia.
Qed.

(** C9.  On an empty log [getFeedbackStats] returns 0 entries, 0 for
    every rate and average, an empty grouping and an empty recent list.
    On a non-empty log it returns the number of entries, the percentage
    of auto- or quick-approved entries, the percentage of overridden
    entries, the mean absolute delta, the percentage of entries whose
    confidence was accurate, the number of entries of each interaction
    type, and the last 10 entries, newest first.  The function is total
    and every percentage lies between 0 and 100. *)
Theorem getFeedbackStats_spec (store : Store) :
  let s := getFeedbackStats store in
  let n := length store in
  (store = [] -> s = emptyStats)
  /\ totalAssessments s = n
  /\ (store <> [] ->
      autoApprovedRate s
        == (ofNat (countType auto_approved store + countType quick_approved store)
            / ofNat n) * 100
      /\ overrideRate s
         == (ofNat (length (filter (fun f => wasOverridden (metrics f) = true) store))
             / ofNat n) * 100
      /\ averageAccuracyDelta s
         == sum_by (fun f => Qabs (estimateAccuracyDelta (metrics f))) store / ofNat n
      /\ confidenceCalibration s
         == (ofNat (length (filter (fun f => confidenceWasAccurate (metrics f) = true)
                              store))
             / ofNat n) * 100)
  /\ (0 <= autoApprovedRate s <= 100
      /\ 0 <= overrideRate s <= 100
      /\ 0 <= confidenceCalibration s <= 100
      /\ 0 <= averageAccuracyDelta s)
  /\ (forall t, byInteractionType s !! typeKey t
                = match countType t store with O => None | S c => Some (S c) end)
  /\ length (recentFeedback s) = Nat.min 10 n
  /\ (forall i, (i < Nat.min 10 n)%nat ->
                recentFeedback s !! i = store !! (n - S i)%nat).
Proof.
  intros s n. subst s n.
  destruct store as [|f0 rest] eqn:Hstore.
  { repeat split; try reflexivity; try discriminate; try congruence.
    all: intros i Hi; simpl in Hi; lia. }
  rewrite <- Hstore.
  assert (Hne : store <> []) by (rewrite Hstore; discriminate).
  assert (Hlen : (0 < length store)%nat) by (rewrite Hstore; simpl; lia).
  unfold getFeedbackStats.
  replace (length store =? 0)%nat with false
    by (symmetry; apply Nat.eqb_neq; lia).
  cbn [totalAssessments autoApprovedRate overrideRate averageAccuracyDelta
       confidenceCalibration byInteractionType recentFeedback].
  split; [congruence|]. split; [reflexivity|]. split; [|split; [|split; [|split]]].
  - intros _. rewrite fast_count. repeat split; reflexivity.
  - repeat split; try (apply rate_bounds; [apply length_filter | exact Hlen]).
    apply Qle_shift_div_l; [apply ofNat_pos; exact Hlen|].
    ring_simplify. apply sum_by_nonneg. intros x. apply Qabs_nonneg.
  - intros t. rewrite foldl_tally, lookup_empty. simpl.
    destruct (countType t store); reflexivity.
  - rewrite length_reverse, length_drop. lia.
  - intros i Hi. apply recent_lookup. exact Hi.
Qed.
End StatsFacts.

Section StatsExamples.
Import FeedbackLoop.

(** Witness of C9: the empty log and a log of three entries. *)
Lemma getFeedbackStats_spec_witness :
  getFeedbackStats [] = emptyStats
  /\ sampleLog <> []
  /\ totalAssessments (getFeedbackStats sampleLog) = 3%nat
  /\ autoApprovedRate (getFeedbackStats sampleLog) == 200 # 3
  /\ byInteractionType (getFeedbackStats sampleLog) !! "quick_approved" = Some 2%nat
  /\ byInteractionType (getFeedbackStats sampleLog) !! "rejected" = None
  /\ id <$> recentFeedback (getFeedbackStats sampleLog) = ["FB-A3"; "FB-A2"; "FB-A1"].
Proof.
  destruct (getFeedbackStats_spec []) as (Hempty & _).
  destruct (getFeedbackStats_spec sampleLog)
    as (_ & Htotal & Hrates & _ & Htypes & _ & _).
  assert (Hne : sampleLog <> []) by (vm_compute; discriminate).
  destruct (Hrates Hne) as (Hauto & _).
  split; [exact (Hempty eq_refl)|]. split; [exact Hne|].
  split; [rewrite Htotal; reflexivity|].
  split; [etransitivity; [exact Hauto|]; vm_compute; reflexivity|].
  split; [etransitivity; [exact (Htypes quick_approved)|]; vm_compute; reflexivity|].
  split; [etransitivity; [exact (Htypes rejected)|]; vm_compute; reflexivity|].
  vm_compute. reflexivity.
Defined.

(** A recorded entry is the first of the recent list. *)
Lemma recorded_entry_is_newest (stamp now : string) (e : Entry) (store : Store) :
  let r := recordFeedback stamp now e store in
  recentFeedback (getFeedbackStats r.2) !! 0%nat = Some r.1.
Proof.
  intros r.
  assert (Hlen : length r.2 = S (length store)).
  { subst r. simpl. rewrite length_app. simpl. lia. }
  unfold getFeedbackStats.
  replace (length r.2 =? 0)%nat with false
    by (symmetry; apply Nat.eqb_neq; lia).
  cbn [recentFeedback].
  rewrite recent_lookup by (rewrite Hlen; lia).
  rewrite Hlen. subst r. simpl.
  rewrite lookup_app_r by lia.
  match goal with |- [_] !! ?k = _ => replace k with 0%nat by lia end.
  reflexivity.
Qed.
End StatsExamples.

(** ** Failure of the external assessment call *)

Section FallbackFacts.
Import Assessment.

(** The [try] block succeeds only on a JSON reply of the endpoint; every
    other course ends in the [catch] block. *)
Lemma attempt_success_iff (props : Props)
    (humanMarkers : option (list Route.DamageMarker)) (w : Run) (p : Route.Payload) :
  (attempt props humanMarkers w).1 = inl p <->
  exists imageData,
    conversion w = Converted imageData
    /\ fetch w (requestBody props imageData humanMarkers) = Replies (Route.Json p).
Proof.
  unfold attempt. split.
  - destruct (conversion w) as [imageData|e]; simpl; [|discriminate].
    destruct (fetch w (requestBody props imageData humanMarkers)) as [e|[q|c msg]|ok msg]
      eqn:Hfetch; simpl; try discriminate.
    intros [= ->]. eauto.
  - intros (imageData & -> & Hfetch). simpl. rewrite Hfetch. reflexivity.
Qed.

(** A reply of the model that is not JSON makes the handler answer with
    an error, which the client throws. *)
Lemma malformed_reply_is_a_failure
    (anthropic : list Route.Image -> string -> Route.ModelReply)
    (parse : string -> option Route.Analysis) (typeError text : string)
    (req : Route.Request) :
  Route.images req <> [] ->
  anthropic (Route.images req) (Route.userPrompt (Route.vehicleInfo req))
    = Route.ModelContent (Some text) ->
  parse text = None ->
  Route.POST true anthropic parse typeError req
    = Route.ErrorJson 500 "Invalid response format from AI".
Proof.
  intros Himgs Hreply Hparse. unfold Route.POST.
  rewrite bool_decide_eq_false_2 by exact Himgs. simpl.
  rewrite Hreply, Hparse. reflexivity.
Qed.

(** C10.  In live mode, whenever the external call fails (the images
    cannot be converted, the request is rejected, the reply is an error or
    is not JSON), the screen ends up showing an assessment synthesized by
    the generator of test mode, annotated with an error note; the endpoint
    was called at most once and the workflow is not blocked. *)
Theorem external_failure_falls_back (props : Props)
    (humanMarkers : option (list Route.DamageMarker)) (w : Run) (st : State)
    (e : Thrown) :
  mode props = live ->
  MockEngine.fair (rnd w) ->
  (attempt props humanMarkers w).1 = inr e ->
  let out := analyzeImages props humanMarkers w st in
  let mock := MockEngine.generateMockAssessment (imageCount props)
                None None None None (rnd w) in
  let message := match e with ErrorObject m => m | OtherValue => "Unknown error" end in
  exists a,
    assessment out.1 = Some a
    /\ damages a = damages mock
    /\ totalEstimate a = totalEstimate mock
    /\ aiConfidence a = aiConfidence mock
    /\ overallSeverity a = overallSeverity mock
    /\ hasDamage a = true
    /\ recommendations a = recommendations mock
    /\ summary a = Some ("[API Error] " +:+ message +:+ " - using simulated data")
    /\ is_Some (error out.1)
    /\ isAnalyzing out.1 = false
    /\ needsHumanInput out.1 = false
    /\ (exists c b, render out.1
                    = DamageView (getAdjustedTotal (Some a) (overrides st)) c b)
    /\ (length out.2 <= 1)%nat
    /\ Forall (fun eff => exists req, eff = CallApi req) out.2.
Proof.
  intros Hmode Hfair Hfail out mock message.
  subst out. unfold analyzeImages. rewrite Hmode. unfold analyzeLive.
  destruct (attempt props humanMarkers w) as [[p|e'] effects] eqn:Hatt;
    simpl in Hfail; [discriminate|].
  injection Hfail as ->. cbn [fst snd].
  assert (Heffects : (length effects <= 1)%nat
                     /\ Forall (fun eff => exists req, eff = CallApi req) effects).
  { unfold attempt in Hatt. destruct (conversion w) as [imageData|e0].
    - injection Hatt as _ <-. split; [simpl; lia | repeat constructor; eauto].
    - injection Hatt as _ <-. split; [simpl; lia | constructor]. }
  destruct Heffects as [Hlen Hcalls].
  assert (Hne : damages mock <> []).
  { intros Hnil.
    apply (mock_damages_empty_iff (imageCount props) None None None None (rnd w) Hfair)
      in Hnil. discriminate. }
  eexists. split; [reflexivity|].
  cbn [damages totalEstimate aiConfidence overallSeverity hasDamage recommendations
       summary fallbackResult].
  repeat (split; [reflexivity|]).
  split; [simpl; eauto|].
  split; [reflexivity|]. split; [reflexivity|].
  split; [|split; assumption].
  unfold render. cbn [settle isAnalyzing needsHumanInput assessment hasStartedAnalysis
                      overrides hasDamage damages fallbackResult].
  rewrite bool_decide_eq_true_2 by eauto.
  rewrite !andb_false_r. fold mock.
  replace (hasDamage mock) with true by reflexivity.
  destruct (damages mock) as [|d ds] eqn:Hds; [congruence|].
  cbn [negb orb length Nat.eqb]. eauto.
Qed.

(** Witness of C10: the model answers with prose instead of JSON. *)
Lemma external_failure_falls_back_witness :
  let w := liveRun (endpoint garbledModel sampleParse) in
  let out := analyzeImages liveProps None w (startWith (test initialState)) in
  mode liveProps = live
  /\ MockEngine.fair (rnd w)
  /\ (attempt liveProps None w).1 = inr (ErrorObject "Invalid response format from AI")
  /\ (exists a, assessment out.1 = Some a
                /\ summary a
                   = Some "[API Error] Invalid response format from AI - using simulated data")
  /\ error out.1 = Some "Invalid response format from AI"
  /\ (length out.2 <= 1)%nat.
Proof.
  intros w out.
  assert (H1 : mode liveProps = live) by reflexivity.
  assert (H2 : MockEngine.fair (rnd w)) by exact plainRandomness_fair.
  assert (H3 : (attempt liveProps None w).1
               = inr (ErrorObject "Invalid response format from AI"))
    by (vm_compute; reflexivity).
  destruct (external_failure_falls_back liveProps None w
              (startWith (test initialState)) _ H1 H2 H3)
    as (a & Ha & _ & _ & _ & _ & _ & _ & Hsum & _ & _ & _ & _ & Hlen & _).
  split; [exact H1|]. split; [exact H2|]. split; [exact H3|].
  split; [exists a; split; [exact Ha | exact Hsum]|].
  split; [vm_compute; reflexivity | exact Hlen].
Defined.
End FallbackFacts.

(** * Further properties *)

(** ** The feedback log: training candidates and statistics *)

Section FeedbackLogFacts.
Import FeedbackLoop.





Lemma countType_total (store : Store) :
  (countType auto_approved store + countType quick_approved store
   + countType agent_reviewed store + countType rejected store)%nat = length store.
Proof.
  induction store as [|f rest IH]; [reflexivity|].
  rewrite !countType_cons. cbn [length].
  destruct (interactionType (entry f)); repeat case_decide; try congruence; lia.
Qed.

(** X2. The per-type counts reported by [getFeedbackStats] add up to the
    reported number of assessments, and no other key is present. *)
Theorem byInteractionType_adds_up (store : Store) :
  let s := getFeedbackStats store in
  let count t := default 0%nat (byInteractionType s !! typeKey t) in
  (count auto_approved + count quick_approved + count agent_reviewed
   + count rejected)%nat = totalAssessments s
  /\ forall k, is_Some (byInteractionType s !! k) -> exists t, k = typeKey t.
Proof.
  intros s count. subst s count. unfold getFeedbackStats.
  destruct (length store =? 0)%nat eqn:Hlen.
  - cbn [byInteractionType totalAssessments]. split.
    + rewrite !lookup_empty. reflexivity.
    + intros k [x Hx]. rewrite lookup_empty in Hx. discriminate.
  - cbn [byInteractionType totalAssessments]. split.
    + rewrite !foldl_tally, !lookup_empty. rewrite <- (countType_total store).
      destruct (countType auto_approved store), (countType quick_approved store),
        (countType agent_reviewed store), (countType rejected store); simpl; lia.
    + clear Hlen. intros k.
      assert (Hgen : forall m : gmap string nat,
                 is_Some (foldl tally m store !! k) ->
                 is_Some (m !! k) \/ exists t, k = typeKey t).
      { induction store as [|f rest IH]; intros m Hk; [left; exact Hk|].
        cbn [foldl] in Hk. apply IH in Hk. destruct Hk as [Hk|Hk]; [|right; exact Hk].
        unfold tally in Hk.
        destruct (decide (typeKey (interactionType (entry f)) = k)) as [<-|Hne].
        - right. eauto.
        - rewrite lookup_insert_ne in Hk by exact Hne. left. exact Hk. }
      intros Hk. destruct (Hgen ∅ Hk) as [[x Hx]|Ht]; [|exact Ht].
      rewrite lookup_empty in Hx. discriminate.
Qed.

(** X3. After [recordFeedback] the statistics count one more assessment
    and list the new entry first, followed by the nine most recent of the
    entries listed before. *)
Theorem stats_after_record (stamp now : string) (e : Entry) (store : Store) :
  let r := recordFeedback stamp now e store in
  totalAssessments (getFeedbackStats r.2) = S (totalAssessments (getFeedbackStats store))
  /\ recentFeedback (getFeedbackStats r.2)
     = r.1 :: take 9 (recentFeedback (getFeedbackStats store)).
Proof.
  intros r. subst r. cbn [recordFeedback fst snd].
  set (full := {| id := "FB-" +:+ stamp; timestamp := now; entry := e;
                  metrics := calculateMetrics e |}).
  unfold getFeedbackStats at 1 3.
  replace (length (store ++ [full]) =? 0)%nat with false
    by (symmetry; apply Nat.eqb_neq; rewrite length_app; simpl; lia).
  cbn [totalAssessments recentFeedback]. rewrite length_app. cbn [length].
  split.
  - unfold getFeedbackStats. destruct (length store =? 0)%nat eqn:Hz.
    + apply Nat.eqb_eq in Hz. rewrite Hz. reflexivity.
    + cbn [totalAssessments]. lia.
  - unfold getFeedbackStats. destruct (length store =? 0)%nat eqn:Hz.
    + apply Nat.eqb_eq, length_zero_iff_nil in Hz. subst store. reflexivity.
    + cbn [recentFeedback].
      rewrite take_reverse, length_drop, drop_drop.
      destruct (decide (length store < 10)%nat) as [Hshort|Hlong].
      * replace (length store + 1 - 10)%nat with 0%nat by lia.
        replace (length store - 10 + (length store - (length store - 10) - 9))%nat
          with 0%nat by lia.
        rewrite !drop_0, reverse_app. reflexivity.
      * replace (length store - 10 + (length store - (length store - 10) - 9))%nat
          with (length store + 1 - 10)%nat by lia.
        rewrite drop_app_le by lia. rewrite reverse_app. reflexivity.
Qed.
End FeedbackLogFacts.

(** ** The simulated engine: item counts, cost ranges and flags *)

Section MockRangeFacts.
Import MockEngine.

Lemma fair_shuffled_length (rnd : Randomness) : fair rnd -> length (shuffled rnd) = 8%nat.
Proof. intros Hfair. rewrite <- (Permutation_length (fair_shuffled rnd Hfair)). reflexivity. Qed.

Lemma mock_damages_length (imageCount : nat) (overrideConfidence : option Q)
    (overrideSeverity : option Severity)
    (hasDamageOverride hasInconsistencyOverride : option bool) (rnd : Randomness) :
  fair rnd ->
  length (damages (generateMockAssessment imageCount overrideConfidence overrideSeverity
                     hasDamageOverride hasInconsistencyOverride rnd))
  = match hasDamageOverride, overrideSeverity with
    | Some false, _ => 0
    | _, Some Minor => 2
    | _, _ => Nat.min (Nat.max 2 imageCount) 8
    end%nat.
Proof.
  intros Hfair. pose proof (fair_shuffled_length rnd Hfair) as Hlen.
  unfold generateMockAssessment.
  destruct hasDamageOverride as [[]|], overrideSeverity as [[]|];
    cbn [damages applySeverityOverride];
    repeat first [rewrite length_imap | rewrite length_take];
    rewrite ?Hlen; change (length damageTypes) with 8%nat;
    try reflexivity; lia.
Qed.

(** X4. A simulated assessment with damage has min(max(2, images), 8)
    items, and exactly two when the severity control is Minor; a no-damage
    assessment has none.  So it never has fewer than 2 or more than 8. *)
Theorem mock_item_count (imageCount : nat) (overrideConfidence : option Q)
    (overrideSeverity : option Severity)
    (hasDamageOverride hasInconsistencyOverride : option bool) (rnd : Randomness) :
  fair rnd ->
  let r := generateMockAssessment imageCount overrideConfidence overrideSeverity
             hasDamageOverride hasInconsistencyOverride rnd in
  length (damages r)
  = match hasDamageOverride, overrideSeverity with
    | Some false, _ => 0
    | _, Some Minor => 2
    | _, _ => Nat.min (Nat.max 2 imageCount) 8
    end%nat
  /\ (hasDamage r = true -> (2 <= length (damages r) <= 8)%nat).
Proof.
  intros Hfair r.
  pose proof (mock_damages_length imageCount overrideConfidence overrideSeverity
                hasDamageOverride hasInconsistencyOverride rnd Hfair) as Hcount.
  fold r in Hcount. split; [exact Hcount|].
  intros Hdmg. rewrite Hcount.
  destruct hasDamageOverride as [[]|]; try discriminate Hdmg;
    destruct overrideSeverity as [[]|]; lia.
Qed.

Lemma mock_item_count_witness :
  fair plainRandomness
  /\ length (damages (generateMockAssessment 5 None None None None plainRandomness)) = 5%nat
  /\ length (damages (generateMockAssessment 5 None (Some Minor) None None plainRandomness))
     = 2%nat.
Proof.
  split; [exact plainRandomness_fair|]. split.
  - exact (proj1 (mock_item_count 5 None None None None plainRandomness plainRandomness_fair)).
  - exact (proj1 (mock_item_count 5 None (Some Minor) None None plainRandomness
                    plainRandomness_fair)).
Defined.

Lemma repriced_cost_bounds (s : Severity) (parts hours pl ph hl hh : Q) (d : DamageItem) :
  pl <= parts <= ph -> hl <= hours <= hh ->
  pl + hl * LABOR_RATE <= estimatedCost (repriced s parts hours d) <= ph + hh * LABOR_RATE.
Proof.
  intros [Hp1 Hp2] [Hh1 Hh2]. cbn [estimatedCost repriced]. split.
  - apply Qplus_le_compat; [exact Hp1|].
    apply Qmult_le_compat_r; [exact Hh1 | discriminate].
  - apply Qplus_le_compat; [exact Hp2|].
    apply Qmult_le_compat_r; [exact Hh2 | discriminate].
Qed.

Lemma draw_scaled (r base span : Q) :
  0 <= span -> unit_draw r -> base <= base + r * span <= base + span.
Proof.
  intros Hspan [H0 H1]. split.
  - setoid_replace base with (base + 0) using relation Qeq at 1 by ring.
    apply Qplus_le_compat; [apply Qle_refl|].
    apply Qmult_le_0_compat; assumption.
  - apply Qplus_le_compat; [apply Qle_refl|].
    setoid_replace span with (1 * span) using relation Qeq at 2 by ring.
    apply Qmult_le_compat_r; [apply Qlt_le_weak; exact H1 | exact Hspan].
Qed.

Lemma parts_scaled (r base : Q) (k : Z) :
  (0 <= k)%Z -> unit_draw r ->
  base <= base + js_floor (r * inject_Z k) <= base + inject_Z k.
Proof.
  intros Hk Hr. destruct (unit_draw_scaled r k Hk Hr) as [Hlo Hhi]. split.
  - setoid_replace base with (base + 0) using relation Qeq at 1 by ring.
    apply Qplus_le_compat; [apply Qle_refl | exact Hlo].
  - apply Qplus_le_compat; [apply Qle_refl | exact Hhi].
Qed.


Lemma closed_le_trans (a b c d : Q) : a <= b -> b <= c -> c <= d -> a <= d.
Proof. intros H1 H2 H3. exact (Qle_trans _ _ _ (Qle_trans _ _ _ H1 H2) H3). Qed.

Lemma override_item_costs (s : Severity) (rnd : Randomness) (ds : list DamageItem) :
  fair rnd ->
  Forall (fun d => (costRange s).1 <= estimatedCost d <= (costRange s).2)
         (applySeverityOverride (Some s) rnd ds).
Proof.
  intros Hfair. destruct s; cbn [applySeverityOverride costRange fst snd];
    apply Forall_imap_all; intros i x.
  - apply repriced_cost_bounds.
    + change 100 with (inject_Z 100).
      apply (unit_draw_scaled (partsDraw rnd i) 100 ltac:(lia)
               (fair_partsDraw rnd Hfair i)).
    + destruct (draw_scaled (laborDraw rnd i) 0.5 1.5 ltac:(discriminate)
                  (fair_laborDraw rnd Hfair i)) as [Hl Hh].
      split; [eapply Qle_trans; [|exact Hl]; discriminate
             | eapply Qle_trans; [exact Hh | discriminate]].
  - apply repriced_cost_bounds.
    + destruct (parts_scaled (partsDraw rnd i) 300 500 ltac:(lia)
                  (fair_partsDraw rnd Hfair i)) as [Hl Hh].
      split; [eapply Qle_trans; [|exact Hl]; discriminate
             | eapply Qle_trans; [exact Hh | discriminate]].
    + destruct (draw_scaled (laborDraw rnd i) 2.0 2.5 ltac:(discriminate)
                  (fair_laborDraw rnd Hfair i)) as [Hl Hh].
      split; [eapply Qle_trans; [|exact Hl]; discriminate
             | eapply Qle_trans; [exact Hh | discriminate]].
  - apply repriced_cost_bounds.
    + destruct (parts_scaled (partsDraw rnd i) 2000 1500 ltac:(lia)
                  (fair_partsDraw rnd Hfair i)) as [Hl Hh].
      split; [eapply Qle_trans; [|exact Hl]; discriminate
             | eapply Qle_trans; [exact Hh | discriminate]].
    + destruct (draw_scaled (laborDraw rnd i) 5.0 3.0 ltac:(discriminate)
                  (fair_laborDraw rnd Hfair i)) as [Hl Hh].
      split; [eapply Qle_trans; [|exact Hl]; discriminate
             | eapply Qle_trans; [exact Hh | discriminate]].
Qed.

Lemma scale_le (c : Q) (a b : nat) :
  0 <= c -> (a <= b)%nat ->
  c * inject_Z (Z.of_nat a) <= c * inject_Z (Z.of_nat b).
Proof.
  intros Hc Hab. rewrite !(Qmult_comm c).
  apply Qmult_le_compat_r; [|exact Hc]. rewrite <- Zle_Qle. lia.
Qed.

(** The total of a simulated assessment generated under a severity control,
    between the item count times the ends of the cost range. *)
Lemma mock_total_range (imageCount : nat) (overrideConfidence : option Q)
    (s : Severity) (hasDamageOverride hasInconsistencyOverride : option bool)
    (rnd : Randomness) :
  fair rnd -> hasDamageOverride <> Some false ->
  let r := generateMockAssessment imageCount overrideConfidence (Some s)
             hasDamageOverride hasInconsistencyOverride rnd in
  (costRange s).1 * inject_Z (Z.of_nat (length (damages r))) <= totalEstimate r
  /\ totalEstimate r <= (costRange s).2 * inject_Z (Z.of_nat (length (damages r))).
Proof.
  intros Hfair Hdmg r.
  assert (Htotal : totalEstimate r = sum_by estimatedCost (damages r)).
  { subst r. unfold generateMockAssessment.
    destruct hasDamageOverride as [[]|]; try congruence; reflexivity. }
  rewrite Htotal. apply sum_by_bounds.
  subst r. unfold generateMockAssessment.
  destruct hasDamageOverride as [[]|]; try congruence; cbn [damages];
    apply override_item_costs; exact Hfair.
Qed.

(** X5. In test mode the severity control fixes the range of the total:
    Minor gives a total between $115 and $660 (below $800), Moderate a
    total of at least $1,060 that stays below $5,000 for up to three
    images, and Severe a total of at least $5,150, above the senior
    approval threshold. *)
Theorem mock_total_by_severity (imageCount : nat) (overrideConfidence : option Q)
    (s : Severity) (hasDamageOverride hasInconsistencyOverride : option bool)
    (rnd : Randomness) :
  fair rnd -> hasDamageOverride <> Some false ->
  let r := generateMockAssessment imageCount overrideConfidence (Some s)
             hasDamageOverride hasInconsistencyOverride rnd in
  match s with
  | Minor => 115 <= totalEstimate r /\ totalEstimate r <= 660
  | Moderate =>
      1060 <= totalEstimate r
      /\ ((imageCount <= 3)%nat -> totalEstimate r < SENIOR_APPROVAL_THRESHOLD)
  | Severe => 5150 <= totalEstimate r /\ SENIOR_APPROVAL_THRESHOLD < totalEstimate r
  end.
Proof.
  intros Hfair Hdmg r.
  destruct (mock_total_range imageCount overrideConfidence s hasDamageOverride
              hasInconsistencyOverride rnd Hfair Hdmg) as [Hlo Hhi].
  pose proof (mock_damages_length imageCount overrideConfidence (Some s)
                hasDamageOverride hasInconsistencyOverride rnd Hfair) as Hlen.
  fold r in Hlo, Hhi, Hlen.
  assert (Hcount : length (damages r)
                   = match s with Minor => 2 | _ => Nat.min (Nat.max 2 imageCount) 8 end%nat).
  { rewrite Hlen. destruct hasDamageOverride as [[]|]; try congruence; reflexivity. }
  clear Hlen. destruct s.
  - rewrite Hcount in Hlo, Hhi. split.
    + eapply Qle_trans; [|exact Hlo]. discriminate.
    + eapply Qle_trans; [exact Hhi|]. discriminate.
  - assert (Hmin : 1060 <= totalEstimate r).
    { eapply Qle_trans; [|exact Hlo].
      eapply Qle_trans; [|apply (scale_le _ 2 (length (damages r)));
                          [discriminate | rewrite Hcount; lia]].
      discriminate. }
    split; [exact Hmin|]. intros Hfew.
    eapply Qle_lt_trans; [exact Hhi|].
    eapply Qle_lt_trans; [apply (scale_le _ (length (damages r)) 3);
                          [discriminate | rewrite Hcount; lia]|].
    reflexivity.
  - assert (Hmin : 5150 <= totalEstimate r).
    { eapply Qle_trans; [|exact Hlo].
      eapply Qle_trans; [|apply (scale_le _ 2 (length (damages r)));
                          [discriminate | rewrite Hcount; lia]].
      discriminate. }
    split; [exact Hmin|].
    eapply Qlt_le_trans; [|exact Hmin]. reflexivity.
Qed.

Lemma mock_total_by_severity_witness :
  let r := generateMockAssessment 6 (Some 90) (Some Severe) (Some true) (Some false)
             plainRandomness in
  fair plainRandomness
  /\ Some true <> Some false
  /\ SENIOR_APPROVAL_THRESHOLD < totalEstimate r
  /\ totalEstimate r == 20985.
Proof.
  intros r.
  assert (Hne : Some true <> Some false) by discriminate.
  split; [exact plainRandomness_fair|]. split; [exact Hne|]. split.
  - exact (proj2 (mock_total_by_severity 6 (Some 90) Severe (Some true) (Some false)
                    plainRandomness plainRandomness_fair Hne)).
  - vm_compute. reflexivity.
Defined.
End MockRangeFacts.

Section MockFlagFacts.
Import MockEngine.

(** X6. In the simulated engine the inconsistency flag, the list of flags
    and the fraud warning go together: they are present exactly when the
    inconsistency control is on and damage is generated, the list then
    being the two critical mock flags (colour mismatch, multiple
    vehicles).  A no-damage result carries no flag even when the control
    is on. *)
Theorem mock_flags_consistent (imageCount : nat) (overrideConfidence : option Q)
    (overrideSeverity : option Severity)
    (hasDamageOverride hasInconsistencyOverride : option bool) (rnd : Randomness) :
  let r := generateMockAssessment imageCount overrideConfidence overrideSeverity
             hasDamageOverride hasInconsistencyOverride rnd in
  let flagged :=
    truthy hasInconsistencyOverride && negb (bool_decide (hasDamageOverride = Some false)) in
  truthy (hasInconsistencies r) = flagged
  /\ inconsistencies r = (if flagged then Some mockFlags else None)
  /\ (flagged = true -> head (recommendations r) = Some fraudWarning)
  /\ (flagged = false -> fraudWarning ∉ recommendations r)
  /\ (hasDamage r = false -> truthy (hasInconsistencies r) = false)
  /\ (flagged = true ->
      exists f1 f2,
        inconsistencies r = Some [f1; f2]
        /\ flagType f1 = color_mismatch /\ flagSeverity f1 = critical
        /\ flagType f2 = multiple_vehicles /\ flagSeverity f2 = critical).
Proof.
  intros r flagged.
  enough (Hmain :
    truthy (hasInconsistencies r) = flagged
    /\ inconsistencies r = (if flagged then Some mockFlags else None)
    /\ (flagged = true -> head (recommendations r) = Some fraudWarning)
    /\ (flagged = false -> fraudWarning ∉ recommendations r)
    /\ (hasDamage r = false -> truthy (hasInconsistencies r) = false)).
  { destruct Hmain as (H1 & H2 & H3 & H4 & H5).
    repeat (split; [assumption|]). intros Hflagged. rewrite H2, Hflagged.
    do 2 eexists. split; [reflexivity|]. repeat split. }
  subst r flagged. unfold generateMockAssessment.
  destruct hasDamageOverride as [[]|]; cbn [bool_decide negb andb].
  all: try rewrite bool_decide_eq_false_2 by discriminate.
  all: try rewrite bool_decide_eq_true_2 by reflexivity.
  all: cbn [hasInconsistencies inconsistencies recommendations hasDamage negb].
  all: rewrite ?andb_true_r, ?andb_false_r.
  all: destruct (truthy hasInconsistencyOverride) eqn:Hflag; cbn [truthy default head].
  all: repeat split; try reflexivity; try discriminate; try assumption.
  all: try (intros _; reflexivity).
  all: try (intros _; intros Hin; repeat (apply elem_of_cons in Hin as [Hin|Hin];
              [revert Hin; repeat case_match; discriminate|]); inversion Hin).
Qed.
End MockFlagFacts.

(** ** The total on the assessment screen before any modification *)

Section PlainTotalFacts.
Import Assessment.

Lemma adjustedFrom_plain (o : Overrides) (ds : list DamageItem) :
  (forall i, isRemoved o i = false /\ isOverridden o i = false) ->
  forall (index : nat) (total : Q),
    adjustedFrom o index ds total == total + sum_by estimatedCost ds.
Proof.
  intros Hplain. induction ds as [|d rest IH]; intros index total.
  - unfold sum_by. simpl. ring.
  - cbn [adjustedFrom]. destruct (Hplain index) as [-> ->].
    rewrite IH, sum_by_cons. ring.
Qed.

Lemma noOverrides_plain (i : nat) :
  isRemoved noOverrides i = false /\ isOverridden noOverrides i = false.
Proof. unfold isRemoved, isOverridden. simpl. rewrite !lookup_empty. tauto. Qed.

(** X7. Every simulated assessment is first shown with the total it
    carries: with no override and no removal, [getAdjustedTotal] equals the
    [totalEstimate] of the generated result. *)
Theorem simulated_total_is_shown (imageCount : nat) (overrideConfidence : option Q)
    (overrideSeverity : option Severity)
    (hasDamageOverride hasInconsistencyOverride : option bool)
    (rnd : MockEngine.Randomness) :
  let r := MockEngine.generateMockAssessment imageCount overrideConfidence
             overrideSeverity hasDamageOverride hasInconsistencyOverride rnd in
  getAdjustedTotal (Some r) noOverrides == totalEstimate r.
Proof.
  intros r. unfold getAdjustedTotal.
  rewrite (adjustedFrom_plain noOverrides (damages r) noOverrides_plain).
  subst r. unfold MockEngine.generateMockAssessment.
  destruct hasDamageOverride as [[]|]; cbn [damages totalEstimate];
    first [ring | reflexivity].
Qed.



(** A reply without labour hours: the assessment carries a total of 0
    under items worth $1,000. *)
Example live_total_without_labour :
  let req := requestBody liveProps sampleImages None in
  let w := liveRun (endpoint (sampleModel "bare") sampleReplies) in
  exists p,
    Route.POST true (sampleModel "bare") sampleReplies "TypeError" req = Route.Json p
    /\ Route.p_totalEstimate p = None
    /\ totalEstimate (liveResult None w p) = 0
    /\ getAdjustedTotal (Some (liveResult None w p)) noOverrides == 1000.
Proof.
  intros req w. eexists. split; [vm_compute; reflexivity|].
  split; [reflexivity|]. split; [reflexivity|]. vm_compute. reflexivity.
Qed.
End PlainTotalFacts.

(** ** The analysis endpoint: outcomes and rounding *)

Section RouteFacts.
Import Route.


(** X10. For a non-empty damage list the confidence returned by the
    endpoint is an integer within half a point of the mean of the item
    confidences (a mean ending in .5 goes up). *)
Theorem avgConfidence_near_mean (ds : list DamageItem) :
  ds <> [] ->
  (exists z : Z, avgConfidence ds = inject_Z z)
  /\ mean_confidence ds - (1 # 2) < avgConfidence ds
  /\ avgConfidence ds <= mean_confidence ds + (1 # 2).
Proof.
  intros Hne. unfold avgConfidence.
  destruct ds as [|d rest]; [congruence|].
  cbn [length Nat.ltb Nat.leb]. fold (mean_confidence (d :: rest)).
  unfold js_round. set (x := mean_confidence (d :: rest)).
  split; [eauto|]. split.
  - pose proof (Qlt_floor (x + (1 # 2))) as Hlt.
    rewrite inject_Z_plus in Hlt.
    apply (Qplus_lt_l _ _ 1). ring_simplify.
    ring_simplify in Hlt. exact Hlt.
  - apply Qfloor_le.
Qed.

Lemma avgConfidence_near_mean_witness :
  let ds := [sampleItem "Hood" "Scratch" Minor 300 90;
             sampleItem "Grille" "Broken" Minor 200 91] in
  ds <> [] /\ avgConfidence ds <= mean_confidence ds + (1 # 2)
  /\ avgConfidence ds == 91.
Proof.
  intros ds. assert (Hne : ds <> []) by discriminate.
  split; [exact Hne|]. split.
  - exact (proj2 (proj2 (avgConfidence_near_mean ds Hne))).
  - vm_compute. reflexivity.
Defined.
End RouteFacts.

(** ** The analysis run: what it asks for and what it calls *)

Section AnalysisRunFacts.
Import Assessment.

Lemma no_request_with_markers (a : AssessmentResult) (ms : list Route.DamageMarker) :
  requestsHumanInput a (Some ms) = false.
Proof.
  unfold requestsHumanInput. rewrite bool_decide_eq_true_2 by eauto.
  cbn [negb]. rewrite andb_false_r. reflexivity.
Qed.

(** X11. An analysis started from the marking screen never asks for
    markers again, whatever the mode, the outcome of the call or the
    confidence of the new result, even with an empty list of markers: the
    marking loop is passed at most once per start. *)
Theorem rerun_never_requests_markers (props : Props)
    (ms : list Route.DamageMarker) (w : Run) (st : State) :
  let out := analyzeImages props (Some ms) w st in
  needsHumanInput out.1 = false
  /\ isAnalyzing out.1 = false
  /\ is_Some (assessment out.1)
  /\ render out.1 <> HumanFeedbackView
  /\ render out.1 <> AnalyzingView
  /\ render out.1 <> StartView.
Proof.
  intros out.
  assert (Hstate : needsHumanInput out.1 = false /\ isAnalyzing out.1 = false
                   /\ is_Some (assessment out.1)).
  { subst out. unfold analyzeImages. destruct (mode props).
    - unfold analyzeLive. destruct (attempt props (Some ms) w) as [[p|e] effects].
      + cbn [fst settle needsHumanInput isAnalyzing assessment].
        rewrite no_request_with_markers. eauto.
      + cbn [fst settle needsHumanInput isAnalyzing assessment]. eauto.
    - unfold analyzeSimulated. rewrite no_request_with_markers.
      destruct (autoApproves props _);
        cbn [fst settle needsHumanInput isAnalyzing assessment]; eauto. }
  destruct Hstate as (Hneeds & Hrun & [a Ha]).
  split; [exact Hneeds|]. split; [exact Hrun|]. split; [eauto|].
  unfold render. rewrite Hneeds, Hrun, Ha.
  rewrite bool_decide_eq_true_2 by eauto. rewrite !andb_false_r.
  repeat split; destruct (negb (hasDamage a) || (length (damages a) =? 0)%nat);
    discriminate.
Qed.

(** X12. In simulated mode a result produced after a marker request is
    never on the fast path: the request is made only below confidence 70,
    the boost adds exactly 15, and the result stays below 85. *)
Theorem human_assisted_simulation_is_reviewed (props : Props)
    (m : Route.DamageMarker) (ms : list Route.DamageMarker) (w : Run) (st : State) :
  testConfidence (test st) < LOW_CONFIDENCE_THRESHOLD ->
  let out := analyzeSimulated props (Some (m :: ms)) w st in
  exists a,
    assessment out.1 = Some a
    /\ aiConfidence a = testConfidence (test st) + 15
    /\ aiConfidence a < HIGH_CONFIDENCE_THRESHOLD
    /\ humanAssisted a = Some true
    /\ out.2 = []
    /\ forall o, canAutoApprove a o = false.
Proof.
  intros Hlow out.
  set (a := simulatedResult props (test st) (Some (m :: ms)) w).
  assert (Hconf : aiConfidence a = testConfidence (test st) + 15).
  { subst a. unfold simulatedResult, MockEngine.generateMockAssessment.
    cbn [hasMarkers length Nat.ltb Nat.leb aiConfidence].
    assert (Hmin : js_min 95 (testConfidence (test st) + 15)
                   = testConfidence (test st) + 15).
    { unfold js_min.
      destruct (Qle_bool 95 (testConfidence (test st) + 15)) eqn:Hle; [|reflexivity].
      apply Qle_bool_iff in Hle. exfalso.
      apply (Qlt_not_le _ _ Hlow).
      apply (Qplus_le_l _ _ 15). eapply Qle_trans; [|exact Hle]. discriminate. }
    destruct (testHasDamage (test st)); cbn [aiConfidence default]; exact Hmin. }
  assert (Hbelow : aiConfidence a < HIGH_CONFIDENCE_THRESHOLD).
  { rewrite Hconf. apply (Qplus_lt_l _ _ (- (15))). ring_simplify.
    eapply Qlt_le_trans; [exact Hlow | discriminate]. }
  assert (Hno : forall o, canAutoApprove a o = false).
  { intros o. unfold canAutoApprove.
    replace (Qgeb (aiConfidence a) 85) with false; [reflexivity|].
    symmetry. apply Qgeb_lt. exact Hbelow. }
  assert (Hauto : autoApproves props a = false).
  { unfold autoApproves.
    replace (Qgeb (aiConfidence a) HIGH_CONFIDENCE_THRESHOLD) with false.
    - rewrite andb_false_r. reflexivity.
    - symmetry. apply Qgeb_lt. exact Hbelow. }
  exists a. subst out. unfold analyzeSimulated. fold a.
  rewrite no_request_with_markers, Hauto.
  cbn [fst snd settle assessment].
  split; [reflexivity|]. split; [exact Hconf|]. split; [exact Hbelow|].
  split; [reflexivity|]. split; [reflexivity | exact Hno].
Qed.

Lemma human_assisted_simulation_is_reviewed_witness :
  let tc := {| testConfidence := 60; testSeverity := Minor;
               testHasDamage := true; testHasInconsistency := false |} in
  let st := withMarkers [sampleMarker]
              (handleStartAnalysis simulatedProps offlineRun (startWith tc)).1 in
  testConfidence (test st) < LOW_CONFIDENCE_THRESHOLD
  /\ exists a,
       assessment (analyzeSimulated simulatedProps (Some [sampleMarker]) offlineRun st).1
         = Some a
       /\ aiConfidence a == 75
       /\ canAutoApprove a noOverrides = false.
Proof.
  intros tc st.
  assert (Hlow : testConfidence (test st) < LOW_CONFIDENCE_THRESHOLD) by reflexivity.
  split; [exact Hlow|].
  destruct (human_assisted_simulation_is_reviewed simulatedProps sampleMarker []
              offlineRun st Hlow) as (a & Ha & Hconf & _ & _ & _ & Hno).
  exists a. split; [exact Ha|]. split; [rewrite Hconf; reflexivity | apply Hno].
Defined.

(** X13. What a run may call: in simulated mode the endpoint is never
    called and at most one quick approval is passed on; in live mode the
    endpoint is called at most once and nothing is approved; no run passes
    an assessment on to the review.  Without the [onQuickApprove] callback
    nothing is approved, by a run or by the quick-approve button: a run
    then calls at most the endpoint (nothing at all in simulated mode),
    and the button calls nothing. *)
Theorem analysis_effects (props : Props)
    (humanMarkers : option (list Route.DamageMarker)) (w : Run) (st : State) :
  let effects := (analyzeImages props humanMarkers w st).2 in
  (length effects <= 1)%nat
  /\ (forall a, OnContinue a ∉ effects)
  /\ (mode props = simulated -> forall req, CallApi req ∉ effects)
  /\ (mode props = live -> forall a, OnQuickApprove a ∉ effects)
  /\ (hasQuickApprove props = false ->
      (forall a, OnQuickApprove a ∉ effects)
      /\ Forall (fun e => exists req, e = CallApi req) effects
      /\ (mode props = simulated -> effects = [])
      /\ (handleAutoApprove props st).2 = []).
Proof.
  intros effects.
  assert (Hshape :
    match mode props with
    | simulated =>
        effects = []
        \/ (hasQuickApprove props = true /\ exists a, effects = [OnQuickApprove a])
    | live => effects = [] \/ exists req, effects = [CallApi req]
    end).
  { subst effects. unfold analyzeImages. destruct (mode props).
    - unfold analyzeLive, attempt.
      destruct (conversion w) as [imageData|e0]; [|left; reflexivity].
      right. exists (requestBody props imageData humanMarkers).
      destruct (fetch w _) as [e|[p|c msg]|ok msg]; reflexivity.
    - unfold analyzeSimulated.
      destruct (requestsHumanInput _ _); [left; reflexivity|].
      destruct (autoApproves props _) eqn:Hauto; [|left; reflexivity].
      right. apply autoApproves_iff in Hauto. split; [tauto | eauto]. }
  assert (Hauto : hasQuickApprove props = false -> (handleAutoApprove props st).2 = []).
  { intros Hcb. unfold handleAutoApprove.
    destruct (assessment st); [|reflexivity]. rewrite Hcb. reflexivity. }
  clearbody effects.
  assert (Hnone : forall e : Effect, e ∉ @nil Effect) by (intros e; apply not_elem_of_nil).
  destruct (mode props) eqn:Hmode.
  - destruct Hshape as [->|[req ->]].
    + split; [simpl; lia|]. split; [auto|]. split; [discriminate|]. split; [auto|].
      intros Hcb. split; [auto|]. split; [constructor|]. split; [discriminate|auto].
    + split; [simpl; lia|].
      split; [intros a Hin; apply list_elem_of_singleton in Hin; discriminate|].
      split; [discriminate|].
      split; [intros _ a Hin; apply list_elem_of_singleton in Hin; discriminate|].
      intros Hcb.
      split; [intros a Hin; apply list_elem_of_singleton in Hin; discriminate|].
      split; [constructor; [eauto | constructor]|]. split; [discriminate|auto].
  - destruct Hshape as [->|[Hcb [a ->]]].
    + split; [simpl; lia|]. split; [auto|]. split; [auto|]. split; [discriminate|].
      intros Hcb. split; [auto|]. split; [constructor|]. split; [reflexivity|auto].
    + split; [simpl; lia|].
      split; [intros a' Hin; apply list_elem_of_singleton in Hin; discriminate|].
      split; [intros _ req Hin; apply list_elem_of_singleton in Hin; discriminate|].
      split; [discriminate|].
      intros Hno. congruence.
Qed.
End AnalysisRunFacts.

(** ** What the assessment screen hands over *)

Section HandOverFacts.
Import Assessment.

Lemma sum_by_app {A} (f : A -> Q) (xs ys : list A) :
  sum_by f (xs ++ ys) == sum_by f xs + sum_by f ys.
Proof.
  induction xs as [|x xs IH]; [cbn [app]; unfold sum_by at 2; cbn [foldl]; ring|].
  cbn [app]. rewrite !sum_by_cons, IH. ring.
Qed.






(** X15. Removing an item and restoring it is not the identity: the item
    is back in the table with its override switched off, so it counts at
    its original cost again, while the cost typed before stays stored and
    the other rows are untouched. *)
Theorem restore_clears_override (a : AssessmentResult) (o : Overrides)
    (index : nat) (damage : DamageItem) :
  damages a !! index = Some damage -> isRemoved o index = false ->
  let o1 := step (damages a) o (ToggleRemove index) in
  let o2 := step (damages a) o1 (ToggleRemove index) in
  isRemoved o2 index = false
  /\ isOverridden o2 index = false
  /\ adjustedCosts o2 !! index = adjustedCosts o !! index
  /\ contribution o2 (index, damage) = estimatedCost damage
  /\ getAdjustedTotal (Some a) o2
     == getAdjustedTotal (Some a) o - contribution o (index, damage)
        + estimatedCost damage
  /\ forall j, j <> index ->
       isRemoved o2 j = isRemoved o j /\ isOverridden o2 j = isOverridden o j.
Proof.
  intros Hd Hkept o1 o2.
  assert (Hr1 : isRemoved o1 index = true).
  { subst o1. cbn [step]. rewrite Hd. unfold toggleRemove, isRemoved at 1.
    cbn [removedItems]. rewrite lookup_insert_eq, Hkept. reflexivity. }
  assert (Ho1 : isOverridden o1 index = false).
  { subst o1. cbn [step]. rewrite Hd. unfold toggleRemove, isOverridden at 1.
    cbn [overrideEnabled]. rewrite Hkept. cbn [negb].
    rewrite lookup_insert_eq. reflexivity. }
  assert (Hr2 : isRemoved o2 index = false).
  { subst o2. cbn [step]. rewrite Hd. unfold toggleRemove, isRemoved at 1.
    cbn [removedItems]. rewrite lookup_insert_eq, Hr1. reflexivity. }
  assert (Ho2 : isOverridden o2 index = false).
  { subst o2. cbn [step]. rewrite Hd. unfold toggleRemove, isOverridden at 1.
    cbn [overrideEnabled]. rewrite Hr1. cbn [negb]. exact Ho1. }
  assert (Hc2 : contribution o2 (index, damage) = estimatedCost damage).
  { unfold contribution. cbn [fst snd]. rewrite Ho2. reflexivity. }
  split; [exact Hr2|]. split; [exact Ho2|].
  split; [subst o2 o1; cbn [step]; rewrite Hd; reflexivity|].
  split; [exact Hc2|]. split.
  - pose proof (total_after_step a o1 (ToggleRemove index) index damage eq_refl Hd)
      as Hsecond.
    pose proof (total_after_step a o (ToggleRemove index) index damage eq_refl Hd)
      as Hfirst.
    fold o1 in Hfirst. fold o2 in Hsecond. rewrite Hsecond, Hfirst.
    unfold rowTerm. cbn [fst]. rewrite Hr1, Hr2, Hkept, Hc2. ring.
  - intros j Hj.
    destruct (step_frame (damages a) o1 (ToggleRemove index) index j eq_refl Hj)
      as (Hrj & Hoj & _).
    destruct (step_frame (damages a) o (ToggleRemove index) index j eq_refl Hj)
      as (Hrj' & Hoj' & _).
    fold o1 in Hrj', Hoj'. fold o2 in Hrj, Hoj. split; congruence.
Qed.

Lemma restore_clears_override_witness :
  let ds := damages sampleAssessment in
  let o := run ds [ToggleOverride 0 true; EditCost 0 (Some 400%Z)] in
  let o2 := step ds (step ds o (ToggleRemove 0)) (ToggleRemove 0) in
  ds !! 0%nat = Some sampleBumper
  /\ isRemoved o 0 = false
  /\ getAdjustedTotal (Some sampleAssessment) o == 900
  /\ getAdjustedTotal (Some sampleAssessment) o2 == 1500.
Proof.
  intros ds o o2.
  assert (Hd : ds !! 0%nat = Some sampleBumper) by reflexivity.
  assert (Hkept : isRemoved o 0 = false) by reflexivity.
  split; [exact Hd|]. split; [exact Hkept|]. split; [vm_compute; reflexivity|].
  destruct (restore_clears_override sampleAssessment o 0 sampleBumper Hd Hkept)
    as (_ & _ & _ & _ & Htotal & _).
  subst o2 ds. rewrite Htotal. vm_compute. reflexivity.
Defined.

Lemma overridesFrom_spec (o : Overrides) (ds : list DamageItem) :
  forall (k : nat) (m : ManualOverride),
    m ∈ overridesFrom o k ds <->
    exists i d c,
      ds !! i = Some d
      /\ isRemoved o (k + i) = false
      /\ isOverridden o (k + i) = true
      /\ adjustedCosts o !! (k + i)%nat = Some c
      /\ m = {| damageIndex := k + i;
                originalCost := estimatedCost d;
                adjustedCost := c;
                reason := orElse (overrideReasons o !! (k + i)%nat) "Manual adjustment" |}.
Proof.
  induction ds as [|d ds IH]; intros k m.
  - cbn [overridesFrom]. split.
    + intros Hin. inversion Hin.
    + intros (i & d & c & Hd & _). discriminate.
  - cbn [overridesFrom]. rewrite elem_of_app, IH. split.
    + intros [Hhere | (i & d' & c & Hd & Hr & Ho & Hc & Hm)].
      * destruct (isRemoved o k) eqn:Hr; [inversion Hhere|].
        destruct (isOverridden o k) eqn:Ho; [|inversion Hhere].
        destruct (adjustedCosts o !! k) as [c|] eqn:Hc; [|inversion Hhere].
        apply list_elem_of_singleton in Hhere.
        exists 0%nat, d, c. rewrite Nat.add_0_r. auto.
      * exists (S i), d', c. rewrite Nat.add_succ_r. cbn [lookup]. auto.
    + intros (i & d' & c & Hd & Hr & Ho & Hc & Hm). destruct i as [|i].
      * left. rewrite Nat.add_0_r in *. cbn in Hd. injection Hd as ->.
        rewrite Hr, Ho, Hc. apply list_elem_of_singleton. exact Hm.
      * right. exists i, d', c. rewrite Nat.add_succ_r in *. cbn in Hd. auto.
Qed.

Lemma orElse_nonempty (s : option string) (fallback : string) :
  fallback <> "" -> orElse s fallback <> "".
Proof. intros Hf. destruct s as [[|c rest]|]; cbn; congruence. Qed.

Lemma stored_overrides (ms : list ManualOverride) :
  default [] (if (0 <? length ms)%nat then Some ms else None) = ms.
Proof. destruct ms; reflexivity. Qed.

(** X16. The [manualOverrides] handed to the review list exactly the
    kept items whose override is enabled with a stored cost, each under
    its position in the table as it was before removals, with the item's
    original cost, the stored cost and a reason that is never empty; an
    empty list is never handed over. *)
Theorem manual_overrides_recorded (a : AssessmentResult) (o : Overrides) :
  let a' := updatedAssessment a o in
  manualOverrides a' <> Some []
  /\ (forall m, m ∈ default [] (manualOverrides a') ->
        reason m <> "" /\ (damageIndex m < length (damages a))%nat)
  /\ forall m,
       m ∈ default [] (manualOverrides a') <->
       exists d c,
         damages a !! damageIndex m = Some d
         /\ isRemoved o (damageIndex m) = false
         /\ isOverridden o (damageIndex m) = true
         /\ adjustedCosts o !! damageIndex m = Some c
         /\ m = {| damageIndex := damageIndex m;
                   originalCost := estimatedCost d;
                   adjustedCost := c;
                   reason := orElse (overrideReasons o !! damageIndex m)
                                    "Manual adjustment" |}.
Proof.
  intros a'. subst a'. cbn [updatedAssessment manualOverrides].
  rewrite stored_overrides.
  assert (Hspec := overridesFrom_spec o (damages a) 0).
  split; [|split].
  - destruct (overridesFrom o 0 (damages a)); cbn; congruence.
  - intros m Hin. apply Hspec in Hin.
    destruct Hin as (i & d & c & Hd & _ & _ & _ & ->). cbn [reason damageIndex]. split.
    + apply orElse_nonempty. discriminate.
    + apply lookup_lt_Some in Hd. lia.
  - intros m. rewrite Hspec. split.
    + intros (i & d & c & Hd & Hr & Ho & Hc & ->). cbn [damageIndex Nat.add].
      exists d, c. auto.
    + intros (d & c & Hd & Hr & Ho & Hc & Hm).
      exists (damageIndex m), d, c. cbn [Nat.add]. auto.
Qed.

Lemma sum_by_nil {A} (f : A -> Q) : sum_by f [] = 0.
Proof. reflexivity. Qed.

Lemma handed_total_split (o : Overrides) (ds : list DamageItem) :
  forall (k : nat) (total : Q),
    adjustedFrom o k ds total
    == total
       + sum_by estimatedCost
           (filter (fun row => isRemoved o row.1 = false) (rowsFrom k ds)).*2
       + sum_by (fun m => adjustedCost m - originalCost m) (overridesFrom o k ds).
Proof.
  induction ds as [|d ds IH]; intros k total.
  - cbn [adjustedFrom rowsFrom overridesFrom]. rewrite filter_nil.
    cbn [fmap list_fmap]. rewrite !sum_by_nil. ring.
  - cbn [adjustedFrom rowsFrom overridesFrom]. rewrite IH, filter_cons, sum_by_app.
    cbn [fst]. destruct (isRemoved o k) eqn:Hr.
    + rewrite decide_False by congruence. rewrite sum_by_nil. ring.
    + rewrite decide_True by reflexivity. rewrite fmap_cons, sum_by_cons. cbn [snd].
      destruct (isOverridden o k), (adjustedCosts o !! k) as [c|];
        rewrite ?sum_by_cons, ?sum_by_nil; cbn [adjustedCost originalCost]; ring.
Qed.

(** X17. The total handed to the review is the sum of the original costs
    of the kept items plus the differences listed in [manualOverrides];
    the review screen starts from the first part alone, so its opening
    total is the handed total less those differences, and agrees with it
    when nothing was overridden. *)
Theorem review_opens_without_override_deltas (st : State) (a : AssessmentResult) :
  assessment st = Some a ->
  exists a' rst,
    Workflow.reviewScreen (handleContinueWithOverrides st) = Some (a', rst)
    /\ damages a' = (activeRows (overrides st) (damages a)).*2
    /\ totalEstimate a'
       == sum_by estimatedCost (damages a')
          + sum_by (fun m => adjustedCost m - originalCost m)
                   (default [] (manualOverrides a'))
    /\ Review.currentTotal rst
       == totalEstimate a'
          - sum_by (fun m => adjustedCost m - originalCost m)
                   (default [] (manualOverrides a'))
    /\ (manualOverrides a' = None -> Review.currentTotal rst == totalEstimate a').
Proof.
  intros Ha. unfold handleContinueWithOverrides. rewrite Ha.
  exists (updatedAssessment a (overrides st)),
         (Review.init (updatedAssessment a (overrides st))).
  assert (Hsplit :
    totalEstimate (updatedAssessment a (overrides st))
    == sum_by estimatedCost (damages (updatedAssessment a (overrides st)))
       + sum_by (fun m => adjustedCost m - originalCost m)
           (default [] (manualOverrides (updatedAssessment a (overrides st))))).
  { cbn [updatedAssessment totalEstimate damages manualOverrides getAdjustedTotal].
    rewrite stored_overrides, handed_total_split. unfold activeRows, rows. ring. }
  split; [reflexivity|]. split; [reflexivity|]. split; [exact Hsplit|].
  unfold Review.currentTotal, Review.init. cbn [Review.adjustedDamages].
  split.
  - rewrite Hsplit. ring.
  - intros Hnone. rewrite Hsplit, Hnone. unfold sum_by at 3. cbn [default foldl]. ring.
Qed.

Lemma review_opens_without_override_deltas_witness :
  let o := run (damages sampleAssessment)
             [ToggleOverride 0 true; EditCost 0 (Some 400%Z); ToggleRemove 1] in
  let st := Workflow.assessmentScreen sampleAssessment o in
  assessment st = Some sampleAssessment
  /\ exists a' rst,
       Workflow.reviewScreen (handleContinueWithOverrides st) = Some (a', rst)
       /\ Review.currentTotal rst
          == totalEstimate a'
             - sum_by (fun m => adjustedCost m - originalCost m)
                      (default [] (manualOverrides a')).
Proof.
  intros o st.
  assert (Ha : assessment st = Some sampleAssessment) by reflexivity.
  split; [exact Ha|].
  destruct (review_opens_without_override_deltas st sampleAssessment Ha)
    as (a' & rst & Hscreen & _ & _ & Htotal & _).
  exists a', rst. split; [exact Hscreen | exact Htotal].
Defined.
End HandOverFacts.

(** ** Test mode: where the controls send a claim *)

Section RoutingByControls.
Import Assessment MockEngine.

Lemma mock_total_thresholds (imageCount : nat) (overrideConfidence : option Q)
    (s : Severity) (hasInconsistencyOverride : option bool) (rnd : Randomness) :
  fair rnd ->
  let r := generateMockAssessment imageCount overrideConfidence (Some s)
             (Some true) hasInconsistencyOverride rnd in
  (s = Severe -> SENIOR_APPROVAL_THRESHOLD < totalEstimate r)
  /\ (s = Minor -> totalEstimate r <= SENIOR_APPROVAL_THRESHOLD).
Proof.
  intros Hfair r.
  assert (Hdmg : Some true <> Some false) by discriminate.
  destruct (mock_total_range imageCount overrideConfidence s (Some true)
              hasInconsistencyOverride rnd Hfair Hdmg) as [Hlo Hhi].
  pose proof (mock_damages_length imageCount overrideConfidence (Some s)
                (Some true) hasInconsistencyOverride rnd Hfair) as Hlen.
  fold r in Hlo, Hhi, Hlen. split; intros ->.
  - eapply Qlt_le_trans; [|exact Hlo].
    eapply Qlt_le_trans; [|apply (scale_le _ 2 (length (damages r)));
                           [discriminate | rewrite Hlen; lia]].
    reflexivity.
  - eapply Qle_trans; [exact Hhi|]. rewrite Hlen. discriminate.
Qed.

Lemma simulated_first_result (props : Props) (tc : TestControls) (w : Run) :
  let a := simulatedResult props tc None w in
  hasDamage a = testHasDamage tc
  /\ aiConfidence a = testConfidence tc
  /\ truthy (hasInconsistencies a) = testHasDamage tc && testHasInconsistency tc
  /\ (testHasDamage tc = true ->
      totalEstimate a
      = totalEstimate (generateMockAssessment (imageCount props)
                         (Some (testConfidence tc)) (Some (testSeverity tc))
                         (Some true) (Some (testHasInconsistency tc)) (rnd w))).
Proof.
  intros a. subst a. unfold simulatedResult, generateMockAssessment.
  cbn [hasMarkers]. destruct (testHasDamage tc);
    cbn [hasDamage aiConfidence hasInconsistencies totalEstimate default truthy andb];
    repeat split; try reflexivity; discriminate.
Qed.

(** X18. Where the test controls send a claim on its first analysis in
    simulated mode.  A run approves at most once, and only the assessment
    it installs.  Without damage nothing is requested or approved.  With
    damage, markers are requested exactly below confidence 70; a Severe
    claim, a flagged claim and a claim below confidence 85 are never
    approved automatically; a Minor claim with confidence of at least 85
    and no flag always is, when the callback is there. *)
Theorem test_controls_route (props : Props) (w : Run) (st : State) :
  mode props = simulated -> fair (rnd w) ->
  let tc := test st in
  let out := handleStartAnalysis props w st in
  (out.2 = [] \/ exists a, out.2 = [OnQuickApprove a] /\ assessment out.1 = Some a)
  /\ (testHasDamage tc = false -> out.2 = [] /\ needsHumanInput out.1 = false)
  /\ (testHasDamage tc = true ->
      (needsHumanInput out.1 = true <-> testConfidence tc < LOW_CONFIDENCE_THRESHOLD))
  /\ (testHasDamage tc = true -> testSeverity tc = Severe -> out.2 = [])
  /\ (testHasDamage tc = true -> testHasInconsistency tc = true -> out.2 = [])
  /\ (testConfidence tc < HIGH_CONFIDENCE_THRESHOLD -> out.2 = [])
  /\ (testHasDamage tc = true -> testSeverity tc = Minor ->
      HIGH_CONFIDENCE_THRESHOLD <= testConfidence tc ->
      testHasInconsistency tc = false -> hasQuickApprove props = true ->
      exists a, out.2 = [OnQuickApprove a] /\ quickApproveComplete out.1 = true).
Proof.
  intros Hmode Hfair tc out.
  set (a := simulatedResult props tc None w).
  destruct (simulated_first_result props tc w) as (Hdmg & Hconf & Hflag & Htotal).
  fold a in Hdmg, Hconf, Hflag, Htotal.
  assert (Hout : out = analyzeSimulated props None w (started st)).
  { subst out. unfold handleStartAnalysis, analyzeImages. rewrite Hmode. reflexivity. }
  assert (Hreq : requestsHumanInput a None = true <->
                 testConfidence tc < LOW_CONFIDENCE_THRESHOLD /\ testHasDamage tc = true).
  { rewrite requestsHumanInput_iff, Hconf, Hdmg. tauto. }
  assert (Hauto : autoApproves props a = true <->
                  hasQuickApprove props = true /\ testHasDamage tc = true
                  /\ HIGH_CONFIDENCE_THRESHOLD <= testConfidence tc
                  /\ totalEstimate a <= SENIOR_APPROVAL_THRESHOLD
                  /\ testHasDamage tc && testHasInconsistency tc = false).
  { rewrite autoApproves_iff, Hconf, Hdmg, Hflag. tauto. }
  assert (Hhigh_low : HIGH_CONFIDENCE_THRESHOLD <= testConfidence tc ->
                      testConfidence tc < LOW_CONFIDENCE_THRESHOLD -> False).
  { intros Hhi Hlo. apply (Qlt_not_le _ _ Hlo).
    eapply Qle_trans; [|exact Hhi]. discriminate. }
  rewrite Hout. unfold analyzeSimulated. cbn [test started]. fold tc. fold a.
  destruct (requestsHumanInput a None) eqn:Ereq;
    [|destruct (autoApproves props a) eqn:Eauto];
    cbn [fst snd settle needsHumanInput assessment quickApproveComplete].
  - destruct (proj1 Hreq eq_refl) as [Hlow Hd].
    split; [left; reflexivity|]. split; [intros Hno; congruence|].
    split; [intros _; tauto|]. split; [reflexivity|]. split; [reflexivity|].
    split; [reflexivity|]. intros _ _ Hhi _ _. exfalso. exact (Hhigh_low Hhi Hlow).
  - destruct (proj1 Hauto eq_refl) as (Hcb & Hd & Hhi & Hval & Hnoflag).
    rewrite Hd in Hnoflag. cbn [andb] in Hnoflag.
    split; [right; exists a; split; reflexivity|].
    split; [intros Hno; congruence|]. split.
    { intros _. split; [discriminate|]. intros Hlo. exfalso. exact (Hhigh_low Hhi Hlo). }
    split.
    { intros _ Hsev. exfalso.
      pose proof (proj1 (mock_total_thresholds (imageCount props)
                           (Some (testConfidence tc)) (testSeverity tc)
                           (Some (testHasInconsistency tc)) (rnd w) Hfair) Hsev) as Hbig.
      rewrite <- (Htotal Hd) in Hbig. exact (Qlt_not_le _ _ Hbig Hval). }
    split; [intros _ Hf; congruence|]. split.
    { intros Hlt. exfalso. exact (Qlt_not_le _ _ Hlt Hhi). }
    intros _ _ _ _ _. exists a. split; reflexivity.
  - split; [left; reflexivity|]. split; [intros _; split; reflexivity|]. split.
    { intros Hd. split; [discriminate|]. intros Hlo.
      assert (Htrue : false = true) by (apply Hreq; tauto).
      discriminate. }
    split; [reflexivity|]. split; [reflexivity|]. split; [reflexivity|].
    intros Hd Hsev Hhi Hnoflag Hcb. exfalso.
    assert (Htrue : false = true).
    { apply Hauto. rewrite Hd, Hnoflag. repeat split; try assumption.
      rewrite (Htotal Hd).
      exact (proj2 (mock_total_thresholds (imageCount props)
                      (Some (testConfidence tc)) (testSeverity tc)
                      (Some (testHasInconsistency tc)) (rnd w) Hfair) Hsev). }
    discriminate.
Qed.

Lemma test_controls_route_witness :
  let tc := {| testConfidence := 90; testSeverity := Severe;
               testHasDamage := true; testHasInconsistency := false |} in
  mode simulatedProps = simulated
  /\ fair (rnd offlineRun)
  /\ (handleStartAnalysis simulatedProps offlineRun (startWith tc)).2 = [].
Proof.
  intros tc.
  assert (Hmode : mode simulatedProps = simulated) by reflexivity.
  split; [exact Hmode|]. split; [exact plainRandomness_fair|].
  exact (proj1 (proj2 (proj2 (proj2
           (test_controls_route simulatedProps offlineRun (startWith tc)
              Hmode plainRandomness_fair)))) eq_refl eq_refl).
Defined.
End RoutingByControls.

(** ** Agent review: the session and its adjustments *)

Section ReviewSessionFacts.
Import Review.

Lemma withCost_withCost (c c' : Q) (d : DamageItem) :
  withCost c (withCost c' d) = withCost c d.
Proof. reflexivity. Qed.

Lemma session_snoc (a : AssessmentResult) (edits : list (nat * option Z))
    (e : nat * option Z) :
  session a (edits ++ [e]) = handleCostAdjust e.1 e.2 (session a edits).
Proof. unfold session. rewrite foldl_app. reflexivity. Qed.

Lemma editedCost_snoc (edits : list (nat * option Z)) (e : nat * option Z)
    (index : nat) (original : Q) :
  editedCost (edits ++ [e]) index original
  = if decide (e.1 = index) then inject_Z (default 0%Z e.2)
    else editedCost edits index original.
Proof. unfold editedCost. rewrite foldl_app. reflexivity. Qed.

Lemma session_lookup (a : AssessmentResult) (edits : list (nat * option Z))
    (index : nat) (d : DamageItem) :
  damages a !! index = Some d ->
  adjustedDamages (session a edits) !! index
  = Some (withCost (editedCost edits index (estimatedCost d)) d).
Proof.
  intros Hd. induction edits as [|e edits IH] using rev_ind.
  - cbn. rewrite Hd. destruct d; reflexivity.
  - rewrite session_snoc, editedCost_snoc.
    unfold handleCostAdjust. cbn [adjustedDamages].
    destruct (decide (e.1 = index)) as [->|Hne].
    + rewrite list_lookup_alter_eq, IH. reflexivity.
    + rewrite list_lookup_alter_ne by exact Hne. exact IH.
Qed.

(** X19. A review session changes nothing but costs: after any cost
    edits every row is the original item with its cost replaced by the
    last value entered for that row (zero for an entry that is not a
    number), rows never edited are the original items, and the notes are
    untouched. *)
Theorem session_rows (a : AssessmentResult) (edits : list (nat * option Z)) :
  notes (session a edits) = ""
  /\ length (adjustedDamages (session a edits)) = length (damages a)
  /\ forall index d,
       damages a !! index = Some d ->
       adjustedDamages (session a edits) !! index
       = Some (withCost (editedCost edits index (estimatedCost d)) d).
Proof.
  split; [|split; [apply session_length | intros index d; apply session_lookup]].
  induction edits as [|e edits IH] using rev_ind; [reflexivity|].
  rewrite session_snoc. exact IH.
Qed.

Lemma sum_by_alter {A} (f : A -> Q) (g : A -> A) (l : list A) :
  forall (i : nat) (x : A),
    l !! i = Some x ->
    sum_by f (alter g i l) == sum_by f l - f x + f (g x).
Proof.
  induction l as [|y l IH]; intros i x Hx; [discriminate|].
  destruct i as [|i]; cbn in Hx.
  - injection Hx as ->. cbn [alter list_alter]. rewrite !sum_by_cons. ring.
  - change (alter g (S i) (y :: l)) with (y :: alter g i l).
    rewrite !sum_by_cons, (IH i x Hx). ring.
Qed.

(** X20. One cost edit in the review moves the running total by the
    difference between the value entered and the cost the row had, zero
    standing for an entry that is not a number; the other rows keep their
    place and value. *)
Theorem cost_edit_moves_total (st : State) (index : nat) (parsed : option Z)
    (d : DamageItem) :
  adjustedDamages st !! index = Some d ->
  let st' := handleCostAdjust index parsed st in
  currentTotal st' == currentTotal st - estimatedCost d + inject_Z (default 0%Z parsed)
  /\ adjustedDamages st' !! index = Some (withCost (inject_Z (default 0%Z parsed)) d)
  /\ (forall j, j <> index -> adjustedDamages st' !! j = adjustedDamages st !! j)
  /\ (parsed = None -> currentTotal st' == currentTotal st - estimatedCost d).
Proof.
  intros Hd st'.
  assert (Htotal : currentTotal st'
                   == currentTotal st - estimatedCost d + inject_Z (default 0%Z parsed)).
  { subst st'. unfold currentTotal, handleCostAdjust. cbn [adjustedDamages].
    rewrite (sum_by_alter _ _ _ index d Hd). reflexivity. }
  split; [exact Htotal|]. split.
  - subst st'. unfold handleCostAdjust. cbn [adjustedDamages].
    rewrite list_lookup_alter_eq, Hd. reflexivity.
  - split.
    + intros j Hj. subst st'. unfold handleCostAdjust. cbn [adjustedDamages].
      apply list_lookup_alter_ne. congruence.
    + intros ->. rewrite Htotal. cbn [default inject_Z]. ring.
Qed.

Lemma cost_edit_moves_total_witness :
  let st := init sampleAssessment in
  adjustedDamages st !! 1%nat = Some sampleHood
  /\ currentTotal (handleCostAdjust 1 (Some 650%Z) st) == 1650
  /\ currentTotal (handleCostAdjust 1 None st) == 1000.
Proof.
  intros st.
  assert (Hd : adjustedDamages st !! 1%nat = Some sampleHood) by reflexivity.
  split; [exact Hd|]. split.
  - rewrite (proj1 (cost_edit_moves_total st 1 (Some 650%Z) sampleHood Hd)).
    vm_compute. reflexivity.
  - rewrite (proj1 (cost_edit_moves_total st 1 None sampleHood Hd)).
    vm_compute. reflexivity.
Defined.

Lemma adjustmentsFrom_spec (original adjusted : list DamageItem) :
  forall (k : nat) (adjs : list DamageAdjustment),
    adjustmentsFrom original k adjusted = Some adjs ->
    forall adj,
      adj ∈ adjs <->
      exists i now was,
        adjusted !! i = Some now
        /\ original !! (k + i)%nat = Some was
        /\ Qeq_bool (estimatedCost now) (estimatedCost was) = false
        /\ adj = {| damageIndex := k + i;
                    originalCost := estimatedCost was;
                    adjustedCost := estimatedCost now;
                    reason := "Manual adjustment by claims agent" |}.
Proof.
  induction adjusted as [|d rest IH]; intros k adjs Hadjs adj.
  - cbn in Hadjs. injection Hadjs as <-. split.
    + intros Hin. inversion Hin.
    + intros (i & now & was & Hnow & _). discriminate.
  - cbn [adjustmentsFrom] in Hadjs.
    destruct (original !! k) as [was|] eqn:Hwas; [|discriminate].
    destruct (adjustmentsFrom original (S k) rest) as [more|] eqn:Hmore; [|discriminate].
    injection Hadjs as <-. specialize (IH (S k) more Hmore adj).
    assert (Hrest : adj ∈ more <->
              exists i now was',
                (d :: rest) !! S i = Some now
                /\ original !! (k + S i)%nat = Some was'
                /\ Qeq_bool (estimatedCost now) (estimatedCost was') = false
                /\ adj = {| damageIndex := k + S i;
                            originalCost := estimatedCost was';
                            adjustedCost := estimatedCost now;
                            reason := "Manual adjustment by claims agent" |}).
    { rewrite IH. split; intros (i & now & was' & H); exists i, now, was';
        rewrite Nat.add_succ_r in *; exact H. }
    destruct (Qeq_bool (estimatedCost d) (estimatedCost was)) eqn:Hsame.
    + rewrite Hrest. split.
      * intros (i & now & was' & H). exists (S i), now, was'. exact H.
      * intros (i & now & was' & Hnow & Hwas' & Hdiff & Hadj). destruct i as [|i].
        -- rewrite Nat.add_0_r in Hwas'. cbn in Hnow. congruence.
        -- exists i, now, was'. auto.
    + rewrite elem_of_cons, Hrest. split.
      * intros [-> | (i & now & was' & H)].
        -- exists 0%nat, d, was. rewrite Nat.add_0_r. auto.
        -- exists (S i), now, was'. exact H.
      * intros (i & now & was' & Hnow & Hwas' & Hdiff & Hadj). destruct i as [|i].
        -- left. rewrite Nat.add_0_r in *. cbn in Hnow. congruence.
        -- right. exists i, now, was'. auto.
Qed.

Lemma adjustmentsFrom_sum (original adjusted : list DamageItem) :
  forall (k : nat) (adjs : list DamageAdjustment),
    adjustmentsFrom original k adjusted = Some adjs ->
    sum_by estimatedCost adjusted
    == sum_by estimatedCost (take (length adjusted) (drop k original))
       + sum_by (fun adj => adjustedCost adj - originalCost adj) adjs.
Proof.
  induction adjusted as [|d rest IH]; intros k adjs Hadjs.
  - cbn in Hadjs. injection Hadjs as <-. cbn [length]. rewrite take_0, !sum_by_nil. ring.
  - cbn [adjustmentsFrom] in Hadjs.
    destruct (original !! k) as [was|] eqn:Hwas; [|discriminate].
    destruct (adjustmentsFrom original (S k) rest) as [more|] eqn:Hmore; [|discriminate].
    injection Hadjs as <-. specialize (IH (S k) more Hmore).
    rewrite (drop_S _ _ _ Hwas). cbn [length]. rewrite firstn_cons. rewrite !sum_by_cons, IH.
    destruct (Qeq_bool (estimatedCost d) (estimatedCost was)) eqn:Hsame.
    + apply Qeq_bool_eq in Hsame. rewrite Hsame. ring.
    + rewrite sum_by_cons. cbn [adjustedCost originalCost]. ring.
Qed.

(** X21. What an approval records.  The [adjustments] list exactly the
    rows whose cost differs from the cost the review was opened with, each
    with its position, that opening cost and the current cost; and the
    adjusted total is the opening total plus the recorded differences, so
    an approval without adjustments carries the opening total. *)
Theorem approval_records_adjustments (a : AssessmentResult) (now : string)
    (edits : list (nat * option Z)) :
  exists fa,
    handleApprove a now (session a edits) = Some fa
    /\ damages (assessment fa) = adjustedDamages (session a edits)
    /\ (forall adj,
          adj ∈ adjustments fa <->
          exists d,
            damages a !! damageIndex adj = Some d
            /\ ~ editedCost edits (damageIndex adj) (estimatedCost d) == estimatedCost d
            /\ adj = {| damageIndex := damageIndex adj;
                        originalCost := estimatedCost d;
                        adjustedCost :=
                          editedCost edits (damageIndex adj) (estimatedCost d);
                        reason := "Manual adjustment by claims agent" |})
    /\ adjustedTotal fa
       == sum_by estimatedCost (damages a)
          + sum_by (fun adj => adjustedCost adj - originalCost adj) (adjustments fa)
    /\ (adjustments fa = [] -> adjustedTotal fa == sum_by estimatedCost (damages a)).
Proof.
  pose proof (session_length a edits) as Hlen.
  pose proof (session_lookup a edits) as Hrows.
  destruct (adjustmentsFrom_total (damages a) (adjustedDamages (session a edits)) 0)
    as [adjs Hadjs]; [rewrite Hlen; lia|].
  unfold handleApprove. rewrite Hadjs. eexists. split; [reflexivity|].
  cbn [assessment damages adjustments adjustedTotal].
  split; [reflexivity|].
  assert (Hsum : currentTotal (session a edits)
                 == sum_by estimatedCost (damages a)
                    + sum_by (fun adj => adjustedCost adj - originalCost adj) adjs).
  { unfold currentTotal. rewrite (adjustmentsFrom_sum _ _ 0 adjs Hadjs).
    rewrite Hlen, drop_0, firstn_all. reflexivity. }
  split; [|split; [exact Hsum|]].
  - intros adj. rewrite (adjustmentsFrom_spec _ _ 0 adjs Hadjs adj). cbn [Nat.add]. split.
    + intros (i & now' & was & Hnow & Hwas & Hdiff & ->). cbn [damageIndex].
      exists was. rewrite (Hrows i was Hwas) in Hnow. injection Hnow as <-.
      cbn [estimatedCost withCost] in *. split; [exact Hwas|]. split; [|reflexivity].
      apply Qeq_bool_neq. exact Hdiff.
    + intros (d & Hd & Hdiff & Hadj).
      exists (damageIndex adj), (withCost (editedCost edits (damageIndex adj)
                                             (estimatedCost d)) d), d.
      split; [exact (Hrows _ d Hd)|]. split; [exact Hd|].
      cbn [estimatedCost withCost]. split; [|exact Hadj].
      destruct (Qeq_bool _ _) eqn:Hsame; [|reflexivity].
      apply Qeq_bool_eq in Hsame. contradiction.
  - intros Hnone. rewrite Hsum, Hnone, sum_by_nil. ring.
Qed.
End ReviewSessionFacts.

(** ** The confirmation screen *)

Section ConfirmationFacts.
Import Review Confirmation.

Lemma sum_by_imap_ext {A B} (g : B -> Q) (h : A -> Q) (l : list A) :
  forall (f : nat -> A -> B),
    (forall i x, l !! i = Some x -> g (f i x) == h x) ->
    sum_by g (imap f l) == sum_by h l.
Proof.
  induction l as [|x l IH]; intros f Hf; [reflexivity|].
  cbn [imap]. rewrite !sum_by_cons, (Hf 0%nat x eq_refl).
  rewrite (IH (f ∘ S)); [reflexivity|].
  intros i y Hy. exact (Hf (S i) y Hy).
Qed.

Lemma costCell_of_adjustments (original adjusted : list DamageItem)
    (adjs : list DamageAdjustment) (index : nat) (now was : DamageItem) :
  adjustmentsFrom original 0 adjusted = Some adjs ->
  adjusted !! index = Some now -> original !! index = Some was ->
  costCell adjs index now
  = if Qeq_bool (estimatedCost now) (estimatedCost was)
    then Plain (estimatedCost now)
    else Struck (estimatedCost was) (estimatedCost now).
Proof.
  intros Hadjs Hnow Hwas. unfold costCell.
  pose proof (adjustmentsFrom_spec original adjusted 0 adjs Hadjs) as Hspec.
  destruct (List.find _ adjs) as [adj|] eqn:Hfind.
  - apply find_some in Hfind. destruct Hfind as [Hin Hidx].
    apply Nat.eqb_eq in Hidx. apply list_elem_of_In, Hspec in Hin.
    destruct Hin as (i & now' & was' & Hnow' & Hwas' & Hdiff & ->).
    cbn [Nat.add damageIndex] in *. subst i.
    rewrite Hnow in Hnow'. rewrite Hwas in Hwas'.
    injection Hnow' as <-. injection Hwas' as <-.
    rewrite Hdiff. reflexivity.
  - destruct (Qeq_bool (estimatedCost now) (estimatedCost was)) eqn:Hsame;
      [reflexivity|].
    exfalso.
    assert (Hin : {| damageIndex := index;
                     originalCost := estimatedCost was;
                     adjustedCost := estimatedCost now;
                     reason := "Manual adjustment by claims agent" |} ∈ adjs).
    { apply Hspec. exists index, now, was. cbn [Nat.add]. auto. }
    apply list_elem_of_In in Hin.
    pose proof (find_none _ _ Hfind _ Hin) as Hidx.
    cbn [damageIndex] in Hidx. rewrite Nat.eqb_refl in Hidx. discriminate.
Qed.

(** X22. The exported summary agrees with the approval it prints: it has
    one row per item of the assessment under review, a row shows the
    opening cost struck through beside the current cost exactly when the
    two differ and the plain cost otherwise, and the amounts the rows
    count for add up to the adjusted total. *)
Theorem summary_rows_match_approval (a : AssessmentResult) (now : string)
    (edits : list (nat * option Z)) :
  exists fa,
    handleApprove a now (session a edits) = Some fa
    /\ length (damageRows fa) = length (damages a)
    /\ (forall index d,
          damages a !! index = Some d ->
          damageRows fa !! index
          = Some (let cost := editedCost edits index (estimatedCost d) in
                  if Qeq_bool cost (estimatedCost d)
                  then Plain cost else Struck (estimatedCost d) cost))
    /\ sum_by shownCost (damageRows fa) == adjustedTotal fa.
Proof.
  pose proof (session_length a edits) as Hlen.
  destruct (adjustmentsFrom_total (damages a) (adjustedDamages (session a edits)) 0)
    as [adjs Hadjs]; [rewrite Hlen; lia|].
  unfold handleApprove. rewrite Hadjs. eexists. split; [reflexivity|].
  unfold damageRows. cbn [assessment damages adjustments adjustedTotal].
  split; [rewrite length_imap; exact Hlen|]. split.
  - intros index d Hd. rewrite list_lookup_imap, (session_lookup a edits index d Hd).
    cbn [fmap option_fmap option_map].
    rewrite (costCell_of_adjustments (damages a) _ adjs index _ d Hadjs
               (session_lookup a edits index d Hd) Hd).
    reflexivity.
  - unfold currentTotal. apply sum_by_imap_ext. intros i x Hx.
    destruct (lookup_lt_is_Some_2 (damages a) i) as [was Hwas].
    { rewrite <- Hlen. exact (lookup_lt_Some _ _ _ Hx). }
    rewrite (costCell_of_adjustments (damages a) _ adjs i x was Hadjs Hx Hwas).
    destruct (Qeq_bool (estimatedCost x) (estimatedCost was)); reflexivity.
Qed.

Lemma js_round_ge (x : Q) (k : Z) : inject_Z k <= js_round x <-> inject_Z k - (1 # 2) <= x.
Proof.
  unfold js_round. rewrite <- Zle_Qle. split.
  - intros Hk. pose proof (Qfloor_le (x + (1 # 2))) as Hfl.
    rewrite Zle_Qle in Hk. lra.
  - intros Hx. rewrite <- (Qfloor_Z k). apply Qfloor_resp_le. lra.
Qed.

Lemma js_round_near (x : Q) : x - (1 # 2) < js_round x /\ js_round x <= x + (1 # 2).
Proof.
  unfold js_round. pose proof (Qfloor_le (x + (1 # 2))) as Hlo.
  pose proof (Qlt_floor (x + (1 # 2))) as Hhi.
  rewrite inject_Z_plus in Hhi. change (inject_Z 1) with 1 in Hhi. split; lra.
Qed.

Lemma js_round_mono (x y : Q) : x <= y -> js_round x <= js_round y.
Proof.
  intros Hxy. unfold js_round. rewrite <- Zle_Qle. apply Qfloor_resp_le. lra.
Qed.

Lemma rounding_respects_eq (fl : Q -> Q) :
  (forall x y, x <= y -> fl x <= fl y) -> forall x y, x == y -> fl x == fl y.
Proof.
  intros Hmono x y Hxy. apply Qle_antisym; apply Hmono; rewrite Hxy; apply Qle_refl.
Qed.

Lemma savings_mono (fl : Q -> Q) (t1 t2 : Q) :
  (forall x y, x <= y -> fl x <= fl y) ->
  t1 <= t2 -> timeSavingsPercent fl t2 <= timeSavingsPercent fl t1.
Proof.
  intros Hmono Ht. unfold timeSavingsPercent.
  change (Qgtb manualTimeEstimate 0) with true. cbv iota.
  apply js_round_mono, Hmono.
  assert (Ha : fl (t1 / manualTimeEstimate) <= fl (t2 / manualTimeEstimate)).
  { apply Hmono. unfold Qdiv. change (/ manualTimeEstimate) with (1 # 900). lra. }
  assert (Hb : fl (1 - fl (t2 / manualTimeEstimate))
               <= fl (1 - fl (t1 / manualTimeEstimate))) by (apply Hmono; lra).
  lra.
Qed.

Lemma savings_at (fl : Q -> Q) (t : Q) :
  (forall x y, x <= y -> fl x <= fl y) ->
  fl 0 == 0 -> fl 1 == 1 -> fl 100 == 100 ->
  (t == 0 -> timeSavingsPercent fl t == 100)
  /\ (t == 900 -> timeSavingsPercent fl t == 0).
Proof.
  intros Hmono H0 H1 H100.
  pose proof (rounding_respects_eq fl Hmono) as Heq.
  unfold timeSavingsPercent. change (Qgtb manualTimeEstimate 0) with true. cbv iota.
  unfold Qdiv. change (/ manualTimeEstimate) with (1 # 900).
  split; intros Ht.
  - assert (Ha : fl (t * (1 # 900)) == 0).
    { transitivity (fl 0); [apply Heq; lra | exact H0]. }
    assert (Hb : fl (1 - fl (t * (1 # 900))) == 1).
    { transitivity (fl 1); [apply Heq; lra | exact H1]. }
    assert (Hc : fl (fl (1 - fl (t * (1 # 900))) * 100) == 100).
    { transitivity (fl 100); [apply Heq; lra | exact H100]. }
    unfold js_round. rewrite (Qfloor_comp _ (100 + (1 # 2))) by lra.
    reflexivity.
  - assert (Ha : fl (t * (1 # 900)) == 1).
    { transitivity (fl 1); [apply Heq; lra | exact H1]. }
    assert (Hb : fl (1 - fl (t * (1 # 900))) == 0).
    { transitivity (fl 0); [apply Heq; lra | exact H0]. }
    assert (Hc : fl (fl (1 - fl (t * (1 # 900))) * 100) == 0).
    { transitivity (fl 0); [apply Heq; lra | exact H0]. }
    unfold js_round. rewrite (Qfloor_comp _ (0 + (1 # 2))) by lra.
    reflexivity.
Qed.

(** X23. The time saving shown on the confirmation screen, against the
    fifteen minutes of a manual assessment, computed in doubles (every
    operation rounds its exact result to the nearest double, which is
    monotone and leaves 0, 1 and 100 as they are).  It is a whole
    percentage; it never goes up when the processing time goes up; it
    reads 100 at time zero and 0 at fifteen minutes, so it lies between 0
    and 100 up to fifteen minutes, is at most 100 for every time that is
    not negative, and is never positive beyond fifteen minutes.  A
    processing time of zero, being falsy, falls back to the
    [processingTime] prop. *)
Theorem time_savings_shown (fl : Q -> Q) (fa : FinalAssessment) (prop : option Q) :
  (forall x y, x <= y -> fl x <= fl y) ->
  fl 0 == 0 -> fl 1 == 1 -> fl 100 == 100 ->
  0 <= processingTime (assessment fa) ->
  (forall t', prop = Some t' -> 0 <= t') ->
  let t := aiProcessingTime fa prop in
  let p := timeSavingsPercent fl t in
  0 <= t
  /\ (~ processingTime (assessment fa) == 0 -> t = processingTime (assessment fa))
  /\ (processingTime (assessment fa) == 0 -> t == default 0 prop)
  /\ (exists k, p = inject_Z k)
  /\ p <= 100
  /\ (t == 0 -> p == 100)
  /\ (t <= 900 -> 0 <= p)
  /\ (900 <= t -> p <= 0)
  /\ (forall t', t <= t' -> timeSavingsPercent fl t' <= p).
Proof.
  intros Hmono H0 H1 H100 Hpos Hprop t p.
  assert (Ht : 0 <= t
               /\ (~ processingTime (assessment fa) == 0 ->
                   t = processingTime (assessment fa))
               /\ (processingTime (assessment fa) == 0 -> t == default 0 prop)).
  { subst p t. unfold aiProcessingTime.
    destruct (Qeq_bool (processingTime (assessment fa)) 0) eqn:Hzero.
    - apply Qeq_bool_eq in Hzero.
      split; [|split; [intros Hne; contradiction|intros _]].
      + destruct prop as [t'|]; cbv beta iota; [|apply Qle_refl].
        destruct (Qeq_bool t' 0); [apply Qle_refl | exact (Hprop t' eq_refl)].
      + destruct prop as [t'|]; cbv beta iota; [|reflexivity]. cbn [default id].
        destruct (Qeq_bool t' 0) eqn:Hzero'; [|reflexivity].
        apply Qeq_bool_eq in Hzero'. cbn [id]. lra.
    - apply Qeq_bool_neq in Hzero.
      split; [exact Hpos|]. split; [reflexivity|]. intros Hz. contradiction. }
  destruct Ht as (Ht & Hsame & Hfallback).
  split; [exact Ht|]. split; [exact Hsame|]. split; [exact Hfallback|].
  clearbody t. subst p.
  destruct (savings_at fl 0 Hmono H0 H1 H100) as [Hzero _].
  destruct (savings_at fl 900 Hmono H0 H1 H100) as [_ Hfull].
  pose proof (Hzero ltac:(reflexivity)) as Hstart.
  pose proof (Hfull ltac:(reflexivity)) as Hend.
  split; [unfold timeSavingsPercent, js_round;
          change (Qgtb manualTimeEstimate 0) with true; cbv iota; eauto|].
  split; [rewrite <- Hstart; apply savings_mono; assumption|].
  split; [intros Hz; exact (proj1 (savings_at fl t Hmono H0 H1 H100) Hz)|].
  split; [intros Hle; rewrite <- Hend; apply savings_mono; assumption|].
  split; [intros Hge; rewrite <- Hend; apply savings_mono; assumption|].
  intros t' Hle. apply savings_mono; assumption.
Qed.

Lemma roundToGrid_mono (x y : Q) : x <= y -> roundToGrid x <= roundToGrid y.
Proof.
  intros Hxy. unfold roundToGrid.
  assert (Hscale : x * inject_Z (2 ^ 20) + (1 # 2) <= y * inject_Z (2 ^ 20) + (1 # 2)).
  { apply Qplus_le_l. apply Qmult_le_compat_r; [exact Hxy | discriminate]. }
  apply Qfloor_resp_le in Hscale. rewrite Zle_Qle in Hscale.
  unfold Qdiv. apply Qmult_le_compat_r; [exact Hscale | discriminate].
Qed.

Lemma time_savings_shown_witness :
  (forall x y, x <= y -> roundToGrid x <= roundToGrid y)
  /\ roundToGrid 0 == 0 /\ roundToGrid 1 == 1 /\ roundToGrid 100 == 100
  /\ exists fa,
       handleApprove sampleAssessment "now" (init sampleAssessment) = Some fa
       /\ aiProcessingTime fa None == 2.3
       /\ 0 <= timeSavingsPercent roundToGrid (aiProcessingTime fa None)
       /\ timeSavingsPercent roundToGrid (aiProcessingTime fa None) <= 100
       /\ timeSavingsPercent roundToGrid (aiProcessingTime fa None) == 100.
Proof.
  assert (H0 : roundToGrid 0 == 0) by (vm_compute; reflexivity).
  assert (H1 : roundToGrid 1 == 1) by (vm_compute; reflexivity).
  assert (H100 : roundToGrid 100 == 100) by (vm_compute; reflexivity).
  split; [exact roundToGrid_mono|]. split; [exact H0|]. split; [exact H1|].
  split; [exact H100|].
  eexists. split; [reflexivity|]. split; [reflexivity|].
  match goal with
  | |- 0 <= timeSavingsPercent roundToGrid (aiProcessingTime ?fa None) /\ _ =>
      destruct (time_savings_shown roundToGrid fa None roundToGrid_mono H0 H1 H100)
        as (_ & _ & _ & _ & Hle & _ & Hnn & _);
        [discriminate | intros t' Hnone; discriminate Hnone |]
  end.
  split; [apply Hnn; discriminate|]. split; [exact Hle|]. vm_compute. reflexivity.
Defined.

Lemma floor_of_nonneg (q : Q) : 0 <= q -> 0 <= js_floor q.
Proof.
  intros Hq. unfold js_floor. change 0 with (inject_Z 0). rewrite <- Zle_Qle.
  rewrite <- (Qfloor_Z 0). apply Qfloor_resp_le. exact Hq.
Qed.

Lemma js_floor_near (q : Q) : js_floor q <= q /\ q < js_floor q + 1.
Proof.
  unfold js_floor. pose proof (Qfloor_le q) as Hlo. pose proof (Qlt_floor q) as Hhi.
  rewrite inject_Z_plus in Hhi. change (inject_Z 1) with 1 in Hhi. split; lra.
Qed.

Lemma js_floor_ge (q : Q) (k : Z) : inject_Z k <= js_floor q <-> inject_Z k <= q.
Proof.
  unfold js_floor. rewrite <- Zle_Qle. split.
  - intros Hk. rewrite Zle_Qle in Hk. pose proof (Qfloor_le q). lra.
  - intros Hq. rewrite <- (Qfloor_Z k). apply Qfloor_resp_le. exact Hq.
Qed.

(** X24. The processing time printed by [formatTime], for a time that is
    not negative: the text has a minutes part exactly from 60 seconds on;
    both parts are whole numbers, the seconds between 0 and 60, and
    together they are within half a second of the time.  The seconds part
    reads 60 exactly when the time is within half a second below a full
    minute. *)
Theorem formatTime_shown (seconds : Q) :
  0 <= seconds ->
  let mins := js_floor (seconds / 60) in
  exists secs k,
    formatTime seconds = (if Qgtb mins 0 then MinSec mins secs else Sec secs)
    /\ secs = inject_Z k
    /\ (Qgtb mins 0 = true <-> 60 <= seconds)
    /\ 0 <= mins
    /\ 0 <= secs /\ secs <= 60
    /\ seconds - (1 # 2) < 60 * mins + secs
    /\ 60 * mins + secs <= seconds + (1 # 2)
    /\ (secs == 60 <-> 60 * mins + 59.5 <= seconds).
Proof.
  intros Hpos mins.
  assert (Hq : 0 <= seconds / 60).
  { unfold Qdiv. change (/ 60) with (1 # 60). lra. }
  assert (Hrem : js_rem seconds 60 = seconds - 60 * mins).
  { unfold js_rem. cbv zeta.
    rewrite (proj2 (Qle_bool_iff 0 (seconds / 60)) Hq). reflexivity. }
  destruct (js_floor_near (seconds / 60)) as [Hlo Hhi]. fold mins in Hlo, Hhi.
  unfold Qdiv in Hlo, Hhi. change (/ 60) with (1 # 60) in Hlo, Hhi.
  set (r := seconds - 60 * mins) in *.
  assert (Hr : 0 <= r /\ r < 60) by (subst r; lra).
  destruct (js_round_near r) as [Hnear1 Hnear2].
  pose proof (js_round_ge r 0) as H0. pose proof (js_round_ge r 60) as H60.
  change (inject_Z 0) with 0 in H0. change (inject_Z 60) with 60 in H60.
  assert (Hle : js_round r <= 60).
  { unfold js_round. change 60 with (inject_Z 60). rewrite <- Zle_Qle.
    assert (Hlt : (Qfloor (r + (1 # 2)) < 61)%Z); [|lia].
    rewrite Zlt_Qlt. pose proof (Qfloor_le (r + (1 # 2))) as Hfl.
    change (inject_Z 61) with 61. lra. }
  exists (js_round r), (Qfloor (r + (1 # 2))).
  split; [unfold formatTime; cbv zeta; rewrite Hrem; reflexivity|].
  split; [reflexivity|]. split.
  { rewrite Qgtb_gt. pose proof (js_floor_ge (seconds / 60) 1) as H1.
    fold mins in H1. change (inject_Z 1) with 1 in H1.
    unfold Qdiv in H1. change (/ 60) with (1 # 60) in H1. split.
    - intros Hmins. destruct (Qlt_le_dec seconds 60) as [Hlt|Hge]; [|exact Hge].
      exfalso. subst mins. unfold js_floor in Hmins, Hlo.
      change 0 with (inject_Z 0) in Hmins. rewrite <- Zlt_Qlt in Hmins.
      assert (Hone : (1 <= Qfloor (seconds / 60))%Z) by lia.
      rewrite Zle_Qle in Hone. change (inject_Z 1) with 1 in Hone. lra.
    - intros Hge. assert (H : 1 <= mins) by (apply H1; lra). lra. }
  split; [exact (floor_of_nonneg _ Hq)|].
  split; [apply H0; lra|]. split; [exact Hle|].
  split; [subst r; lra|]. split; [subst r; lra|]. split.
  - intros Heq. assert (H : 60 - (1 # 2) <= r) by (apply H60; lra). subst r. lra.
  - intros Hlate. assert (H : 60 <= js_round r) by (apply H60; subst r; lra). lra.
Qed.

Lemma formatTime_shown_witness :
  0 <= 119.6
  /\ formatTime 119.6 = MinSec (inject_Z 1) (inject_Z 60)
  /\ exists secs, secs == 60 /\ 60 * js_floor (119.6 / 60) + 59.5 <= 119.6.
Proof.
  assert (Hpos : 0 <= 119.6) by discriminate.
  split; [exact Hpos|]. split; [vm_compute; reflexivity|].
  destruct (formatTime_shown 119.6 Hpos)
    as (secs & k & Htext & _ & _ & _ & _ & _ & _ & _ & Hsixty).
  exists secs.
  assert (Hsecs : secs == 60).
  { vm_compute in Htext. injection Htext as <-. reflexivity. }
  split; [exact Hsecs | exact (proj1 Hsixty Hsecs)].
Defined.
End ConfirmationFacts.

(** ** Uploading photos *)

Section UploaderFacts.
Import Uploader.

Variable createObjectURL : File -> string.

Lemma pushFile_fold (images : list UploadedImage) (files : list File) :
  forall acc : list UploadedImage,
    exists new,
      foldl (pushFile createObjectURL images) acc files = acc ++ new
      /\ file <$> new = filter (fun f => isImage f = true) files
      /\ forall k img,
           new !! k = Some img ->
           label img = labelOf (length images + length acc + k + 1)
           /\ isImage (file img) = true.
Proof.
  induction files as [|f files IH]; intros acc.
  - exists []. rewrite app_nil_r. split; [reflexivity|]. split; [reflexivity|].
    intros k img Hk. discriminate.
  - cbn [foldl]. unfold pushFile at 2. rewrite filter_cons.
    destruct (isImage f) eqn:Himg.
    + rewrite decide_True by reflexivity.
      destruct (IH (acc ++ [ {| file := f; preview := createObjectURL f;
                                label := labelOf (length images + length acc + 1) |} ]))
        as (new & Hfold & Hfiles & Hlabels).
      eexists (_ :: new). rewrite Hfold, <- app_assoc. split; [reflexivity|].
      split; [cbn; rewrite Hfiles; reflexivity|].
      intros k img Hk. destruct k as [|k]; cbn in Hk.
      * injection Hk as <-. cbn [label file]. rewrite Nat.add_0_r. auto.
      * destruct (Hlabels k img Hk) as [Hl Hi]. split; [|exact Hi].
        rewrite Hl, length_app. cbn [length]. f_equal. lia.
    + rewrite decide_False by congruence.
      destruct (IH acc) as (new & Hfold & Hfiles & Hlabels). exists new. auto.
Qed.

Lemma handleFiles_spec (files : list File) (images : list UploadedImage) :
  exists new,
    handleFiles createObjectURL files images = images ++ new
    /\ file <$> new = filter (fun f => isImage f = true) files
    /\ forall k img,
         new !! k = Some img ->
         label img = labelOf (length images + k + 1) /\ isImage (file img) = true.
Proof.
  destruct (pushFile_fold images files []) as (new & Hfold & Hfiles & Hlabels).
  exists new. unfold handleFiles. rewrite Hfold. split; [reflexivity|].
  split; [exact Hfiles|]. intros k img Hk.
  destruct (Hlabels k img Hk) as [Hl Hi]. split; [|exact Hi].
  rewrite Hl. cbn [length]. f_equal. lia.
Qed.

Lemma removeImage_lookup (index : nat) (images : list UploadedImage)
    (i : nat) (img : UploadedImage) :
  (index < length images)%nat ->
  removeImage index images !! i = Some img ->
  exists j, images !! j = Some img /\ (i <= j)%nat.
Proof.
  intros Hin. unfold removeImage. intros Hi.
  apply lookup_app_Some in Hi. destruct Hi as [Hi | [Hge Hi]].
  - apply lookup_take_Some in Hi. destruct Hi as [Hi _]. exists i. auto.
  - rewrite length_take, lookup_drop in Hi. eexists. split; [exact Hi|]. lia.
Qed.

(** X25. The photos held by the uploader after any additions and
    removals: every one is a file whose type starts with image/, each
    batch appends its image files in their order and drops the others,
    a photo's label number is never below its position (it is the place
    the photo took when added, and is not renumbered), and without
    removals the labels count 1, 2, 3 and so on.  Nothing is submitted
    while the list is empty. *)
Theorem uploader_images (events : list Event) :
  let images := run createObjectURL events in
  (forall i img,
      images !! i = Some img ->
      isImage (file img) = true
      /\ exists n, label img = labelOf n /\ (i < n)%nat)
  /\ (Forall (fun e => exists files, e = AddFiles files) events ->
      forall i img, images !! i = Some img -> label img = labelOf (i + 1))
  /\ (forall files,
        file <$> run createObjectURL (events ++ [AddFiles files])
        = (file <$> images) ++ filter (fun f => isImage f = true) files)
  /\ (handleSubmit images = [] <-> images = [])
  /\ forall submitted, submitted ∈ handleSubmit images ->
       submitted = images /\ (0 < length submitted)%nat.
Proof.
  intros images. split; [|split; [|split; [|split]]].
  - subst images. induction events as [|e events IH] using rev_ind.
    + intros i img Hi. discriminate.
    + unfold run. rewrite foldl_app. cbn [foldl]. fold (run createObjectURL events).
      intros i img Hi. destruct e as [files|index]; cbn [step] in Hi.
      * destruct (handleFiles_spec files (run createObjectURL events))
          as (new & Hadd & _ & Hlabels).
        rewrite Hadd in Hi. apply lookup_app_Some in Hi.
        destruct Hi as [Hi | [Hge Hi]]; [exact (IH i img Hi)|].
        destruct (Hlabels _ img Hi) as [Hl Himg]. split; [exact Himg|].
        eexists. split; [exact Hl|]. lia.
      * destruct (index <? length (run createObjectURL events))%nat eqn:Hin;
          [|exact (IH i img Hi)].
        apply Nat.ltb_lt in Hin.
        destruct (removeImage_lookup index _ i img Hin Hi) as (j & Hj & Hij).
        destruct (IH j img Hj) as (Himg & n & Hl & Hn). split; [exact Himg|].
        exists n. split; [exact Hl | lia].
  - subst images. induction events as [|e events IH] using rev_ind.
    + intros _ i img Hi. discriminate.
    + intros Hadds. apply Forall_app in Hadds. destruct Hadds as [Hadds He].
      rewrite Forall_singleton in He. destruct He as [files ->].
      unfold run. rewrite foldl_app. cbn [foldl step].
      fold (run createObjectURL events). intros i img Hi.
      destruct (handleFiles_spec files (run createObjectURL events))
        as (new & Hadd & _ & Hlabels).
      rewrite Hadd in Hi. apply lookup_app_Some in Hi.
      destruct Hi as [Hi | [Hge Hi]]; [exact (IH Hadds i img Hi)|].
      destruct (Hlabels _ img Hi) as [Hl _]. rewrite Hl. f_equal. lia.
  - intros files. unfold run. rewrite foldl_app. cbn [foldl step].
    fold (run createObjectURL events). fold images.
    destruct (handleFiles_spec files images) as (new & Hadd & Hfiles & _).
    rewrite Hadd, fmap_app, Hfiles. reflexivity.
  - unfold handleSubmit. destruct images; cbn; split; congruence.
  - intros submitted Hin. unfold handleSubmit in Hin.
    destruct images as [|img rest]; cbn in Hin; [inversion Hin|].
    apply list_elem_of_singleton in Hin. subst submitted. split; [reflexivity|].
    cbn. lia.
Qed.
End UploaderFacts.

(** ** Marking damage *)

Section MarkingFacts.
Import Marking.

Lemma dropIndexFrom_past (markers : list Route.DamageMarker) :
  forall i index, (index < i)%nat -> dropIndexFrom i index markers = markers.
Proof.
  induction markers as [|m rest IH]; intros i index Hlt; [reflexivity|].
  cbn [dropIndexFrom]. destruct (i =? index)%nat eqn:Heq.
  - apply Nat.eqb_eq in Heq. lia.
  - rewrite IH by lia. reflexivity.
Qed.

Lemma dropIndexFrom_delete (markers : list Route.DamageMarker) :
  forall i index,
    (i <= index)%nat ->
    dropIndexFrom i index markers
    = take (index - i) markers ++ drop (S (index - i)) markers.
Proof.
  induction markers as [|m rest IH]; intros i index Hle.
  - cbn. rewrite take_nil. reflexivity.
  - cbn [dropIndexFrom]. destruct (i =? index)%nat eqn:Heq.
    + apply Nat.eqb_eq in Heq. subst index. rewrite Nat.sub_diag.
      rewrite dropIndexFrom_past by lia. reflexivity.
    + apply Nat.eqb_neq in Heq. rewrite (IH (S i) index) by lia.
      replace (index - i)%nat with (S (index - S i)) by lia. reflexivity.
Qed.

(** X26. Markers on the marking screen.  A click inside the image adds
    one marker at the end of the list, for the selected image, with both
    coordinates between 0 and 100; removing a marker takes out the one at
    that position and keeps the others in order, so removing the marker
    just added gives the list back; and after a click the submit button
    is enabled. *)
Theorem marker_click_and_removal (rect : Rect) (clientX clientY : Q)
    (selectedImageIndex : nat) (markers : list Route.DamageMarker) :
  0 < width rect -> 0 < height rect ->
  left rect <= clientX <= left rect + width rect ->
  top rect <= clientY <= top rect + height rect ->
  exists m,
    handleImageClick (Some rect) clientX clientY selectedImageIndex markers
    = markers ++ [m]
    /\ (0 <= Route.x m /\ Route.x m <= 100)
    /\ (0 <= Route.y m /\ Route.y m <= 100)
    /\ Route.imageIndex m = selectedImageIndex
    /\ removeMarker (length markers) (markers ++ [m]) = markers
    /\ (forall index,
          removeMarker index (markers ++ [m])
          = take index (markers ++ [m]) ++ drop (S index) (markers ++ [m]))
    /\ submitEnabled (markers ++ [m]) = true
    /\ m ∈ currentImageMarkers selectedImageIndex (markers ++ [m]).
Proof.
  intros Hw Hh [Hx1 Hx2] [Hy1 Hy2].
  assert (Hscale : forall a w, 0 < w -> 0 <= a -> a <= w ->
                     0 <= a / w * 100 /\ a / w * 100 <= 100).
  { intros a w Hpos Ha Haw.
    assert (H0 : 0 <= a / w) by (apply Qle_shift_div_l; [exact Hpos | lra]).
    assert (H1 : a / w <= 1) by (apply Qle_shift_div_r; [exact Hpos | lra]).
    split; lra. }
  eexists. split; [reflexivity|]. cbn [Route.x Route.y Route.imageIndex].
  split; [apply Hscale; [exact Hw | lra | lra]|].
  split; [apply Hscale; [exact Hh | lra | lra]|].
  split; [reflexivity|].
  assert (Hdel : forall index ms,
             removeMarker index ms = take index ms ++ drop (S index) ms).
  { intros index ms. unfold removeMarker.
    rewrite dropIndexFrom_delete by lia. rewrite Nat.sub_0_r. reflexivity. }
  split.
  { rewrite Hdel, take_app_length.
    rewrite drop_ge; [apply app_nil_r|]. rewrite length_app. cbn. lia. }
  split; [intros index; apply Hdel|]. split.
  - unfold submitEnabled. rewrite length_app. cbn [length].
    destruct (length markers + 1)%nat eqn:Hn; [lia | reflexivity].
  - unfold currentImageMarkers. apply list_elem_of_filter. split; [reflexivity|].
    apply elem_of_app. right. apply list_elem_of_singleton. reflexivity.
Qed.

Lemma marker_click_and_removal_witness :
  let rect := {| left := 100; top := 50; width := 400; height := 300 |} in
  0 < width rect /\ 0 < height rect
  /\ left rect <= 260 <= left rect + width rect
  /\ top rect <= 215 <= top rect + height rect
  /\ exists m,
       handleImageClick (Some rect) 260 215 0 [] = [m]
       /\ Route.x m == 40 /\ Route.y m == 55
       /\ removeMarker 0 [m] = [].
Proof.
  intros rect.
  assert (Hw : 0 < width rect) by reflexivity.
  assert (Hh : 0 < height rect) by reflexivity.
  assert (Hx : left rect <= 260 <= left rect + width rect) by (split; discriminate).
  assert (Hy : top rect <= 215 <= top rect + height rect) by (split; discriminate).
  split; [exact Hw|]. split; [exact Hh|]. split; [exact Hx|]. split; [exact Hy|].
  destruct (marker_click_and_removal rect 260 215 0 [] Hw Hh Hx Hy)
    as (m & Hclick & _ & _ & _ & Hremove & _).
  exists m. split; [exact Hclick|].
  cbn in Hclick. injection Hclick as <-.
  split; [vm_compute; reflexivity|]. split; [vm_compute; reflexivity|]. reflexivity.
Defined.
End MarkingFacts.

(** ** The page: which screen is shown *)

Section PageFacts.
Import Page.

(** What holds of the page state after any events. *)
Lemma page_invariant (events : list Event) :
  Forall produced events ->
  let st := run events in
  (currentStep st <> claim_form -> is_Some (claimData st))
  /\ (currentStep st = review -> is_Some (assessment st))
  /\ (currentStep st = confirmation -> is_Some (finalAssessment st))
  /\ (currentStep st = assessment_step \/ currentStep st = review
      \/ currentStep st = confirmation -> images st <> []).
Proof.
  intros Hprod. induction events as [|e events IH] using rev_ind.
  - cbn. repeat split; intros H; try congruence.
    destruct H as [H|[H|H]]; discriminate.
  - apply Forall_app in Hprod. destruct Hprod as [Hprod He].
    rewrite Forall_singleton in He. specialize (IH Hprod).
    unfold run. rewrite foldl_app. cbn [foldl]. fold (run events).
    cbv zeta in IH. destruct IH as (Hdata & Hreview & Hfinal & Himages).
    destruct (run events) as [current data imgs a final m].
    cbn [currentStep claimData assessment finalAssessment images] in *.
    assert (Hnonempty : forall uploaded,
              Uploader.handleSubmit uploaded = [uploaded] -> uploaded <> []).
    { intros uploaded Hsub ->. discriminate. }
    unfold step, render.
    cbn [currentStep claimData assessment finalAssessment images aiMode].
    destruct current, data as [c|], a as [a|], final as [final|], e;
      cbn [currentStep claimData assessment finalAssessment images
           toggleMode handleClaimSubmit handleImagesUploaded setCurrentStep
           handleAssessmentComplete handleApproval handleNewClaim produced] in *;
      repeat split; intros H;
      try congruence; try (eexists; reflexivity);
      try (destruct H as [H|[H|H]]; discriminate);
      try (apply Hnonempty; exact He);
      try (apply Hdata; congruence); try (apply Hreview; congruence);
      try (apply Hfinal; congruence);
      try (apply Himages; auto; fail).
Qed.

(** X27. The page after any events: its main area is never empty; the
    assessment screen is always given at least one photo, the mode of the
    header switch and the vehicle of the submitted claim, and never the
    quick-approval callback, so on this page no analysis and no Quick
    Approve click approves anything; the review always shows the stored
    assessment and the confirmation the stored approval. *)
Theorem page_content (events : list Event) :
  Forall produced events ->
  let st := run events in
  render st <> Nothing
  /\ (forall props,
        render st = ShowAssessment props ->
        Assessment.hasQuickApprove props = false
        /\ Assessment.mode props = aiMode st
        /\ (1 <= Assessment.imageCount props)%nat
        /\ (exists data,
              claimData st = Some data
              /\ Route.make (Assessment.vehicle props) = vehicleMake data
              /\ Route.model (Assessment.vehicle props) = vehicleModel data
              /\ Route.year (Assessment.vehicle props) = vehicleYear data)
        /\ forall humanMarkers w ast,
             (forall a, Assessment.OnQuickApprove a
                        ∉ (Assessment.analyzeImages props humanMarkers w ast).2)
             /\ (Assessment.handleAutoApprove props ast).2 = [])
  /\ (forall a, render st = ShowReview a -> assessment st = Some a)
  /\ (forall final, render st = ShowConfirmation final -> finalAssessment st = Some final).
Proof.
  intros Hprod st.
  destruct (page_invariant events Hprod) as (Hdata & Hreview & Hfinal & Himages).
  fold st in Hdata, Hreview, Hfinal, Himages.
  unfold render. split; [|split; [|split]].
  - destruct (currentStep st) eqn:Hstep; try discriminate.
    + destruct Hdata as [data ->]; [congruence | discriminate].
    + destruct Hdata as [data ->]; [congruence|].
      destruct Hreview as [a ->]; [reflexivity | discriminate].
    + destruct Hdata as [data ->]; [congruence|].
      destruct Hfinal as [final ->]; [reflexivity | discriminate].
  - intros props Hview.
    destruct (currentStep st) eqn:Hstep; try discriminate;
      try (destruct (claimData st), (assessment st); discriminate);
      try (destruct (claimData st), (finalAssessment st); discriminate).
    destruct (claimData st) as [data|] eqn:Hcd; [|discriminate].
    injection Hview as <-.
    cbn [Assessment.hasQuickApprove Assessment.mode Assessment.imageCount
         Assessment.vehicle Route.make Route.model Route.year].
    split; [reflexivity|]. split; [reflexivity|]. split.
    { destruct (images st) eqn:Himgs; [exfalso; apply Himages; auto | cbn; lia]. }
    split; [exists data; auto|].
    intros humanMarkers w ast. split.
    + intros a Hin. unfold Assessment.analyzeImages in Hin.
      cbn [Assessment.mode] in Hin. destruct (aiMode st).
      * unfold Assessment.analyzeLive, Assessment.attempt in Hin.
        destruct (Assessment.conversion w) as [imageData|e0];
          [|cbn in Hin; inversion Hin].
        destruct (Assessment.fetch w _) as [e|[p|c msg]|ok msg]; cbn in Hin;
          apply list_elem_of_singleton in Hin; discriminate.
      * unfold Assessment.analyzeSimulated in Hin.
        destruct (Assessment.requestsHumanInput _ _); [cbn in Hin; inversion Hin|].
        match type of Hin with
        | context [Assessment.autoApproves ?p ?r] =>
            assert (Hno : Assessment.autoApproves p r = false)
              by (unfold Assessment.autoApproves; cbn [Assessment.hasQuickApprove];
                  apply andb_false_r);
            rewrite Hno in Hin
        end.
        cbn in Hin. inversion Hin.
    + unfold Assessment.handleAutoApprove.
      destruct (Assessment.assessment ast); reflexivity.
  - intros a Hview.
    destruct (currentStep st) eqn:Hstep; try discriminate;
      try (destruct (claimData st); discriminate).
    + destruct (claimData st), (assessment st); try discriminate.
      injection Hview as ->. reflexivity.
    + destruct (claimData st), (finalAssessment st); discriminate.
  - intros final Hview.
    destruct (currentStep st) eqn:Hstep; try discriminate;
      try (destruct (claimData st); discriminate).
    + destruct (claimData st), (assessment st); discriminate.
    + destruct (claimData st), (finalAssessment st); try discriminate.
      injection Hview as ->. reflexivity.
Qed.

Lemma page_content_witness :
  let data := {| policyNumber := "POL-2024-123456"; vehicleMake := "Honda";
                 vehicleModel := "Accord"; vehicleYear := "2021";
                 vehicleTrim := None; vehicleValue := None; vin := None;
                 accidentDate := "2024-05-01";
                 accidentDescription := "Rear-ended at a light" |} in
  let photo := {| Uploader.file := {| Uploader.name := "front.jpg";
                                      Uploader.fileType := "image/jpeg" |};
                  Uploader.preview := "blob:1";
                  Uploader.label := Uploader.labelOf 1 |} in
  let events := [ClaimSubmit data; ImagesUploaded [photo]; ToggleMode] in
  Forall produced events
  /\ currentStep (run events) = assessment_step
  /\ forall props,
       render (run events) = ShowAssessment props ->
       Assessment.hasQuickApprove props = false
       /\ Assessment.mode props = Assessment.simulated.
Proof.
  intros data photo events.
  assert (Hprod : Forall produced events).
  { repeat constructor. }
  split; [exact Hprod|]. split; [reflexivity|].
  intros props Hview.
  destruct (proj1 (proj2 (page_content events Hprod)) props Hview)
    as (Hcb & Hmode & _).
  split; [exact Hcb | exact Hmode].
Defined.
End PageFacts.

(** ** Skipping the marker request *)

Section SkipFacts.
Import Assessment.

(** X28. Skipping a marker request keeps the low-confidence result that
    prompted it: the screen then shows that assessment, with confidence
    below 70 and not marked as human-assisted, without the fast-path
    offer and without the Quick Approve button; nothing is called. *)
Theorem skip_shows_unassisted_result (props : Props) (w : Run) (st0 : State) :
  let out := analyzeImages props None w st0 in
  needsHumanInput out.1 = true ->
  let st := handleSkipHumanFeedback out.1 in
  exists a,
    assessment out.1 = Some a
    /\ assessment st = Some a
    /\ needsHumanInput st = false
    /\ aiConfidence a < LOW_CONFIDENCE_THRESHOLD
    /\ hasDamage a = true
    /\ humanAssisted a = None
    /\ Forall (fun e => exists req, e = CallApi req) out.2
    /\ ((damages a = [] /\ render st = NoDamageView a)
        \/ (damages a <> []
            /\ render st = DamageView (getAdjustedTotal (Some a) (overrides st0))
                                      false false)).
Proof.
  intros out Hneeds st.
  assert (Hresult : exists a,
            out.1 = settle st0 false (statusMessage out.1) (quickApproveComplete st0)
                           (Some a) (error st0) true
            /\ requestsHumanInput a None = true
            /\ humanAssisted a = None
            /\ Forall (fun e => exists req, e = CallApi req) out.2).
  { subst st out. revert Hneeds. unfold analyzeImages. destruct (mode props).
    - unfold analyzeLive, attempt. destruct (conversion w) as [imageData|e0].
      + destruct (fetch w _) as [e|[p|c msg]|ok msg];
          cbn [fst snd settle needsHumanInput]; try discriminate.
        intros Hreq. eexists. split; [rewrite Hreq; reflexivity|].
        split; [exact Hreq|]. split; [reflexivity|].
        constructor; [eauto | constructor].
      + cbn [fst snd settle needsHumanInput]. discriminate.
    - unfold analyzeSimulated.
      destruct (requestsHumanInput _ None) eqn:Hreq.
      + intros _. eexists. split; [reflexivity|]. split; [exact Hreq|].
        split; [|constructor].
        unfold simulatedResult, MockEngine.generateMockAssessment.
        cbn [hasMarkers humanAssisted]. destruct (testHasDamage (test st0)); reflexivity.
      + destruct (autoApproves props _); cbn [fst settle needsHumanInput]; discriminate. }
  destruct Hresult as (a & Hst & Hreq & Hassist & Hcalls).
  apply requestsHumanInput_iff in Hreq. destruct Hreq as (Hlow & _ & Hdmg).
  assert (Hcan : forall o, canAutoApprove a o = false).
  { intros o. unfold canAutoApprove.
    replace (Qgeb (aiConfidence a) 85) with false; [reflexivity|].
    symmetry. apply Qgeb_lt. eapply Qlt_le_trans; [exact Hlow | discriminate]. }
  exists a. subst st. rewrite Hst.
  cbn [handleSkipHumanFeedback settle assessment needsHumanInput isAnalyzing
       statusMessage quickApproveComplete error].
  split; [reflexivity|]. split; [reflexivity|]. split; [reflexivity|].
  split; [exact Hlow|]. split; [exact Hdmg|]. split; [exact Hassist|].
  split; [exact Hcalls|].
  unfold render, handleSkipHumanFeedback.
  cbn [settle assessment needsHumanInput isAnalyzing hasStartedAnalysis overrides].
  rewrite bool_decide_eq_true_2 by eauto. rewrite !andb_false_r.
  rewrite Hdmg, Hcan. cbn [negb orb andb].
  destruct (damages a) as [|d ds]; cbn [length Nat.eqb].
  - left. split; reflexivity.
  - right. split; [discriminate | reflexivity].
Qed.

Lemma skip_shows_unassisted_result_witness :
  let tc := {| testConfidence := 60; testSeverity := Minor;
               testHasDamage := true; testHasInconsistency := false |} in
  let out := analyzeImages simulatedProps None offlineRun (startWith tc) in
  needsHumanInput out.1 = true
  /\ exists a,
       assessment (handleSkipHumanFeedback out.1) = Some a
       /\ aiConfidence a < LOW_CONFIDENCE_THRESHOLD
       /\ humanAssisted a = None.
Proof.
  intros tc out.
  assert (Hneeds : needsHumanInput out.1 = true) by reflexivity.
  split; [exact Hneeds|].
  destruct (skip_shows_unassisted_result simulatedProps offlineRun (startWith tc) Hneeds)
    as (a & _ & Hskip & _ & Hlow & _ & Hassist & _).
  exists a. split; [exact Hskip|]. split; [exact Hlow | exact Hassist].
Defined.
End SkipFacts.

(** ** The claim form: VIN lookup *)

Section ClaimFormFacts.
Import ClaimForm.

Lemma upperChar_idem (c : ascii) : upperChar (upperChar c) = upperChar c.
Proof. destruct c as [[] [] [] [] [] [] [] []]; reflexivity. Qed.

Lemma toUpperCase_idem (s : string) : toUpperCase (toUpperCase s) = toUpperCase s.
Proof.
  induction s as [|c s IH]; [reflexivity|].
  cbn [toUpperCase]. rewrite upperChar_idem, IH. reflexivity.
Qed.

Lemma toUpperCase_length (s : string) :
  String.length (toUpperCase s) = String.length s.
Proof. induction s as [|c s IH]; [reflexivity|]. cbn. rewrite IH. reflexivity. Qed.

Lemma trimStart_length (s : string) :
  (String.length (Assessment.trimStart s) <= String.length s)%nat.
Proof.
  induction s as [|c s IH]; [reflexivity|].
  cbn [Assessment.trimStart]. destruct (Assessment.isSpace c); cbn [String.length]; lia.
Qed.

Lemma trimEnd_length (s : string) :
  (String.length (Assessment.trimEnd s) <= String.length s)%nat.
Proof.
  induction s as [|c s IH]; [reflexivity|].
  cbn [Assessment.trimEnd]. destruct (Assessment.trimEnd s) as [|c' rest].
  - destruct (Assessment.isSpace c); cbn [String.length]; lia.
  - cbn [String.length] in *. lia.
Qed.

Lemma normalized_length (entered : string) :
  (String.length (toUpperCase (Assessment.js_trim (toUpperCase entered)))
   <= String.length entered)%nat.
Proof.
  rewrite toUpperCase_length. unfold Assessment.js_trim.
  pose proof (trimEnd_length (Assessment.trimStart (toUpperCase entered))).
  pose proof (trimStart_length (toUpperCase entered)).
  rewrite toUpperCase_length in *. lia.
Qed.

Lemma registered_found (l : list DemoVIN) :
  forall (m : gmap string VehicleInfo) (k : string) (found : VehicleInfo),
    foldl (fun m d => <[demoVin d := info d]> m) m l !! k = Some found ->
    (exists d, d ∈ l /\ demoVin d = k /\ info d = found) \/ m !! k = Some found.
Proof.
  induction l as [|d l IH]; intros m k found Hk; [right; exact Hk|].
  cbn [foldl] in Hk. destruct (IH _ _ _ Hk) as [(d' & Hin & Hd')|Hm].
  - left. exists d'. split; [right; exact Hin | exact Hd'].
  - apply lookup_insert_Some in Hm. destruct Hm as [[<- <-]|[_ Hm]].
    + left. exists d. split; [left | auto].
    + right. exact Hm.
Qed.

Lemma registered_missing (l : list DemoVIN) :
  forall (m : gmap string VehicleInfo) (k : string),
    foldl (fun m d => <[demoVin d := info d]> m) m l !! k = None ->
    forall d, d ∈ l -> demoVin d <> k.
Proof.
  induction l as [|d l IH]; intros m k Hk d' Hin; [inversion Hin|].
  cbn [foldl] in Hk. apply elem_of_cons in Hin. destruct Hin as [->|Hin].
  - clear IH. revert m Hk. induction l as [|e l IHl]; intros m Hk.
    + cbn in Hk. apply lookup_insert_None in Hk. tauto.
    + cbn [foldl] in Hk.
      destruct (decide (demoVin e = demoVin d)) as [Heq|Hne].
      * rewrite Heq in Hk. rewrite insert_insert_eq in Hk.
        intros Hkey. subst k.
        assert (Hsome : is_Some (foldl (fun m d => <[demoVin d := info d]> m)
                                   (<[demoVin d := info e]> m) l !! demoVin d)).
        { clear. revert m. generalize (info e). induction l as [|x l IHx]; intros v m.
          - cbn. rewrite lookup_insert_eq. eauto.
          - cbn [foldl]. destruct (decide (demoVin x = demoVin d)) as [Hx|Hx].
            + rewrite Hx, insert_insert_eq. apply IHx.
            + rewrite insert_insert_ne by congruence. apply IHx. }
        rewrite Hk in Hsome. destruct Hsome; discriminate.
      * rewrite insert_insert_ne in Hk by congruence. exact (IHl _ Hk).
  - exact (IH _ _ Hk d' Hin).
Qed.

(** X29. The VIN lookup, for a VIN typed into the form (printable
    characters, at most the 17 the input keeps).  Below 17 characters
    after trimming the form is left as it is and the message asks for 17
    characters; at exactly 17 the lookup always succeeds, with the demo
    vehicle registered under that VIN or else the Unknown Vehicle
    placeholder, and fills make, model, year, trim and value from it.
    The message that the VIN cannot be decoded never appears. *)
Theorem vin_lookup_outcomes (entered : string) (st : State) :
  typed entered -> (String.length entered <= 17)%nat ->
  let st1 := typeVIN entered st in
  let vin := normalizedVIN (formData st1) in
  let st' := handleVINLookup st1 in
  (String.length vin <= 17)%nat
  /\ vinError st'
     <> Some "Unable to decode VIN. Please enter vehicle details manually."
  /\ ((String.length vin < 17)%nat ->
      vinError st' = Some "VIN must be 17 characters"
      /\ formData st' = formData st1
      /\ vinLookupResult st' = vinLookupResult st)
  /\ (String.length vin = 17%nat ->
      exists result,
        vinLookupResult st' = Some result
        /\ vinError st' = None
        /\ formData st' = filled (formData st1) vin result
        /\ ((exists d, d ∈ demoVINs /\ demoVin d = vin /\ result = info d)
            \/ ((forall d, d ∈ demoVINs -> demoVin d <> vin)
                /\ result = unknownVehicle))).
Proof.
  intros _ Hmax st1 vin st'.
  assert (Hvin : vin = toUpperCase (Assessment.js_trim (toUpperCase entered)))
    by reflexivity.
  assert (Hlen : (String.length vin <= 17)%nat).
  { rewrite Hvin. pose proof (normalized_length entered). lia. }
  assert (Hup : toUpperCase vin = vin) by (rewrite Hvin; apply toUpperCase_idem).
  split; [exact Hlen|].
  subst st'. unfold handleVINLookup. fold vin.
  destruct (String.length vin <? 17)%nat eqn:Hshort.
  - apply Nat.ltb_lt in Hshort. cbn [vinError formData vinLookupResult].
    split; [discriminate|]. split; [intros _; auto|]. intros H17. lia.
  - apply Nat.ltb_ge in Hshort.
    assert (H17 : String.length vin = 17%nat) by lia.
    unfold decodeVIN. rewrite Hup, H17. cbn [Nat.eqb].
    destruct (mockVehicles !! vin) as [found|] eqn:Hfound;
      cbn [vinError formData vinLookupResult];
      (split; [discriminate|]); (split; [intros Hlt; lia|]); intros _.
    + exists found. repeat split. left.
      destruct (registered_found demoVINs ∅ vin found Hfound)
        as [(d & Hin & Hd & Hi)|Hempty].
      * exists d. auto.
      * rewrite lookup_empty in Hempty. discriminate.
    + exists unknownVehicle. repeat split. right.
      split; [exact (registered_missing demoVINs ∅ vin Hfound) | reflexivity].
Qed.

Lemma vin_lookup_outcomes_witness :
  let st := {| formData :=
                 {| Page.policyNumber := "POL-2024-123456"; Page.vehicleMake := "";
                    Page.vehicleModel := ""; Page.vehicleYear := "";
                    Page.vehicleTrim := Some ""; Page.vehicleValue := None;
                    Page.vin := Some ""; Page.accidentDate := "2024-05-01";
                    Page.accidentDescription := "" |};
               vinLookupResult := None; vinError := None |} in
  typed "1hgbh41jxmn109186"
  /\ (String.length "1hgbh41jxmn109186" <= 17)%nat
  /\ exists result,
       vinLookupResult (handleVINLookup (typeVIN "1hgbh41jxmn109186" st)) = Some result
       /\ vinError (handleVINLookup (typeVIN "1hgbh41jxmn109186" st)) = None.
Proof.
  intros st.
  assert (Htyped : typed "1hgbh41jxmn109186").
  { unfold typed. cbn [list_ascii_of_string]. repeat constructor; cbn; lia. }
  assert (Hmax : (String.length "1hgbh41jxmn109186" <= 17)%nat) by (cbn; lia).
  split; [exact Htyped|]. split; [exact Hmax|].
  destruct (proj2 (proj2 (proj2 (vin_lookup_outcomes "1hgbh41jxmn109186" st Htyped Hmax)))
              eq_refl) as (result & Hresult & Herror & _).
  exists result. split; [exact Hresult | exact Herror].
Defined.

(** X30. Choosing a demo vehicle fills the form with that vehicle and its
    VIN, enables the Lookup button, and agrees with the decoder: pressing
    Lookup afterwards changes nothing.  Choosing the empty first option
    changes nothing either. *)
Theorem demo_choice_agrees_with_lookup (d : DemoVIN) (st : State) :
  d ∈ demoVINs ->
  let st1 := selectDemo (demoVin d) st in
  formData st1 = filled (formData st) (demoVin d) (info d)
  /\ vinLookupResult st1 = Some (info d)
  /\ vinError st1 = None
  /\ decodeVIN (demoVin d) = Some (info d)
  /\ lookupEnabled st1 = true
  /\ handleVINLookup st1 = st1
  /\ selectDemo "" st = st.
Proof.
  intros Hin st1. subst st1. apply list_elem_of_In in Hin. cbn [demoVINs In] in Hin.
  repeat (destruct Hin as [<-|Hin];
          [repeat split; vm_compute; reflexivity|]).
  contradiction.
Qed.

Lemma demo_choice_agrees_with_lookup_witness :
  let d := {| demoVin := "1FTFW1ET5DFC12345"; demoLabel := "2013 Ford F-150 XLT";
              info := vehicle 2013 "Ford" "F-150" "XLT" 18500 |} in
  let st := {| formData :=
                 {| Page.policyNumber := "POL-2024-123456"; Page.vehicleMake := "";
                    Page.vehicleModel := ""; Page.vehicleYear := "";
                    Page.vehicleTrim := Some ""; Page.vehicleValue := None;
                    Page.vin := Some ""; Page.accidentDate := "2024-05-01";
                    Page.accidentDescription := "" |};
               vinLookupResult := None; vinError := None |} in
  d ∈ demoVINs
  /\ Page.vehicleMake (formData (selectDemo (demoVin d) st)) = "Ford"
  /\ handleVINLookup (selectDemo (demoVin d) st) = selectDemo (demoVin d) st.
Proof.
  intros d st.
  assert (Hin : d ∈ demoVINs).
  { apply list_elem_of_In. cbn. tauto. }
  split; [exact Hin|].
  destruct (demo_choice_agrees_with_lookup d st Hin)
    as (Hform & _ & _ & _ & _ & Hsame & _).
  split; [rewrite Hform; reflexivity | exact Hsame].
Defined.
End ClaimFormFacts.
